(** * Calgary community Q&A: chunker, indexer and answer adapter

    A shallow embedding of [chunker.py], [indexer.py] and the answer
    adapter of [qa.py].  Python objects read from a JSON document are
    values of [pyval]; a Python function that may raise returns a
    [result]; the vector store is a finite map from chunk ids to
    entries.

    Strings are [string]: a character is one of the code points
    U+0000..U+00FF.  [str.upper] and [str.title] follow the Unicode case
    mappings of these characters; the capitals of U+00B5 and U+00FF lie
    beyond U+00FF, and statements about case are made for the strings
    without these two. *)

From Stdlib Require Import ZArith NArith QArith Qround Qabs Qpower Lia Lqa Bool.
From Stdlib Require Import Ascii String DecimalString.
From stdpp Require Import base option list strings gmap sorting.

Local Open Scope Z_scope.

(** ** Exceptions and results *)

Module Py.

(** The exception classes the three modules can raise or catch. *)
Inductive exn : Type :=
  | KeyError
  | TypeError
  | ValueError
  | AttributeError
  | IndexError
  | OverflowError
  | JSONDecodeError
  | FileNotFoundError
  | PermissionError
  | OSError
  | TimeoutExpired
  | DuplicateIDError.

Inductive result (A : Type) : Type :=
  | Ok (a : A)
  | Raise (e : exn).

Arguments Ok {A} a.
Arguments Raise {A} e.

Definition bind {A B} (r : result A) (k : A -> result B) : result B :=
  match r with
  | Ok a => k a
  | Raise e => Raise e
  end.

Definition is_ok {A} (r : result A) : bool :=
  match r with Ok _ => true | Raise _ => false end.

End Py.

Export Py.

#[global] Instance result_ret : MRet result := fun _ a => Ok a.
#[global] Instance result_bind : MBind result := fun _ _ k r => bind r k.

(** ** Strings *)

Module Str.

Definition quote : ascii := ascii_of_nat 34.

Fixpoint join (sep : string) (l : list string) : string :=
  match l with
  | [] => ""
  | [s] => s
  | s :: rest => s +:+ sep +:+ join sep rest
  end.

Fixpoint repeat (c : ascii) (n : nat) : string :=
  match n with
  | O => ""
  | S n' => String c (repeat c n')
  end.

Fixpoint rev_onto (s acc : string) : string :=
  match s with
  | EmptyString => acc
  | String c s' => rev_onto s' (String c acc)
  end.

Definition rev (s : string) : string := rev_onto s "".

Fixpoint drop_while (p : ascii -> bool) (s : string) : string :=
  match s with
  | EmptyString => ""
  | String c s' => if p c then drop_while p s' else s
  end.

(** [s.lstrip(chars)], [s.rstrip(chars)] for a predicate on characters. *)
Definition lstrip_by (p : ascii -> bool) (s : string) : string :=
  drop_while p s.

Definition rstrip_by (p : ascii -> bool) (s : string) : string :=
  rev (drop_while p (rev s)).

Definition mem_char (chars : string) (c : ascii) : bool :=
  existsb (Ascii.eqb c) (list_ascii_of_string chars).

(** [s.rstrip(chars)] *)
Definition rstrip (chars s : string) : string := rstrip_by (mem_char chars) s.

(** The characters [str.strip()] removes, among U+0000..U+00FF:
    TAB, LF, VT, FF, CR, FS, GS, RS, US, space, NEL and NBSP. *)
Definition is_space (c : ascii) : bool :=
  let n := nat_of_ascii c in
  (((9 <=? n) && (n <=? 13)) || ((28 <=? n) && (n <=? 32))
   || (n =? 133) || (n =? 160))%nat.

(** [s.strip()] *)
Definition strip (s : string) : string := rstrip_by is_space (lstrip_by is_space s).

Fixpoint map_chars (f : ascii -> ascii) (s : string) : string :=
  match s with
  | EmptyString => ""
  | String c s' => String (f c) (map_chars f s')
  end.

(** [s.replace(a, b)] for single characters [a], [b]. *)
Definition replace_char (a b : ascii) (s : string) : string :=
  map_chars (fun c => if Ascii.eqb c a then b else c) s.

(** The cased characters of U+0000..U+00FF: the letters [A-Z] and
    [a-z], the ordinal indicators U+00AA and U+00BA, the micro sign
    U+00B5, and the letters U+00C0..U+00FF but for the signs U+00D7 and
    U+00F7. *)
Definition is_upper (c : ascii) : bool :=
  let n := nat_of_ascii c in
  (((65 <=? n) && (n <=? 90)) || ((192 <=? n) && (n <=? 222) && negb (n =? 215)))%nat.

Definition is_lower (c : ascii) : bool :=
  let n := nat_of_ascii c in
  (((97 <=? n) && (n <=? 122)) || ((223 <=? n) && (n <=? 255) && negb (n =? 247))
   || (n =? 170) || (n =? 181) || (n =? 186))%nat.

Definition is_cased (c : ascii) : bool := is_upper c || is_lower c.



(** The lower case of a character. *)
Definition to_lower (c : ascii) : ascii :=
  if is_upper c then ascii_of_nat (nat_of_ascii c + 32) else c.

(** The upper case and the title case of a character: a string, as the
    sharp s (U+00DF) has the capital [SS] and the title case [Ss].  The
    two characters whose capital is out of range are left as they are. *)
Definition to_upper (c : ascii) : string :=
  let n := nat_of_ascii c in
  if (n =? 223)%nat then "SS"
  else if ((97 <=? n) && (n <=? 122)
           || (224 <=? n) && (n <=? 254) && negb (n =? 247))%nat
  then String (ascii_of_nat (n - 32)) ""
  else String c "".

Definition to_title (c : ascii) : string :=
  if (nat_of_ascii c =? 223)%nat then "Ss" else to_upper c.

(** [s.upper()] *)
Fixpoint upper (s : string) : string :=
  match s with
  | EmptyString => ""
  | String c s' => to_upper c +:+ upper s'
  end.

(** [s.title()]: a character takes its lower case when the previous
    character is cased, its title case otherwise. *)
Fixpoint title_from (prev_cased : bool) (s : string) : string :=
  match s with
  | EmptyString => ""
  | String c s' =>
      (if prev_cased then String (to_lower c) "" else to_title c)
        +:+ title_from (is_cased c) s'
  end.

Definition title (s : string) : string := title_from false s.

(** [s.startswith(p)] *)
Definition startswith (p s : string) : bool := String.prefix p s.

Definition endswith (p s : string) : bool := String.prefix (rev p) (rev s).

(** [p in s] *)
Fixpoint contains (p s : string) : bool :=
  String.prefix p s ||
  match s with
  | EmptyString => false
  | String _ s' => contains p s'
  end.

(** [s[:n]] and [s[n:]] for [0 <= n]. *)
Fixpoint take (n : nat) (s : string) : string :=
  match n, s with
  | S n', String c s' => String c (take n' s')
  | _, _ => ""
  end.

Fixpoint drop (n : nat) (s : string) : string :=
  match n, s with
  | S n', String _ s' => drop n' s'
  | _, _ => s
  end.

End Str.

(** ** Numbers and their formatting *)

Module Num.

(** Decimal digits of a natural number, as [str(n)] prints them. *)
Definition digits (n : N) : string := NilZero.string_of_uint (N.to_uint n).

(** The [,] option of a format specification: the digits of the
    integer part in groups of three, from the right. *)
Fixpoint group_from (k : nat) (s : string) : string :=
  match s with
  | EmptyString => ""
  | String c s' =>
      match k with
      | O => String "," (String c (group_from 2 s'))
      | S k' => String c (group_from k' s')
      end
  end.

Definition group_thousands (s : string) : string :=
  group_from (match (String.length s mod 3)%nat with O => 3 | r => r end) s.

(** [str(n)] and [format(n, ',')] for an [int]. *)
Definition int_str (z : Z) : string :=
  (if z <? 0 then "-" else "") +:+ digits (Z.abs_N z).

Definition int_comma (z : Z) : string :=
  (if z <? 0 then "-" else "") +:+ group_thousands (digits (Z.abs_N z)).

(** A Python [float]: an IEEE double.  [FFinite neg m e] is
    [(-1)^neg * m * 2^e]; zero keeps its sign. *)
Inductive pyfloat : Type :=
  | FFinite (neg : bool) (m : N) (e : Z)
  | FInf (neg : bool)
  | FNan.

(** The finite values that are doubles. *)
Definition is_double (m : N) (e : Z) : bool :=
  (m <? 2 ^ 53)%N && (-1074 <=? e) && (e <=? 971).

(** The magnitude of a finite float, as a rational. *)
Definition mag (m : N) (e : Z) : Q := inject_Z (Z.of_N m) * Qpower 2 e.

(** [a / b] rounded to the nearest integer, a tie to the even one. *)
Definition div_half_even (a b : N) : N :=
  let q := (a / b)%N in
  let r := (a mod b)%N in
  match (2 * r ?= b)%N with
  | Lt => q
  | Gt => (q + 1)%N
  | Eq => if N.even q then q else (q + 1)%N
  end.

(** [m * 2^e * 10^prec] rounded to the nearest integer, ties to even:
    the digits that the [f] presentation type prints. *)
Definition scaled (prec : nat) (m : N) (e : Z) : N :=
  let a := (m * 10 ^ N.of_nat prec)%N in
  if 0 <=? e then (a * 2 ^ Z.to_N e)%N
  else div_half_even a (2 ^ Z.to_N (- e)).

(** [float(n)] for an [int]: the nearest double, ties to even;
    [OverflowError] when it is out of range. *)
Definition float_of_int (z : Z) : result pyfloat :=
  let m := Z.abs_N z in
  let neg := z <? 0 in
  let bits := N.size m in
  if (bits <=? 53)%N then Ok (FFinite neg m 0)
  else
    let sh := (bits - 53)%N in
    let q := div_half_even m (2 ^ sh) in
    if (2 ^ 1024 <=? q * 2 ^ sh)%N then Raise OverflowError
    else Ok (FFinite neg q (Z.of_N sh)).

Definition sign_str (plus neg : bool) : string :=
  if neg then "-" else if plus then "+" else "".

(** The unsigned text of [format(x, '.<prec>f')] from the scaled digits. *)
Definition fixed_digits (comma : bool) (prec : nat) (n : N) : string :=
  let d := digits n in
  let d := Str.repeat "0" (S prec - String.length d) +:+ d in
  let k := (String.length d - prec)%nat in
  let ip := Str.take k d in
  let ip := if comma then group_thousands ip else ip in
  match prec with
  | O => ip
  | _ => ip +:+ "." +:+ Str.drop k d
  end.

(** [format(x, '[+][,].<prec>f')] for a float. *)
Definition float_fixed (plus comma : bool) (prec : nat) (x : pyfloat) : string :=
  match x with
  | FFinite neg m e => sign_str plus neg +:+ fixed_digits comma prec (scaled prec m e)
  | FInf neg => sign_str plus neg +:+ "inf"
  | FNan => sign_str plus false +:+ "nan"
  end.

End Num.

(** *** [repr] of a float: the shortest digits that read back *)

Module Repr.

Import Num.

(** The mantissa of a double in its canonical form: 53 bits, or the
    least exponent. *)
Definition normalize (m : N) (e : Z) : N * Z :=
  let bits := Z.of_N (N.size m) in
  let k := Z.max 0 (Z.min (53 - bits) (e + 1074)) in
  ((m * 2 ^ Z.to_N k)%N, e - k).

Definition ndigits (n : Z) : Z := Z.of_nat (String.length (digits (Z.to_N n))).

Definition pow10 (k : Z) : Z := 10 ^ k.

(** One attempt with [n] digits.  The float is [x4 * 2^s], the values
    that read back as it lie between [lo4 * 2^s] and [hi4 * 2^s]
    (the ends included when [incl]), and [t] is the decimal exponent of
    its leading digit.  The result is [(c, k)] for the decimal
    [c * 10^k]. *)
Definition attempt (x4 lo4 hi4 s : Z) (incl : bool) (t n : Z) : option (Z * Z) :=
  let k := t + 1 - n in
  let p := (if 0 <=? s then 2 ^ s else 1) * (if k <? 0 then pow10 (- k) else 1) in
  let b := (if 0 <=? s then 1 else 2 ^ (- s)) * (if k <? 0 then 1 else pow10 k) in
  let a := x4 * p in
  let al := lo4 * p in
  let ah := hi4 * p in
  let ok c := if incl then (al <=? c * b) && (c * b <=? ah)
              else (al <? c * b) && (c * b <? ah) in
  let d := a / b in
  match ok d, ok (d + 1) with
  | true, true =>
      match (a - d * b ?= (d + 1) * b - a) with
      | Lt => Some (d, k)
      | Gt => Some (d + 1, k)
      | Eq => Some (if Z.even d then d else d + 1, k)
      end
  | true, false => Some (d, k)
  | false, true => Some (d + 1, k)
  | false, false => None
  end.

Fixpoint search (x4 lo4 hi4 s : Z) (incl : bool) (t n : Z) (fuel : nat) : Z * Z :=
  match attempt x4 lo4 hi4 s incl t n with
  | Some r => r
  | None =>
      match fuel with
      | O => (x4 / 4, s + 2)
      | S fuel' => search x4 lo4 hi4 s incl t (n + 1) fuel'
      end
  end.

(** The shortest digit string and the position of the decimal point
    ([0.d1d2... * 10^decpt]) of a non-zero double. *)
Definition shortest (m : N) (e : Z) : string * Z :=
  let '(m', e') := normalize m e in
  let x4 := 4 * Z.of_N m' in
  let lo4 := if (m' =? 2 ^ 52)%N && (-1074 <? e') then x4 - 1 else x4 - 2 in
  let hi4 := x4 + 2 in
  let s := e' - 2 in
  let num := x4 * (if 0 <=? s then 2 ^ s else 1) in
  let den := if 0 <=? s then 1 else 2 ^ (- s) in
  let g := ndigits num - ndigits den in
  let t := if (if 0 <=? g then den * pow10 g <=? num else den <=? num * pow10 (- g))
           then g else g - 1 in
  let '(c, k) := search x4 lo4 hi4 s (N.even m') t 1 17 in
  let ds := digits (Z.to_N c) in
  (Str.rstrip "0" ds, Z.of_nat (String.length ds) + k).

(** The layout of [repr(x)]; with [comma], of [format(x, ',')]. *)
Definition layout (comma : bool) (ds : string) (decpt : Z) : string :=
  let n := Z.of_nat (String.length ds) in
  let grp s := if comma then group_thousands s else s in
  if (decpt <=? -4) || (16 <? decpt) then
    let ex := decpt - 1 in
    let exd := digits (Z.abs_N ex) in
    Str.take 1 ds +:+ (if 1 <? n then "." +:+ Str.drop 1 ds else "")
      +:+ "e" +:+ (if ex <? 0 then "-" else "+")
      +:+ Str.repeat "0" (2 - String.length exd) +:+ exd
  else if decpt <=? 0 then
    "0." +:+ Str.repeat "0" (Z.to_nat (- decpt)) +:+ ds
  else if decpt <? n then
    grp (Str.take (Z.to_nat decpt) ds) +:+ "." +:+ Str.drop (Z.to_nat decpt) ds
  else
    grp (ds +:+ Str.repeat "0" (Z.to_nat (decpt - n))) +:+ ".0".

Definition float_general (comma : bool) (x : pyfloat) : string :=
  match x with
  | FFinite neg 0%N _ => sign_str false neg +:+ "0.0"
  | FFinite neg m e =>
      let '(ds, decpt) := shortest m e in
      sign_str false neg +:+ layout comma ds decpt
  | FInf neg => sign_str false neg +:+ "inf"
  | FNan => "nan"
  end.

(** [repr(x)], which is also [str(x)]. *)
Definition float_repr : pyfloat -> string := float_general false.

(** [format(x, ',')] *)
Definition float_comma : pyfloat -> string := float_general true.

End Repr.

(** ** Python values *)

Module Val.

Import Num Repr.

(** What [json.load] builds.  A [dict] keeps its keys in insertion
    order: an association list, looked up from the front. *)
#[warnings="-register-all"]
Inductive pyval : Type :=
  | PNone
  | PBool (b : bool)
  | PInt (z : Z)
  | PFloat (x : pyfloat)
  | PStr (s : string)
  | PList (l : list pyval)
  | PDict (d : list (string * pyval)).

Definition float_is_zero (x : pyfloat) : bool :=
  match x with
  | FFinite _ m _ => (m =? 0)%N
  | _ => false
  end.

(** [bool(v)] *)
Definition truthy (v : pyval) : bool :=
  match v with
  | PNone => false
  | PBool b => b
  | PInt z => negb (z =? 0)
  | PFloat x => negb (float_is_zero x)
  | PStr s => negb (String.eqb s "")
  | PList l => match l with [] => false | _ => true end
  | PDict d => match d with [] => false | _ => true end
  end.

Definition is_none (v : pyval) : bool :=
  match v with PNone => true | _ => false end.

Fixpoint lookup (k : string) (d : list (string * pyval)) : option pyval :=
  match d with
  | [] => None
  | (k', v) :: rest => if String.eqb k k' then Some v else lookup k rest
  end.

(** [v.get(k, default)] *)
Definition get_or (v : pyval) (k : string) (dflt : pyval) : result pyval :=
  match v with
  | PDict d => Ok (default dflt (lookup k d))
  | _ => Raise AttributeError
  end.

(** [v.get(k)] *)
Definition get (v : pyval) (k : string) : result pyval := get_or v k PNone.

(** [v[k]] for a string key. *)
Definition item (v : pyval) (k : string) : result pyval :=
  match v with
  | PDict d => match lookup k d with Some x => Ok x | None => Raise KeyError end
  | _ => Raise TypeError
  end.

(** [v.items()] *)
Definition items (v : pyval) : result (list (string * pyval)) :=
  match v with
  | PDict d => Ok d
  | _ => Raise AttributeError
  end.

(** [len(v)] *)
Definition len (v : pyval) : result nat :=
  match v with
  | PStr s => Ok (String.length s)
  | PList l => Ok (length l)
  | PDict d => Ok (length d)
  | _ => Raise TypeError
  end.

Definition chars (s : string) : list pyval :=
  map (fun c => PStr (String c "")) (list_ascii_of_string s).

(** The elements [for x in v] visits. *)
Definition iter (v : pyval) : result (list pyval) :=
  match v with
  | PList l => Ok l
  | PStr s => Ok (chars s)
  | PDict d => Ok (map (fun kv => PStr (fst kv)) d)
  | _ => Raise TypeError
  end.

(** [v[:n]] *)
Definition slice_to (n : nat) (v : pyval) : result pyval :=
  match v with
  | PList l => Ok (PList (take n l))
  | PStr s => Ok (PStr (Str.take n s))
  | _ => Raise TypeError
  end.

(** [v[0]] and [v[-1]] *)
Definition first (v : pyval) : result pyval :=
  match v with
  | PList l => match l with x :: _ => Ok x | [] => Raise IndexError end
  | PStr s => match chars s with x :: _ => Ok x | [] => Raise IndexError end
  | PDict _ => Raise KeyError
  | _ => Raise TypeError
  end.

Definition final (v : pyval) : result pyval :=
  match v with
  | PList l => match last l with Some x => Ok x | None => Raise IndexError end
  | PStr s => match last (chars s) with Some x => Ok x | None => Raise IndexError end
  | PDict _ => Raise KeyError
  | _ => Raise TypeError
  end.

Definition hex_digit (n : nat) : ascii :=
  ascii_of_nat (if (n <? 10)%nat then 48 + n else 87 + n).

(** [repr(s)] of a string: the quote is the single quote unless the
    string holds one and no double quote; control and unprintable
    characters are escaped. *)
Definition escape_char (q : ascii) (c : ascii) : string :=
  let n := nat_of_ascii c in
  if Ascii.eqb c q || Ascii.eqb c "\" then String "\" (String c "")
  else if (n =? 9)%nat then "\t"
  else if (n =? 10)%nat then "\n"
  else if (n =? 13)%nat then "\r"
  else if (n <? 32)%nat || ((127 <=? n) && (n <=? 160))%nat || (n =? 173)%nat
  then String "\" (String "x" (String (hex_digit (n / 16)) (String (hex_digit (n mod 16)) "")))
  else String c "".

Definition str_repr (s : string) : string :=
  let q := if Str.mem_char s "'" && negb (Str.mem_char s Str.quote)
           then Str.quote else "'"%char in
  String q (String.concat "" (map (escape_char q) (list_ascii_of_string s)))
    +:+ String q "".

(** [repr(v)] *)
Fixpoint repr (v : pyval) : string :=
  match v with
  | PNone => "None"
  | PBool true => "True"
  | PBool false => "False"
  | PInt z => int_str z
  | PFloat x => float_repr x
  | PStr s => str_repr s
  | PList l => "[" +:+ Str.join ", " (map repr l) +:+ "]"
  | PDict d =>
      "{" +:+ Str.join ", " (map (fun kv => str_repr (fst kv) +:+ ": " +:+ repr (snd kv)) d)
        +:+ "}"
  end.

(** [str(v)], what [f"{v}"] puts in the text. *)
Definition str (v : pyval) : string :=
  match v with
  | PStr s => s
  | _ => repr v
  end.

(** [f"{v:,}"] *)
Definition fmt_comma (v : pyval) : result string :=
  match v with
  | PInt z => Ok (int_comma z)
  | PBool b => Ok (if b then "1" else "0")
  | PFloat x => Ok (float_comma x)
  | PStr _ => Raise ValueError
  | _ => Raise TypeError
  end.

(** [f"{v:[+][,].<prec>f}"]: an [int] is converted to [float] first. *)
Definition fmt_fixed (plus comma : bool) (prec : nat) (v : pyval) : result string :=
  match v with
  | PFloat x => Ok (float_fixed plus comma prec x)
  | PInt z => x ← float_of_int z; Ok (float_fixed plus comma prec x)
  | PBool b => Ok (float_fixed plus comma prec (FFinite false (if b then 1 else 0) 0))
  | PStr _ => Raise ValueError
  | _ => Raise TypeError
  end.

(** [v > 0], [v >= 0] and [v == 0] against the [int] zero. *)
Definition float_gt0 (x : pyfloat) : bool :=
  match x with
  | FFinite neg m _ => negb neg && negb (m =? 0)%N
  | FInf neg => negb neg
  | FNan => false
  end.

Definition gt0 (v : pyval) : result bool :=
  match v with
  | PInt z => Ok (0 <? z)
  | PBool b => Ok b
  | PFloat x => Ok (float_gt0 x)
  | _ => Raise TypeError
  end.

Definition ge0 (v : pyval) : result bool :=
  match v with
  | PInt z => Ok (0 <=? z)
  | PBool b => Ok true
  | PFloat x => Ok (float_gt0 x || float_is_zero x)
  | _ => Raise TypeError
  end.

Definition eq0 (v : pyval) : bool :=
  match v with
  | PInt z => z =? 0
  | PBool b => negb b
  | PFloat x => float_is_zero x
  | _ => false
  end.

(** [text + v]: only a [str] can be appended to a [str]. *)
Definition concat_str (text : string) (v : pyval) : result string :=
  match v with
  | PStr s => Ok (text +:+ s)
  | _ => Raise TypeError
  end.

Fixpoint all_str (l : list pyval) : result (list string) :=
  match l with
  | [] => Ok []
  | PStr s :: rest => ss ← all_str rest; Ok (s :: ss)
  | _ :: _ => Raise TypeError
  end.

(** [sep.join(l)] for the elements of an iteration. *)
Definition join (sep : string) (l : list pyval) : result string :=
  ss ← all_str l; Ok (Str.join sep ss).

(** [[f(x) for x in l]] with an [f] that may raise. *)
Fixpoint mapM {A B} (f : A -> result B) (l : list A) : result (list B) :=
  match l with
  | [] => Ok []
  | x :: rest => y ← f x; ys ← mapM f rest; Ok (y :: ys)
  end.

(** A loop [for x in l: body] whose body updates [text]. *)
Fixpoint for_each {A} (l : list A) (body : A -> string -> result string)
    (text : string) : result string :=
  match l with
  | [] => Ok text
  | x :: rest => text' ← body x text; for_each rest body text'
  end.

End Val.

(** ** chunker.py *)

Module Chunker.

Import Num Val.

Definition PULSE_BASE_URL : string := "https://calgarypulse.ca/communities".

(** A visualization descriptor: fixed metadata that travels with a chunk. *)
Record viz : Type := Viz {
  viz_type : string;
  component : string;
  data_keys : list string;
  series : option (list (string * string));
  x_axis : option string;
  description : string
}.

Record chunk : Type := Chunk {
  id : string;
  community : string;
  section : string;
  url : string;
  text : string;
  viz_list : list viz
}.

(** [format_currency(value)] *)
Definition format_currency (value : pyval) : result string :=
  if is_none value then Ok "N/A"
  else s ← fmt_fixed false true 0 value; Ok ("$" +:+ s).

(** [format_pct(value)] *)
Definition format_pct (value : pyval) : result string :=
  if is_none value then Ok "N/A"
  else
    nonneg ← ge0 value;
    s ← (if nonneg : bool then fmt_fixed true false 1 value
         else fmt_fixed false false 1 value);
    Ok (s +:+ "%").

(** [ptype.replace("_", " ").title()] *)
Definition type_label (ptype : string) : string :=
  Str.title (Str.replace_char "_" " " ptype).

Definition hero_viz : list viz :=
  [ Viz "stat-cards" "HeroCards"
      ["hero.population"; "hero.safety_percentile"; "hero.avg_value"; "housing.value_vs_city"]
      None None
      "Three stat cards: Population, Safety Score (color-coded), Assessed Value" ].

(** [chunk_hero(data, slug, name)]: the overview section. *)
Definition chunk_hero (data : pyval) (slug : string) (name : pyval)
  : result (option chunk) :=
  hero ← get_or data "hero" (PDict []);
  desc ← get_or data "description" (PStr "");
  sector ← get_or data "sector" (PStr "");
  district ← get_or data "creb_district" (PStr "");
  distance ← get data "distance_to_downtown_km";
  let text := str name +:+ " community overview. " in
  let text := text +:+ "Located in " +:+ str sector +:+ " sector, CREB district: "
                +:+ str district +:+ ". " in
  text ← (if truthy distance
          then d ← fmt_fixed false false 1 distance;
               Ok (text +:+ d +:+ " km from downtown. ")
          else Ok text);
  population ← get hero "population";
  text ← (if truthy population
          then p ← fmt_comma population;
               Ok (text +:+ "Population: " +:+ p +:+ ". ")
          else Ok text);
  percentile ← get hero "safety_percentile";
  let text := if negb (is_none percentile)
              then text +:+ "Safety percentile: " +:+ str percentile +:+ "/100. "
              else text in
  avg_value ← get hero "avg_value";
  text ← (if truthy avg_value
          then v ← format_currency avg_value;
               Ok (text +:+ "Average assessed home value: " +:+ v +:+ ". ")
          else Ok text);
  text ← (if truthy desc then concat_str text desc else Ok text);
  Ok (Some (Chunk (slug +:+ "-overview") slug "overview"
              (PULSE_BASE_URL +:+ "/" +:+ slug) text hero_viz)).

Definition safety_viz : list viz :=
  [ Viz "stat-cards" "SafetyStats"
      ["safety.crime.count"; "safety.crime.yoy_pct"; "safety.crime.per_1000";
       "safety.crime.city_avg_per_1000"; "safety.disorder.count";
       "safety.disorder.per_1000"; "safety.disorder.city_avg_per_1000"]
      None None
      "Two metric cards: Crime incidents with YoY and per-1000 rate vs city avg, Disorder calls with same";
    Viz "line-chart" "CrimeTrendChart" ["safety.trend"]
      (Some [("crime", "Crime Incidents"); ("disorder", "Disorder Calls")])
      (Some "quarter")
      "Dual-line chart showing crime and disorder trends over 8 quarters with linear regression trend line";
    Viz "stat-cards" "CrimeBreakdown"
      ["safety.breakdown.property"; "safety.breakdown.violent"]
      None None
      "Two cards: Property crime vs Violent crime counts and percentages";
    Viz "stat-grid" "DisorderBreakdown" ["safety.disorder_breakdown"]
      None None
      "Grid of disorder categories (disturbances, suspicious, welfare, other) with counts and percentages" ].

(** [chunk_safety(data, slug, name)] *)
Definition chunk_safety (data : pyval) (slug : string) (name : pyval)
  : result (option chunk) :=
  safety ← get_or data "safety" (PDict []);
  if negb (truthy safety) then Ok None else
  crime ← get_or safety "crime" (PDict []);
  disorder ← get_or safety "disorder" (PDict []);
  breakdown ← get_or safety "breakdown" (PDict []);
  let text := str name +:+ " safety and crime data. " in
  percentile ← get_or safety "percentile" (PStr "N/A");
  let text := text +:+ "Safety percentile: " +:+ str percentile +:+ "/100 " in
  label ← get_or safety "percentile_label" (PStr "");
  let text := text +:+ "(" +:+ str label +:+ "). " in
  text ← (if truthy crime then
            count ← get_or crime "count" (PStr "N/A");
            count ← fmt_comma count;
            let text := text +:+ "Crime incidents (latest quarter): " +:+ count +:+ ", " in
            rate ← get_or crime "per_1000" (PStr "N/A");
            let text := text +:+ str rate +:+ " per 1,000 residents " in
            avg ← get_or crime "city_avg_per_1000" (PStr "N/A");
            let text := text +:+ "(city average: " +:+ str avg +:+ "). " in
            yoy ← get crime "yoy_pct";
            if negb (is_none yoy)
            then y ← format_pct yoy;
                 Ok (text +:+ "Year-over-year change: " +:+ y +:+ ". ")
            else Ok text
          else Ok text);
  text ← (if truthy breakdown then
            prop ← get_or breakdown "property" (PDict []);
            violent ← get_or breakdown "violent" (PDict []);
            ppct ← get prop "pct";
            if truthy ppct then
              vpct ← get violent "pct";
              if truthy vpct
              then Ok (text +:+ "Breakdown: " +:+ str ppct +:+ "% property crime, "
                         +:+ str vpct +:+ "% violent crime. ")
              else Ok text
            else Ok text
          else Ok text);
  text ← (if truthy disorder then
            count ← get_or disorder "count" (PStr "N/A");
            count ← fmt_comma count;
            let text := text +:+ "Disorder calls: " +:+ count +:+ ", " in
            rate ← get_or disorder "per_1000" (PStr "N/A");
            let text := text +:+ str rate +:+ " per 1,000 " in
            avg ← get_or disorder "city_avg_per_1000" (PStr "N/A");
            Ok (text +:+ "(city average: " +:+ str avg +:+ "). ")
          else Ok text);
  trend ← get_or safety "trend" (PList []);
  n ← len trend;
  text ← (if (2 <=? n)%nat then
            fst_q ← first trend;
            lst_q ← final trend;
            q ← item fst_q "quarter";
            c ← item fst_q "crime";
            let text := text +:+ "Crime trend: " +:+ str q +:+ " had " +:+ str c
                          +:+ " incidents, " in
            q ← item lst_q "quarter";
            c ← item lst_q "crime";
            Ok (text +:+ str q +:+ " had " +:+ str c +:+ " incidents. ")
          else Ok text);
  Ok (Some (Chunk (slug +:+ "-safety") slug "safety"
              (PULSE_BASE_URL +:+ "/" +:+ slug +:+ "#safety") text safety_viz)).

Definition housing_viz : list viz :=
  [ Viz "stat-cards" "HousingAssessments"
      ["housing.assessed_value"; "housing.value_vs_city"; "housing.property_count"]
      None None
      "Summary card: average assessed value, comparison to city median, total properties";
    Viz "stat-grid" "HousingByType" ["housing.assessed_by_type"]
      None None
      "Grid of property types (Detached, Semi, Row, Apartment) each showing avg value, count, and YoY change";
    Viz "stat-grid" "DistrictBenchmarks" ["housing.district_benchmarks"]
      None None
      "District benchmark prices by property type with YoY changes" ].

(** The body of [for ptype, info in by_type.items()]. *)
Definition housing_type_clause (entry : string * pyval) (text : string)
  : result string :=
  let '(ptype, info) := entry in
  count ← get_or info "count" (PInt 0);
  positive ← gt0 count;
  if positive : bool then
    let label := type_label ptype in
    value ← item info "value";
    value ← format_currency value;
    count ← item info "count";
    count ← fmt_comma count;
    let text := text +:+ label +:+ ": " +:+ value +:+ " avg (" +:+ count
                  +:+ " properties" in
    yoy ← get info "value_yoy";
    text ← (if negb (is_none yoy)
            then y ← format_pct yoy; Ok (text +:+ ", " +:+ y +:+ " YoY")
            else Ok text);
    Ok (text +:+ "). ")
  else Ok text.

(** The property types of the district benchmarks, in the order walked. *)
Definition benchmark_types : list string :=
  ["detached"; "semi_detached"; "row"; "apartment"].

(** The body of [for ptype in ["detached", ...]]. *)
Definition benchmark_clause (benchmarks : pyval) (ptype : string) (text : string)
  : result string :=
  price ← get benchmarks ptype;
  if truthy price then
    let label := type_label ptype in
    p ← format_currency price;
    Ok (text +:+ label +:+ ": " +:+ p +:+ ", ")
  else Ok text.

(** The benchmark block, source lines 173-180. *)
Definition housing_benchmarks (housing : pyval) (text : string) : result string :=
  benchmarks ← get_or housing "district_benchmarks" (PDict []);
  date ← get benchmarks "date";
  if truthy date then
    district ← get_or housing "district" (PStr "");
    let text := text +:+ "District (" +:+ str district
                  +:+ ") benchmark prices as of " +:+ str date +:+ ": " in
    for_each benchmark_types (benchmark_clause benchmarks) text
  else Ok text.

(** [chunk_housing(data, slug, name)] *)
Definition chunk_housing (data : pyval) (slug : string) (name : pyval)
  : result (option chunk) :=
  housing ← get_or data "housing" (PDict []);
  if negb (truthy housing) then Ok None else
  let text := str name +:+ " housing data. " in
  assessed ← get housing "assessed_value";
  assessed ← format_currency assessed;
  let text := text +:+ "Average assessed value: " +:+ assessed +:+ ". " in
  vs_city ← get housing "value_vs_city";
  text ← (if negb (is_none vs_city)
          then v ← format_pct vs_city;
               Ok (text +:+ "Compared to city median: " +:+ v +:+ ". ")
          else Ok text);
  count ← get_or housing "property_count" (PStr "N/A");
  count ← fmt_comma count;
  let text := text +:+ "Total properties: " +:+ count +:+ ". " in
  by_type ← get_or housing "assessed_by_type" (PDict []);
  entries ← items by_type;
  text ← for_each entries housing_type_clause text;
  text ← housing_benchmarks housing text;
  Ok (Some (Chunk (slug +:+ "-housing") slug "housing"
              (PULSE_BASE_URL +:+ "/" +:+ slug +:+ "#housing") text housing_viz)).

Definition viz_311 : list viz :=
  [ Viz "horizontal-bar" "ServiceRequests311Section"
      ["service_requests_311.total"; "service_requests_311.top_categories"]
      None None
      "Horizontal bar chart of top 5 request categories with counts and YoY change badges";
    Viz "line-chart" "ServiceRequestsTrend" ["service_requests_311.trend"]
      (Some [("count", "Monthly Requests")]) (Some "date")
      "24-month line chart of monthly request counts with linear regression trend line" ].

(** [chunk_311(data, slug, name)] *)
Definition chunk_311 (data : pyval) (slug : string) (name : pyval)
  : result (option chunk) :=
  sr ← get_or data "service_requests_311" (PDict []);
  if negb (truthy sr) then Ok None else
  let text := str name +:+ " 311 service requests. " in
  total ← get_or sr "total" (PStr "N/A");
  total ← fmt_comma total;
  let text := text +:+ "Total requests (24 months): " +:+ total +:+ ". " in
  top ← get_or sr "top_categories" (PList []);
  text ← (if truthy top then
            let text := text +:+ "Top categories: " in
            cats ← iter top;
            text ← for_each cats (fun cat text =>
              category ← item cat "category";
              count ← item cat "count";
              count ← fmt_comma count;
              yoy ← get_or cat "yoy_pct" (PInt 0);
              yoy ← format_pct yoy;
              Ok (text +:+ str category +:+ " (" +:+ count +:+ ", " +:+ yoy
                    +:+ " YoY), ")) text;
            Ok (Str.rstrip ", " text +:+ ". ")
          else Ok text);
  Ok (Some (Chunk (slug +:+ "-311") slug "311-service-requests"
              (PULSE_BASE_URL +:+ "/" +:+ slug +:+ "#311") text viz_311)).

Definition schools_viz : list viz :=
  [ Viz "list" "SchoolList" ["schools.list"; "schools.count"; "schools.avg_rating"]
      None None
      "Ordered list of schools with board, grade level, and Fraser Institute rating (0-10 scale)" ].

(** [chunk_schools(data, slug, name)] *)
Definition chunk_schools (data : pyval) (slug : string) (name : pyval)
  : result (option chunk) :=
  schools ← get_or data "schools" (PDict []);
  if negb (truthy schools) then Ok None else
  count ← get_or schools "count" (PInt 0);
  if eq0 count then Ok None else
  let text := str name +:+ " schools. " in
  count ← item schools "count";
  let text := text +:+ str count +:+ " schools in the community. " in
  rating ← get schools "avg_rating";
  text ← (if truthy rating then
            let text := text +:+ "Average Fraser Institute rating: " +:+ str rating
                          +:+ "/10 " in
            rated ← get_or schools "rated_count" (PInt 0);
            Ok (text +:+ "(" +:+ str rated +:+ " rated). ")
          else Ok text);
  listed ← get_or schools "list" (PList []);
  listed ← iter listed;
  text ← for_each listed (fun school text =>
    sname ← item school "name";
    board ← item school "board";
    level ← item school "level";
    let text := text +:+ str sname +:+ " (" +:+ str board +:+ ", " +:+ str level in
    rating ← get school "rating";
    let text := if truthy rating
                then text +:+ ", rating: " +:+ str rating +:+ "/10"
                else text in
    Ok (text +:+ "). ")) text;
  Ok (Some (Chunk (slug +:+ "-schools") slug "schools"
              (PULSE_BASE_URL +:+ "/" +:+ slug +:+ "#schools") text schools_viz)).

Definition transit_viz : list viz :=
  [ Viz "stat-with-list" "TransitSection"
      ["transit.stop_count"; "transit.stops_per_1000"; "transit.routes"]
      None None
      "Stop count metric card plus list of top 5 routes with destinations" ].

(** [chunk_transit(data, slug, name)] *)
Definition chunk_transit (data : pyval) (slug : string) (name : pyval)
  : result (option chunk) :=
  transit ← get_or data "transit" (PDict []);
  if negb (truthy transit) then Ok None else
  stops ← get_or transit "stop_count" (PInt 0);
  if eq0 stops then Ok None else
  let text := str name +:+ " transit. " in
  stops ← item transit "stop_count";
  let text := text +:+ str stops +:+ " transit stops " in
  per_1000 ← get transit "stops_per_1000";
  let text := if truthy per_1000
              then text +:+ "(" +:+ str per_1000 +:+ " per 1,000 residents). "
              else text in
  routes ← get_or transit "routes" (PList []);
  text ← (if truthy routes then
            let text := text +:+ "Key routes: " in
            rs ← iter routes;
            text ← for_each rs (fun r text =>
              route ← item r "route";
              destination ← item r "destination";
              Ok (text +:+ "Route " +:+ str route +:+ " (" +:+ str destination
                    +:+ "), ")) text;
            Ok (Str.rstrip ", " text +:+ ". ")
          else Ok text);
  Ok (Some (Chunk (slug +:+ "-transit") slug "transit"
              (PULSE_BASE_URL +:+ "/" +:+ slug +:+ "#transit") text transit_viz)).

Definition demographics_viz : list viz :=
  [ Viz "stat-grid" "DemographicsSection"
      ["demographics.owner_pct"; "demographics.renter_pct";
       "demographics.median_age"; "demographics.avg_income";
       "demographics.visible_minority_pct"]
      None None
      "5-column responsive stat grid: Owner %, Renter %, Median Age, Average Income, Visible Minority %" ].

(** [chunk_demographics(data, slug, name)] *)
Definition chunk_demographics (data : pyval) (slug : string) (name : pyval)
  : result (option chunk) :=
  demo ← get_or data "demographics" (PDict []);
  if negb (truthy demo) then Ok None else
  let text := str name +:+ " demographics (Census 2021). " in
  age ← get demo "median_age";
  let text := if truthy age
              then text +:+ "Median age: " +:+ str age +:+ ". "
              else text in
  income ← get demo "avg_income";
  text ← (if truthy income
          then i ← format_currency income;
               Ok (text +:+ "Average income: " +:+ i +:+ ". ")
          else Ok text);
  owner ← get demo "owner_pct";
  text ← (if negb (is_none owner)
          then renter ← get_or demo "renter_pct" (PStr "N/A");
               Ok (text +:+ "Homeowners: " +:+ str owner +:+ "%, Renters: "
                     +:+ str renter +:+ "%. ")
          else Ok text);
  minority ← get demo "visible_minority_pct";
  let text := if negb (is_none minority)
              then text +:+ "Visible minority: " +:+ str minority +:+ "%. "
              else text in
  Ok (Some (Chunk (slug +:+ "-demographics") slug "demographics"
              (PULSE_BASE_URL +:+ "/" +:+ slug +:+ "#demographics") text
              demographics_viz)).

Definition business_viz : list viz :=
  [ Viz "stat-cards" "BusinessDevelopmentSection"
      ["business_development.business_licenses.active_total";
       "business_development.business_licenses.city_avg_active";
       "business_development.building_permits.total_12mo";
       "business_development.building_permits.units_created_12mo";
       "business_development.building_permits.total_value_12mo";
       "business_character.character"]
      None None
      "Multi-card layout: business character label, license count vs city avg, permits count, units created, total investment value";
    Viz "horizontal-bar" "BusinessDevelopmentSection"
      ["business_development.business_licenses.top_types"]
      None None
      "Horizontal bar chart of top business license types with counts" ].

(** [chunk_business(data, slug, name)] *)
Definition chunk_business (data : pyval) (slug : string) (name : pyval)
  : result (option chunk) :=
  bd ← get_or data "business_development" (PDict []);
  bc ← get_or data "business_character" (PDict []);
  if negb (truthy bd) && negb (truthy bc) then Ok None else
  let text := str name +:+ " business and development. " in
  text ← (if truthy bc then
            character ← get_or bc "character" (PStr "N/A");
            let text := text +:+ "Business character: " +:+ str character +:+ ". " in
            total ← get_or bc "total_businesses" (PStr "N/A");
            total ← fmt_comma total;
            Ok (text +:+ "Total active businesses: " +:+ total +:+ ". ")
          else Ok text);
  licenses ← get_or bd "business_licenses" (PDict []);
  text ← (if truthy licenses then
            active ← get_or licenses "active_total" (PStr "N/A");
            active ← fmt_comma active;
            let text := text +:+ "Active business licenses: " +:+ active +:+ " " in
            avg ← get_or licenses "city_avg_active" (PStr "N/A");
            let text := text +:+ "(city average: " +:+ str avg +:+ "). " in
            top ← get_or licenses "top_types" (PList []);
            if truthy top then
              let text := text +:+ "Top types: " in
              ts ← iter top;
              text ← for_each ts (fun t text =>
                ty ← item t "type";
                count ← item t "count";
                Ok (text +:+ str ty +:+ " (" +:+ str count +:+ "), ")) text;
              Ok (Str.rstrip ", " text +:+ ". ")
            else Ok text
          else Ok text);
  permits ← get_or bd "building_permits" (PDict []);
  text ← (if truthy permits then
            total ← get_or permits "total_12mo" (PStr "N/A");
            let text := text +:+ "Building permits (12 months): " +:+ str total +:+ " " in
            yoy ← get_or permits "total_yoy_pct" (PInt 0);
            yoy ← format_pct yoy;
            let text := text +:+ "(" +:+ yoy +:+ " YoY). " in
            units ← get permits "units_created_12mo";
            text ← (if truthy units
                    then u ← fmt_comma units;
                         Ok (text +:+ "Units created: " +:+ u +:+ ". ")
                    else Ok text);
            value ← get permits "total_value_12mo";
            if truthy value
            then v ← format_currency value;
                 Ok (text +:+ "Total permit value: " +:+ v +:+ ". ")
            else Ok text
          else Ok text);
  Ok (Some (Chunk (slug +:+ "-business") slug "business-development"
              (PULSE_BASE_URL +:+ "/" +:+ slug +:+ "#business") text business_viz)).

Definition amenities_viz : list viz :=
  [ Viz "named-lists" "AmenitiesSection"
      ["amenities.grocery"; "amenities.pharmacy"; "amenities.childcare";
       "amenities.restaurant_count"; "amenities.cafe_count"]
      None None
      "Named lists: grocery stores, pharmacies, childcare centres, plus restaurant and cafe counts";
    Viz "named-lists" "CommunityHighlightsSection"
      ["landmarks"; "parks"; "recreation"; "natural_areas"]
      None None
      "Named lists: landmarks (by type), parks, recreation facilities, natural areas" ].

(** [', '.join(x['name'] for x in v[:n])] *)
Definition join_names (n : nat) (v : pyval) : result string :=
  head ← slice_to n v;
  xs ← iter head;
  names ← mapM (fun x => item x "name") xs;
  join ", " names.

(** [chunk_amenities(data, slug, name)] *)
Definition chunk_amenities (data : pyval) (slug : string) (name : pyval)
  : result (option chunk) :=
  amenities ← get_or data "amenities" (PDict []);
  parks ← get_or data "parks" (PList []);
  recreation ← get data "recreation";
  landmarks ← get_or data "landmarks" (PList []);
  if negb (truthy amenities) && negb (truthy parks) && negb (truthy landmarks)
  then Ok None else
  let text := str name +:+ " amenities and lifestyle. " in
  text ← (if truthy amenities then
            grocery ← get_or amenities "grocery" (PList []);
            text ← (if truthy grocery then
                      head ← slice_to 5 grocery;
                      xs ← iter head;
                      joined ← join ", " xs;
                      let text := text +:+ "Grocery stores: " +:+ joined in
                      n ← len grocery;
                      let text := if (5 <? n)%nat
                                  then text +:+ " (+" +:+ int_str (Z.of_nat n - 5)
                                         +:+ " more)"
                                  else text in
                      Ok (text +:+ ". ")
                    else Ok text);
            restaurants ← get amenities "restaurant_count";
            let text := if truthy restaurants
                        then text +:+ "Restaurants: " +:+ str restaurants +:+ ". "
                        else text in
            cafes ← get amenities "cafe_count";
            let text := if truthy cafes
                        then text +:+ "Cafes: " +:+ str cafes +:+ ". "
                        else text in
            pharmacy ← get_or amenities "pharmacy" (PList []);
            text ← (if truthy pharmacy
                    then n ← len pharmacy;
                         Ok (text +:+ "Pharmacies: " +:+ int_str (Z.of_nat n) +:+ ". ")
                    else Ok text);
            childcare ← get_or amenities "childcare" (PList []);
            if truthy childcare
            then n ← len childcare;
                 Ok (text +:+ "Childcare: " +:+ int_str (Z.of_nat n) +:+ " centres. ")
            else Ok text
          else Ok text);
  text ← (if truthy parks
          then names ← join_names 3 parks; Ok (text +:+ "Parks: " +:+ names +:+ ". ")
          else Ok text);
  text ← (if truthy landmarks
          then names ← join_names 5 landmarks;
               Ok (text +:+ "Landmarks: " +:+ names +:+ ". ")
          else Ok text);
  text ← (if truthy recreation
          then names ← join_names 3 recreation;
               Ok (text +:+ "Recreation facilities: " +:+ names +:+ ". ")
          else Ok text);
  Ok (Some (Chunk (slug +:+ "-amenities") slug "amenities"
              (PULSE_BASE_URL +:+ "/" +:+ slug +:+ "#amenities") text amenities_viz)).

(** The chunkers, in the order [chunk_community] applies them. *)
Definition chunker : Type := pyval -> string -> pyval -> result (option chunk).

Definition chunkers : list chunker :=
  [ chunk_hero; chunk_safety; chunk_housing; chunk_311; chunk_schools;
    chunk_transit; chunk_demographics; chunk_business; chunk_amenities ].

(** The loop [for chunker_fn in chunkers] with its accumulator [chunks]. *)
Fixpoint run_chunkers (fs : list chunker) (data : pyval) (slug : string)
    (name : pyval) (chunks : list chunk) : result (list chunk) :=
  match fs with
  | [] => Ok chunks
  | chunker_fn :: rest =>
      c ← chunker_fn data slug name;
      run_chunkers rest data slug name
        (match c with Some c => chunks ++ [c] | None => chunks end)
  end.

(** A file of the data directory: its name, and what [json.load] of it
    gives (a value, or the exception of an unreadable or malformed file). *)
Record file : Type := File {
  file_name : string;
  file_load : result pyval
}.

(** The position of the last [.] of a name, if any. *)
Fixpoint rfind_dot (s : string) : option nat :=
  match s with
  | EmptyString => None
  | String c s' =>
      match rfind_dot s' with
      | Some i => Some (S i)
      | None => if Ascii.eqb c "." then Some O else None
      end
  end.

(** [PurePath.stem]: the name without its last suffix; a leading or a
    trailing dot starts no suffix. *)
Definition stem (name : string) : string :=
  match rfind_dot name with
  | Some i => if (0 <? i)%nat && (i <? String.length name - 1)%nat
              then Str.take i name else name
  | None => name
  end.

(** [chunk_community(filepath)]: [slug.upper()] is evaluated before the
    lookup of [name], so the slug is a [str] wherever a chunker runs. *)
Definition chunk_community (filepath : file) : result (list chunk) :=
  data ← file_load filepath;
  slug ← get_or data "slug" (PStr (stem (file_name filepath)));
  match slug with
  | PStr slug =>
      name ← get_or data "name" (PStr (Str.upper slug));
      run_chunkers chunkers data slug name []
  | _ => Raise AttributeError
  end.

(** The order of [sorted] on the paths of one directory. *)
Definition name_le (f g : file) : Prop :=
  Is_true (String.leb (file_name f) (file_name g)).

#[global] Instance name_le_dec f g : Decision (name_le f g) := _.

(** [data_dir.glob("*.json")] over the files of the directory. *)
Definition glob_json (dir : list file) : list file :=
  List.filter (fun f => Str.endswith ".json" (file_name f)) dir.

(** The loop of [chunk_all] with its accumulator [all_chunks]. *)
Fixpoint chunk_files (files : list file) (all_chunks : list chunk)
  : result (list chunk) :=
  match files with
  | [] => Ok all_chunks
  | filepath :: rest =>
      if Str.startswith "_" (stem (file_name filepath))
      then chunk_files rest all_chunks
      else chunks ← chunk_community filepath;
           chunk_files rest (all_chunks ++ chunks)
  end.

(** [chunk_all(data_dir)] for the files [dir] of the directory, in the
    order the file system lists them. *)
Definition chunk_all (dir : list file) : result (list chunk) :=
  chunk_files (merge_sort name_le (glob_json dir)) [].

End Chunker.

(** ** indexer.py *)

Module Indexer.

Import Chunker.

(** [json.dumps(s)] of a string: quotes and backslashes escaped, and
    every character outside [' '..'~'] written as an escape, [\u00XX]
    where it has no short one. *)
Definition json_char (c : ascii) : string :=
  let n := nat_of_ascii c in
  let u := String "\" (String "u" (String "0" (String "0"
             (String (Val.hex_digit (n / 16)) (String (Val.hex_digit (n mod 16)) ""))))) in
  if Ascii.eqb c Str.quote then String "\" (String c "")
  else if Ascii.eqb c "\" then "\\"
  else if (n =? 10)%nat then "\n"
  else if (n =? 13)%nat then "\r"
  else if (n =? 9)%nat then "\t"
  else if (n =? 8)%nat then "\b"
  else if (n =? 12)%nat then "\f"
  else if (n <? 32)%nat || (126 <? n)%nat then u
  else String c "".

Definition json_string (s : string) : string :=
  String Str.quote (String.concat "" (map json_char (list_ascii_of_string s)))
    +:+ String Str.quote "".

Definition json_list (items : list string) : string :=
  "[" +:+ Str.join ", " items +:+ "]".

Definition json_object (fields : list (string * string)) : string :=
  "{" +:+ Str.join ", " (map (fun kv => json_string (fst kv) +:+ ": " +:+ snd kv) fields)
    +:+ "}".

Definition json_series (s : list (string * string)) : string :=
  json_list (map (fun kl => json_object [("key", json_string (fst kl));
                                         ("label", json_string (snd kl))]) s).

(** [json.dumps] of one descriptor, its keys in the order of the literal. *)
Definition json_viz (v : viz) : string :=
  json_object
    ([("type", json_string (viz_type v));
      ("component", json_string (component v));
      ("data_keys", json_list (map json_string (data_keys v)))]
     ++ match series v with Some s => [("series", json_series s)] | None => [] end
     ++ match x_axis v with Some x => [("x_axis", json_string x)] | None => [] end
     ++ [("description", json_string (description v))]).

(** What the vector store keeps under a chunk id: the document and its
    metadata. *)
Record entry : Type := Entry {
  document : string;
  meta_community : string;
  meta_section : string;
  meta_url : string;
  meta_viz : string
}.

#[global] Instance entry_eq_dec : EqDecision entry.
Proof. solve_decision. Defined.

(** The row [index_chunks] builds for a chunk. *)
Definition entry_of (c : chunk) : entry :=
  Entry (text c) (community c) (section c) (url c)
        (json_list (map json_viz (viz_list c))).

(** *** The collection

    The vector store is a service outside the repository.  Its contract:
    entries are keyed by id; [get(where={"community": c})] lists the ids
    whose metadata names [c]; [delete] removes the ids given; [upsert]
    refuses an empty batch with [ValueError] and a batch that repeats an
    id with [DuplicateIDError], and otherwise writes each row under its
    id, replacing what was there. *)

Definition coll_get_ids (c : string) (store : gmap string entry) : list string :=
  (map_to_list (filter (fun kv => meta_community (snd kv) = c) store)).*1.

Definition coll_delete (ids : list string) (store : gmap string entry)
  : gmap string entry :=
  foldr delete store ids.

(** The writes of a batch that [upsert] accepts. *)
Definition coll_write (rows : list (string * entry)) (store : gmap string entry)
  : gmap string entry :=
  foldl (fun s row => <[fst row := snd row]> s) store rows.

Definition coll_upsert (rows : list (string * entry)) (store : gmap string entry)
  : result (gmap string entry) :=
  match rows with
  | [] => Raise ValueError
  | _ =>
      if bool_decide (NoDup rows.*1) then Ok (coll_write rows store)
      else Raise DuplicateIDError
  end.

(** The body of [for community in communities]. *)
Definition remove_community (store : gmap string entry) (c : string)
  : gmap string entry :=
  let existing := coll_get_ids c store in
  match existing with
  | [] => store
  | _ => coll_delete existing store
  end.

(** [index_chunks(collection, chunks, replace)]: the collection after
    the call, and the count returned or the exception raised.  When
    [upsert] refuses the batch, the deletions of [replace] have been
    made. *)
Definition index_chunks (store : gmap string entry) (chunks : list chunk)
    (replace : bool) : gmap string entry * result nat :=
  let store :=
    if replace
    then foldl remove_community store (remove_dups (map community chunks))
    else store in
  let rows := map (fun c => (id c, entry_of c)) chunks in
  match coll_upsert rows store with
  | Ok store' => (store', Ok (length rows))
  | Raise e => (store, Raise e)
  end.

(** [data_dir / f"{slug}.json"], when it exists. *)
Definition find_file (dir : list file) (slug : string) : option file :=
  List.find (fun f => String.eqb (file_name f) (slug +:+ ".json")) dir.

(** The loop [for slug in args.communities] of [main], with its
    accumulator [chunks]; a slug without a file is reported and skipped. *)
Fixpoint chunk_listed (dir : list file) (slugs : list string) (chunks : list chunk)
  : result (list chunk) :=
  match slugs with
  | [] => Ok chunks
  | slug :: rest =>
      match find_file dir slug with
      | Some filepath =>
          community_chunks ← chunk_community filepath;
          chunk_listed dir rest (chunks ++ community_chunks)
      | None => chunk_listed dir rest chunks
      end
  end.

(** [main()] without [--stats]: the collection after the run.  With
    [--reindex] the collection is deleted and created anew; without a
    list of communities the whole directory is chunked; the chunks, if
    there is any, are indexed with [replace=True]; an exception ends
    the run. *)
Definition main (store : gmap string entry) (dir : list file)
    (communities : list string) (reindex : bool) : result (gmap string entry) :=
  let store := if reindex then ∅ else store in
  chunks ← match communities with
           | [] => chunk_all dir
           | _ => chunk_listed dir communities []
           end;
  match chunks with
  | [] => Ok store
  | _ =>
      let (store', count) := index_chunks store chunks true in
      _ ← count; Ok store'
  end.

End Indexer.

(** ** qa.py: the answer adapter *)

Module QA.

(** What [subprocess.run] does with the command: the process completes
    with an exit status and its two streams, or the call raises. *)
Inductive run_outcome : Type :=
  | Completed (returncode : Z) (stdout stderr : string)
  | Raised (e : exn).

(** [ask_claude(prompt)], for the environment's answer [run] to the
    command [claude -p prompt] under the 60 second limit. *)
Definition ask_claude (run : string -> run_outcome) (prompt : string)
  : result string :=
  match run prompt with
  | Completed returncode stdout stderr =>
      if returncode =? 0 then Ok (Str.strip stdout)
      else Ok ("Error: " +:+ Str.strip stderr)
  | Raised FileNotFoundError =>
      Ok "Error: 'claude' command not found. Install Claude Code CLI."
  | Raised TimeoutExpired =>
      Ok "Error: Claude timed out after 60 seconds."
  | Raised e => Raise e
  end.

(** A retrieved chunk, as [retrieve] builds it from a query result over
    the entries [index_chunks] wrote: strings, and for each descriptor
    of [viz] its [type] and [component]. *)
Record hit : Type := Hit {
  hit_text : string;
  hit_community : string;
  hit_section : string;
  hit_url : string;
  hit_viz : list (string * string);
  hit_distance : Num.pyfloat
}.

Definition nl : string := String (ascii_of_nat 10) "".

(** [", ".join(f"{v['type']} ({v['component']})" for v in chunk["viz"])] *)
Definition viz_desc (vs : list (string * string)) : string :=
  Str.join ", " (map (fun v => fst v +:+ " (" +:+ snd v +:+ ")") vs).

(** The body of [for i, chunk in enumerate(chunks, 1)]. *)
Definition context_entry (i : Z) (chunk : hit) (context : string) : string :=
  let context := context +:+ "[" +:+ Num.int_str i +:+ "] (" +:+ hit_community chunk
                   +:+ " - " +:+ hit_section chunk +:+ ") " +:+ hit_url chunk +:+ nl in
  let context := context +:+ hit_text chunk +:+ nl in
  let context :=
    match hit_viz chunk with
    | [] => context
    | vs => context +:+ "Visualizations available: " +:+ viz_desc vs +:+ nl
    end in
  context +:+ nl.

Fixpoint context_from (i : Z) (chunks : list hit) (context : string) : string :=
  match chunks with
  | [] => context
  | chunk :: rest => context_from (i + 1) rest (context_entry i chunk context)
  end.

Definition instruction : string :=
  "Answer the question using the retrieved data above. When relevant, mention which visualizations are available on Calgary Pulse for the user to explore.".

(** [build_prompt(question, chunks)], for the text [system] of the
    system prompt (empty when the file does not exist). *)
Definition build_prompt (system question : string) (chunks : list hit) : string :=
  let context := context_from 1 chunks ("RETRIEVED DATA:" +:+ nl +:+ nl) in
  system +:+ nl +:+ nl +:+ context +:+ nl +:+ nl +:+ "QUESTION: " +:+ question
    +:+ nl +:+ nl +:+ instruction.

(** [list(dict.fromkeys(keys))]: a key already present keeps its place. *)
Definition fromkeys (keys : list string) : list string :=
  foldl (fun d k => if bool_decide (k ∈ d) then d else d ++ [k]) [] keys.

(** What [ask] returns. *)
Record reply : Type := Reply {
  question : string;
  answer : string;
  sources : list string;
  chunks_used : nat
}.

(** [ask(question, collection)], for the chunks that [retrieve] gives. *)
Definition ask (run : string -> run_outcome) (system : string)
    (question : string) (chunks : list hit) : result reply :=
  let prompt := build_prompt system question chunks in
  answer ← ask_claude run prompt;
  let sources := fromkeys (map hit_url chunks) in
  Ok (Reply question answer sources (length chunks)).

End QA.

(** * Vocabulary of the specification *)

Module Spec.

Import Num Val Chunker Indexer QA.

(** The subtree [k] of a record is absent or empty: the key is missing,
    or its value is falsy ([None], an empty mapping or sequence, ...). *)
Definition absent_or_empty (k : string) (data : pyval) : Prop :=
  match data with
  | PDict d =>
      match lookup k d with
      | None => True
      | Some v => truthy v = false
      end
  | _ => False
  end.

(** The subtree [k] of a record is absent: the key is missing. *)
Definition absent (k : string) (data : pyval) : Prop :=
  match data with
  | PDict d => lookup k d = None
  | _ => False
  end.

(** The value the overview chunker tests for its safety-percentile
    clause: [data.get("hero", {}).get("safety_percentile")]. *)
Definition hero_percentile (data : pyval) : result pyval :=
  hero ← get_or data "hero" (PDict []);
  get hero "safety_percentile".

(** The safety-percentile clause of the overview text (source lines
    46-47): empty when the value is [None]. *)
Definition overview_safety_clause (p : pyval) : string :=
  if is_none p then ""
  else "Safety percentile: " +:+ str p +:+ "/100. ".

(** The overview text before the clause (source lines 40-45) ... *)
Definition overview_lead (data name : pyval) : result string :=
  hero ← get_or data "hero" (PDict []);
  sector ← get_or data "sector" (PStr "");
  district ← get_or data "creb_district" (PStr "");
  distance ← get data "distance_to_downtown_km";
  let text := str name +:+ " community overview. " in
  let text := text +:+ "Located in " +:+ str sector +:+ " sector, CREB district: "
                +:+ str district +:+ ". " in
  text ← (if truthy distance
          then d ← fmt_fixed false false 1 distance;
               Ok (text +:+ d +:+ " km from downtown. ")
          else Ok text);
  population ← get hero "population";
  if truthy population
  then p ← fmt_comma population; Ok (text +:+ "Population: " +:+ p +:+ ". ")
  else Ok text.

(** ... and after it (source lines 48-51). *)
Definition overview_tail (data : pyval) : result string :=
  hero ← get_or data "hero" (PDict []);
  desc ← get_or data "description" (PStr "");
  avg_value ← get hero "avg_value";
  text ← (if truthy avg_value
          then v ← format_currency avg_value;
               Ok ("Average assessed home value: " +:+ v +:+ ". ")
          else Ok "");
  if truthy desc then concat_str text desc else Ok text.

(** A chunker that, whenever it returns a chunk, returns one for the
    slug it was given, with the id suffix [suf] and the section [sec]. *)
Definition shaped (f : chunker) (suf sec : string) : Prop :=
  forall data slug name c,
    f data slug name = Ok (Some c) ->
    id c = slug +:+ "-" +:+ suf /\ community c = slug /\ section c = sec.

(** The id suffix and the section label of each chunker, in the order
    of [chunkers]. *)
Definition section_table : list (string * string) :=
  [ ("overview", "overview"); ("safety", "safety"); ("housing", "housing");
    ("311", "311-service-requests"); ("schools", "schools");
    ("transit", "transit"); ("demographics", "demographics");
    ("business", "business-development"); ("amenities", "amenities") ].

(** The id, community and section of a chunk, and what they are for a
    slug and a row of the table. *)
Definition chunk_key (c : chunk) : string * string * string :=
  (id c, community c, section c).

Definition table_key (slug : string) (row : string * string)
  : string * string * string :=
  (slug +:+ "-" +:+ fst row, slug, snd row).

(** The files [chunk_all] processes: those [*.json] whose stem does not
    start with an underscore, in the order of their names. *)
Definition eligible (f : file) : bool :=
  negb (Str.startswith "_" (stem (file_name f))).

Definition corpus_files (dir : list file) : list file :=
  List.filter eligible (merge_sort name_le (glob_json dir)).

(** The corpus chunker as the specification words it: the community
    chunker applied to each eligible file in order, the outputs
    concatenated; the first failure aborts the run. *)
Definition chunk_all_spec (dir : list file) : result (list chunk) :=
  chunks ← mapM chunk_community (corpus_files dir);
  Ok (concat chunks).

(** The slug [chunk_community] resolves for a file it can chunk. *)
Definition resolved_slug (f : file) : option string :=
  match file_load f with
  | Ok data =>
      match get_or data "slug" (PStr (stem (file_name f))) with
      | Ok (PStr slug) => Some slug
      | _ => None
      end
  | Raise _ => None
  end.

(** Eligibility as the specification words it: a [*.json] file whose
    name does not begin with an underscore. *)
Definition eligible_name (f : file) : bool :=
  Str.endswith ".json" (file_name f) && negb (Str.startswith "_" (file_name f)).

(** [t] is [s] trimmed of surrounding whitespace: [s] is [t] between
    two runs of whitespace, and [t] neither starts nor ends with a
    whitespace character. *)
Definition all_space (s : string) : bool :=
  forallb Str.is_space (list_ascii_of_string s).

Definition starts_space (s : string) : bool :=
  match s with
  | String c _ => Str.is_space c
  | EmptyString => false
  end.

Definition ends_space (s : string) : bool := starts_space (Str.rev s).

Definition trimmed_of (s t : string) : Prop :=
  (exists l r, s = l +:+ t +:+ r /\ all_space l = true /\ all_space r = true) /\
  starts_space t = false /\ ends_space t = false.

(** [n] is an integer nearest to the rational [x]. *)
Definition nearest (n : N) (x : Q) : Prop :=
  (Qabs (inject_Z (Z.of_N n) - x) <= 1 # 2)%Q.

(** ... and the even one when [x] lies half way between two integers. *)
Definition nearest_even (n : N) (x : Q) : Prop :=
  nearest n x /\
  ((Qabs (inject_Z (Z.of_N n) - x) == 1 # 2)%Q -> N.even n = true).

(** The invariant of a store filled by the chunker: the id of an entry
    is the slug of its community, a hyphen and an id suffix of the
    table. *)
Definition keyed (store : gmap string entry) : Prop :=
  forall k e, store !! k = Some e ->
    exists row, row ∈ section_table /\ k = meta_community e +:+ "-" +:+ fst row.

(** The block of the prompt context for the chunk numbered [i]. *)
Definition context_block (i : Z) (chunk : hit) : string :=
  context_entry i chunk "".

Fixpoint context_blocks (i : Z) (chunks : list hit) : string :=
  match chunks with
  | [] => ""
  | chunk :: rest => context_block i chunk +:+ context_blocks (i + 1) rest
  end.

(** The last character of [s] is one of [chars]. *)
Definition ends_in (chars s : string) : bool :=
  match Str.rev s with
  | String c _ => Str.mem_char chars c
  | EmptyString => false
  end.

(** The text of the benchmark walk for one property type: its label
    and price with the separator, or nothing when the price is missing. *)
Definition benchmark_part (benchmarks : pyval) (ptype : string) : result string :=
  price ← get benchmarks ptype;
  if truthy price
  then p ← format_currency price; Ok (type_label ptype +:+ ": " +:+ p +:+ ", ")
  else Ok "".

(** [s] without the occurrences of the character [c]. *)
Fixpoint without (c : ascii) (s : string) : string :=
  match s with
  | EmptyString => ""
  | String x s' => if Ascii.eqb x c then without c s' else String x (without c s')
  end.

(** Every character of [s] is an ASCII character. *)
Fixpoint ascii_only (s : string) : bool :=
  match s with
  | EmptyString => true
  | String c s' => (nat_of_ascii c <? 128)%nat && ascii_only s'
  end.

End Spec.

(** * Sample data *)

Module Examples.

Import Chunker Indexer.

(** A store that holds two chunks of an earlier version of [beltline]
    and one chunk of [acadia]. *)
Definition acadia_overview : entry :=
  Entry "ACADIA community overview." "acadia" "overview"
        "https://calgarypulse.ca/communities/acadia" "[]".

Definition old_store : gmap string entry :=
  <["beltline-overview" :=
      Entry "BELTLINE community overview." "beltline" "overview"
            "https://calgarypulse.ca/communities/beltline" "[]"]>
  (<["beltline-transit" :=
      Entry "BELTLINE transit access." "beltline" "transit"
            "https://calgarypulse.ca/communities/beltline#transit" "[]"]>
  (<["acadia-overview" := acadia_overview]> ∅)).

(** The new version of [beltline]: its overview alone. *)
Definition new_overview : chunk :=
  Chunk "beltline-overview" "beltline" "overview"
        "https://calgarypulse.ca/communities/beltline"
        "BELTLINE community overview. Located in CENTRE sector, CREB district: . "
        hero_viz.



(** The doubles that the literals [5.2] and [3.1] denote. *)
Definition double_5_2 : Num.pyfloat := Num.FFinite false 5854679515581645 (-50).

Definition double_3_1 (neg : bool) : Num.pyfloat :=
  Num.FFinite neg 6980579422424269 (-51).

End Examples.
(** * Properties *)

Import Num Val Chunker Indexer QA Spec Examples.

(** ** The result monad *)

Lemma bind_ok {A B} (a : A) (k : A -> result B) : (x ← Ok a; k x) = k a.
Proof. reflexivity. Qed.

Lemma bind_raise {A B} (e : exn) (k : A -> result B) : (x ← Raise e; k x) = Raise e.
Proof. reflexivity. Qed.

Lemma get_or_dict (d : list (string * pyval)) (k : string) (dflt : pyval) :
  get_or (PDict d) k dflt = Ok (default dflt (lookup k d)).
Proof. reflexivity. Qed.

(** ** Section chunkers and absent subtrees *)

Lemma absent_falsy (k : string) (d : list (string * pyval)) (dflt : pyval) :
  absent_or_empty k (PDict d) -> truthy dflt = false ->
  truthy (default dflt (lookup k d)) = false.
Proof.
  unfold absent_or_empty. destruct (lookup k d); simpl; auto.
Qed.

Section Absent.

Variables (d : list (string * pyval)) (slug : string) (name : pyval).

Local Ltac skip_guard H :=
  rewrite get_or_dict, bind_ok, (absent_falsy _ _ _ H) by reflexivity.

Lemma chunk_safety_absent :
  absent_or_empty "safety" (PDict d) -> chunk_safety (PDict d) slug name = Ok None.
Proof. intros H. unfold chunk_safety. skip_guard H. reflexivity. Qed.

Lemma chunk_housing_absent :
  absent_or_empty "housing" (PDict d) -> chunk_housing (PDict d) slug name = Ok None.
Proof. intros H. unfold chunk_housing. skip_guard H. reflexivity. Qed.

Lemma chunk_311_absent :
  absent_or_empty "service_requests_311" (PDict d) ->
  chunk_311 (PDict d) slug name = Ok None.
Proof. intros H. unfold chunk_311. skip_guard H. reflexivity. Qed.

Lemma chunk_schools_absent :
  absent_or_empty "schools" (PDict d) -> chunk_schools (PDict d) slug name = Ok None.
Proof. intros H. unfold chunk_schools. skip_guard H. reflexivity. Qed.

Lemma chunk_transit_absent :
  absent_or_empty "transit" (PDict d) -> chunk_transit (PDict d) slug name = Ok None.
Proof. intros H. unfold chunk_transit. skip_guard H. reflexivity. Qed.

Lemma chunk_demographics_absent :
  absent_or_empty "demographics" (PDict d) ->
  chunk_demographics (PDict d) slug name = Ok None.
Proof. intros H. unfold chunk_demographics. skip_guard H. reflexivity. Qed.

Lemma chunk_business_absent :
  absent_or_empty "business_development" (PDict d) ->
  absent_or_empty "business_character" (PDict d) ->
  chunk_business (PDict d) slug name = Ok None.
Proof.
  intros H1 H2. unfold chunk_business.
  rewrite !get_or_dict, !bind_ok.
  rewrite (absent_falsy _ _ _ H1), (absent_falsy _ _ _ H2) by reflexivity.
  reflexivity.
Qed.

Lemma chunk_amenities_absent :
  absent_or_empty "amenities" (PDict d) ->
  absent_or_empty "parks" (PDict d) ->
  absent_or_empty "landmarks" (PDict d) ->
  chunk_amenities (PDict d) slug name = Ok None.
Proof.
  intros H1 H2 H3. unfold chunk_amenities, get.
  rewrite !get_or_dict, !bind_ok.
  rewrite (absent_falsy _ _ _ H1), (absent_falsy _ _ _ H2),
    (absent_falsy _ _ _ H3) by reflexivity.
  reflexivity.
Qed.

End Absent.

Lemma bind_not_none {A B} (r : result A) (k : A -> result (option B)) :
  (forall a, k a <> Ok None) -> (x ← r; k x) <> Ok None.
Proof. intros H. destruct r; [apply H | discriminate]. Qed.

(** The overview chunker has no such guard: whenever it returns, it
    returns a chunk. *)
Lemma chunk_hero_never_absent (data : pyval) (slug : string) (name : pyval) :
  chunk_hero data slug name <> Ok None.
Proof.
  unfold chunk_hero.
  repeat (apply bind_not_none; intros ?; cbv beta zeta).
  discriminate.
Qed.

(** C1 (amended).  Each of the eight section chunkers behind a guard
    returns the absent marker when the subtrees it reads are absent or
    empty: safety, housing, 311, schools, transit and demographics for
    their own subtree, business when both business subtrees are, and
    amenities when amenities, parks and landmarks all are.  The overview
    chunker has no guard and never returns the absent marker. *)
Theorem C1_guarded_chunkers_absent
    (d : list (string * pyval)) (slug : string) (name : pyval) :
  (absent_or_empty "safety" (PDict d) ->
     chunk_safety (PDict d) slug name = Ok None) /\
  (absent_or_empty "housing" (PDict d) ->
     chunk_housing (PDict d) slug name = Ok None) /\
  (absent_or_empty "service_requests_311" (PDict d) ->
     chunk_311 (PDict d) slug name = Ok None) /\
  (absent_or_empty "schools" (PDict d) ->
     chunk_schools (PDict d) slug name = Ok None) /\
  (absent_or_empty "transit" (PDict d) ->
     chunk_transit (PDict d) slug name = Ok None) /\
  (absent_or_empty "demographics" (PDict d) ->
     chunk_demographics (PDict d) slug name = Ok None) /\
  (absent_or_empty "business_development" (PDict d) ->
   absent_or_empty "business_character" (PDict d) ->
     chunk_business (PDict d) slug name = Ok None) /\
  (absent_or_empty "amenities" (PDict d) -> absent_or_empty "parks" (PDict d) ->
   absent_or_empty "landmarks" (PDict d) ->
     chunk_amenities (PDict d) slug name = Ok None) /\
  chunk_hero (PDict d) slug name <> Ok None.
Proof.
  repeat split.
  - apply chunk_safety_absent.
  - apply chunk_housing_absent.
  - apply chunk_311_absent.
  - apply chunk_schools_absent.
  - apply chunk_transit_absent.
  - apply chunk_demographics_absent.
  - apply chunk_business_absent.
  - apply chunk_amenities_absent.
  - apply chunk_hero_never_absent.
Qed.

(** The empty record: every subtree is absent, the guarded chunkers
    return no chunk and the overview chunker returns one. *)
Lemma C1_witness :
  absent_or_empty "safety" (PDict []) /\
  chunk_safety (PDict []) "beltline" (PStr "BELTLINE") = Ok None /\
  chunk_amenities (PDict []) "beltline" (PStr "BELTLINE") = Ok None /\
  chunk_hero (PDict []) "beltline" (PStr "BELTLINE") <> Ok None.
Proof.
  destruct (C1_guarded_chunkers_absent [] "beltline" (PStr "BELTLINE"))
    as (Hs & _ & _ & _ & _ & _ & _ & Ha & Hh).
  split; [exact I|].
  split; [apply Hs; exact I|].
  split; [apply Ha; exact I|exact Hh].
Defined.

(** C1 as stated fails for the overview chunker: on a record whose
    [hero] subtree (and every other) is absent it returns a chunk. *)
Lemma C1_counterexample :
  absent_or_empty "hero" (PDict []) /\
  chunk_hero (PDict []) "beltline" (PStr "BELTLINE") =
    Ok (Some (Chunk "beltline-overview" "beltline" "overview"
                "https://calgarypulse.ca/communities/beltline"
                "BELTLINE community overview. Located in  sector, CREB district: . "
                hero_viz)).
Proof. split; [exact I | vm_compute; reflexivity]. Qed.

(** ** Strings: append *)

Lemma append_assoc (a b c : string) : (a +:+ b) +:+ c = a +:+ (b +:+ c).
Proof.
  induction a as [|x a IH]; [reflexivity|].
  change (String x ((a +:+ b) +:+ c) = String x (a +:+ (b +:+ c))).
  now rewrite IH.
Qed.

Lemma append_nil_r (a : string) : a +:+ "" = a.
Proof.
  induction a as [|x a IH]; [reflexivity|].
  change (String x (a +:+ "") = String x a).
  now rewrite IH.
Qed.

Lemma bind_assoc {A B C} (r : result A) (f : A -> result B) (g : B -> result C) :
  (y ← (x ← r; f x); g y) = (x ← r; y ← f x; g y).
Proof. destruct r; reflexivity. Qed.

Lemma bind_ext {A B} (r : result A) (k k' : A -> result B) :
  (forall a, k a = k' a) -> (x ← r; k x) = (x ← r; k' x).
Proof. intros H. destruct r; [apply H | reflexivity]. Qed.

(** ** The overview text and the safety subtree *)

Lemma chunk_hero_text (data : pyval) (slug : string) (name : pyval) :
  chunk_hero data slug name =
    (lead ← overview_lead data name;
     p ← hero_percentile data;
     tail ← overview_tail data;
     Ok (Some (Chunk (slug +:+ "-overview") slug "overview"
                 (PULSE_BASE_URL +:+ "/" +:+ slug)
                 (lead +:+ overview_safety_clause p +:+ tail) hero_viz))).
Proof.
  destruct data as [| | | | | |d]; [reflexivity..|].
  unfold chunk_hero, overview_lead, hero_percentile, overview_tail, get.
  rewrite !get_or_dict, !bind_ok. cbv zeta.
  rewrite !bind_assoc.
  apply bind_ext; intros text.
  rewrite !bind_assoc.
  apply bind_ext; intros population.
  apply bind_ext; intros text'.
  apply bind_ext; intros percentile.
  rewrite !bind_assoc.
  apply bind_ext; intros avg.
  unfold overview_safety_clause.
  set (desc := default (PStr "") (lookup "description" d)).
  destruct (is_none percentile), (truthy avg);
    try destruct (format_currency avg) as [v|e];
    destruct (truthy desc); try destruct desc;
    cbn [mbind result_bind bind negb concat_str];
    rewrite ?append_assoc, ?append_nil_r; reflexivity.
Qed.

Lemma overview_safety_clause_empty (p : pyval) :
  overview_safety_clause p = "" <-> p = PNone.
Proof.
  unfold overview_safety_clause.
  destruct p; split; intros H; try reflexivity; try discriminate H.
Qed.

(** The overview chunker reads five keys of the record and no other. *)
Lemma chunk_hero_reads (d d' : list (string * pyval)) (slug : string) (name : pyval) :
  (forall k, In k ["hero"; "description"; "sector"; "creb_district";
                   "distance_to_downtown_km"] -> lookup k d = lookup k d') ->
  chunk_hero (PDict d) slug name = chunk_hero (PDict d') slug name.
Proof.
  intros H. unfold chunk_hero, get.
  rewrite !get_or_dict.
  rewrite !(H "hero"), !(H "description"), !(H "sector"), !(H "creb_district"),
    !(H "distance_to_downtown_km") by (simpl; tauto).
  reflexivity.
Qed.

(** C2 (amended).  For a record whose [safety] subtree is absent (or
    empty) the safety chunker returns no chunk.  The overview text is
    the lead, the safety-percentile clause and the tail; the clause is
    empty exactly when [hero.safety_percentile] is missing or [None];
    and the overview chunk depends on the keys [hero], [description],
    [sector], [creb_district] and [distance_to_downtown_km] only, so not
    on the [safety] subtree. *)
Theorem C2_overview_safety_clause
    (d : list (string * pyval)) (slug : string) (name : pyval) :
  (absent_or_empty "safety" (PDict d) ->
     chunk_safety (PDict d) slug name = Ok None) /\
  (forall c, chunk_hero (PDict d) slug name = Ok (Some c) ->
     exists lead p tail,
       overview_lead (PDict d) name = Ok lead /\
       hero_percentile (PDict d) = Ok p /\
       overview_tail (PDict d) = Ok tail /\
       text c = lead +:+ overview_safety_clause p +:+ tail /\
       (overview_safety_clause p = "" <-> p = PNone)) /\
  (forall d',
     (forall k, In k ["hero"; "description"; "sector"; "creb_district";
                      "distance_to_downtown_km"] -> lookup k d = lookup k d') ->
     chunk_hero (PDict d) slug name = chunk_hero (PDict d') slug name).
Proof.
  split; [apply chunk_safety_absent|].
  split; [|intros d'; apply chunk_hero_reads].
  intros c Hc. rewrite chunk_hero_text in Hc.
  destruct (overview_lead (PDict d) name) as [lead|]; [|discriminate Hc].
  destruct (hero_percentile (PDict d)) as [p|]; [|discriminate Hc].
  destruct (overview_tail (PDict d)) as [tail|]; [|discriminate Hc].
  exists lead, p, tail.
  injection Hc as <-.
  repeat split; try reflexivity; apply overview_safety_clause_empty.
Qed.

(** A record with no [safety] subtree and no [hero.safety_percentile]:
    no safety chunk, and an overview text without the clause. *)
Lemma C2_witness :
  absent_or_empty "safety" (PDict [("sector", PStr "NE")]) /\
  chunk_safety (PDict [("sector", PStr "NE")]) "beltline" (PStr "Beltline") = Ok None /\
  exists c,
    chunk_hero (PDict [("sector", PStr "NE")]) "beltline" (PStr "Beltline") = Ok (Some c) /\
    text c = "Beltline community overview. Located in NE sector, CREB district: . ".
Proof.
  destruct (C2_overview_safety_clause [("sector", PStr "NE")] "beltline"
              (PStr "Beltline")) as (Hs & Ht & _).
  split; [exact I|].
  split; [apply Hs; exact I|].
  eexists. split; [vm_compute; reflexivity | reflexivity].
Defined.

(** C2 as stated fails: with the [safety] subtree absent, the overview
    text still carries the clause when the [hero] subtree has a
    [safety_percentile]. *)
Lemma C2_counterexample :
  absent "safety" (PDict [("hero", PDict [("safety_percentile", PInt 50)])]) /\
  chunk_hero (PDict [("hero", PDict [("safety_percentile", PInt 50)])])
      "beltline" (PStr "Beltline") =
    Ok (Some (Chunk "beltline-overview" "beltline" "overview"
                "https://calgarypulse.ca/communities/beltline"
                "Beltline community overview. Located in  sector, CREB district: . Safety percentile: 50/100. "
                hero_viz)).
Proof. split; [reflexivity | vm_compute; reflexivity]. Qed.

(** ** The shape of the chunks *)

Lemma bind_ok_inv {A B} (r : result A) (k : A -> result B) (b : B) :
  (x ← r; k x) = Ok b -> exists a, r = Ok a /\ k a = Ok b.
Proof. destruct r as [a|e]; [eauto | discriminate]. Qed.

Local Ltac invert_chunker H :=
  repeat first
    [ apply bind_ok_inv in H as (? & _ & H); cbv beta zeta in H
    | match type of H with
      | (if ?b then Ok None else _) = _ => destruct b; [discriminate H|]
      end ];
  injection H as <-; repeat split; reflexivity.

Lemma chunk_hero_shaped : shaped chunk_hero "overview" "overview".
Proof. intros data slug name c H. unfold chunk_hero in H. invert_chunker H. Qed.

Lemma chunk_safety_shaped : shaped chunk_safety "safety" "safety".
Proof. intros data slug name c H. unfold chunk_safety in H. invert_chunker H. Qed.

Lemma chunk_housing_shaped : shaped chunk_housing "housing" "housing".
Proof. intros data slug name c H. unfold chunk_housing in H. invert_chunker H. Qed.

Lemma chunk_311_shaped : shaped chunk_311 "311" "311-service-requests".
Proof. intros data slug name c H. unfold chunk_311 in H. invert_chunker H. Qed.

Lemma chunk_schools_shaped : shaped chunk_schools "schools" "schools".
Proof. intros data slug name c H. unfold chunk_schools in H. invert_chunker H. Qed.

Lemma chunk_transit_shaped : shaped chunk_transit "transit" "transit".
Proof. intros data slug name c H. unfold chunk_transit in H. invert_chunker H. Qed.

Lemma chunk_demographics_shaped :
  shaped chunk_demographics "demographics" "demographics".
Proof. intros data slug name c H. unfold chunk_demographics in H. invert_chunker H. Qed.

Lemma chunk_business_shaped : shaped chunk_business "business" "business-development".
Proof. intros data slug name c H. unfold chunk_business in H. invert_chunker H. Qed.

Lemma chunk_amenities_shaped : shaped chunk_amenities "amenities" "amenities".
Proof. intros data slug name c H. unfold chunk_amenities in H. invert_chunker H. Qed.

Lemma chunkers_shaped :
  Forall2 (fun f row => shaped f (fst row) (snd row)) chunkers section_table.
Proof.
  unfold chunkers, section_table.
  repeat (apply List.Forall2_cons; [cbn [fst snd]|]); [..|apply List.Forall2_nil].
  - apply chunk_hero_shaped.
  - apply chunk_safety_shaped.
  - apply chunk_housing_shaped.
  - apply chunk_311_shaped.
  - apply chunk_schools_shaped.
  - apply chunk_transit_shaped.
  - apply chunk_demographics_shaped.
  - apply chunk_business_shaped.
  - apply chunk_amenities_shaped.
Qed.

(** ** Chunk ids *)

Lemma append_cons (c : ascii) (s t : string) :
  String c s +:+ t = String c (s +:+ t).
Proof. reflexivity. Qed.

Lemma mem_char_cons (c d : ascii) (s : string) :
  Str.mem_char (String d s) c = Ascii.eqb c d || Str.mem_char s c.
Proof. reflexivity. Qed.

Lemma mem_char_app (s t : string) (c : ascii) :
  Str.mem_char (s +:+ String c t) c = true.
Proof.
  induction s as [|d s IH].
  - change ("" +:+ String c t) with (String c t).
    rewrite mem_char_cons, Ascii.eqb_refl. reflexivity.
  - rewrite append_cons, mem_char_cons, IH. apply orb_true_r.
Qed.

(** A slug and a suffix without hyphen are read back from the id. *)
Lemma id_inj (s1 s2 x1 x2 : string) :
  Str.mem_char x1 "-" = false -> Str.mem_char x2 "-" = false ->
  s1 +:+ "-" +:+ x1 = s2 +:+ "-" +:+ x2 -> s1 = s2 /\ x1 = x2.
Proof.
  intros H1 H2.
  change ("-" +:+ x1) with (String "-" x1).
  change ("-" +:+ x2) with (String "-" x2).
  revert s2. induction s1 as [|c s1 IH]; intros [|d s2] E.
  - change ("" +:+ String "-" x1) with (String "-" x1) in E.
    change ("" +:+ String "-" x2) with (String "-" x2) in E.
    injection E as ->. split; reflexivity.
  - change ("" +:+ String "-" x1) with (String "-" x1) in E.
    rewrite append_cons in E. injection E as _ ->.
    rewrite mem_char_app in H1. discriminate.
  - change ("" +:+ String "-" x2) with (String "-" x2) in E.
    rewrite append_cons in E. injection E as _ <-.
    rewrite mem_char_app in H2. discriminate.
  - rewrite !append_cons in E. injection E as -> E.
    destruct (IH _ E) as [-> ->]. split; reflexivity.
Qed.

Lemma section_table_hyphen_free :
  Forall (fun row => Str.mem_char (fst row) "-" = false) section_table.
Proof. unfold section_table. repeat (apply List.Forall_cons; [reflexivity|]). apply List.Forall_nil. Qed.

Lemma section_table_NoDup : NoDup (fst <$> section_table).
Proof.
  assert (D : bool_decide (NoDup (fst <$> section_table)) = true)
    by (vm_compute; reflexivity).
  exact (proj1 (bool_decide_eq_true _) D).
Qed.

Lemma section_table_functional (r1 r2 : string * string) :
  r1 ∈ section_table -> r2 ∈ section_table -> r1.1 = r2.1 -> r1.2 = r2.2.
Proof.
  intros I1 I2 E1.
  assert (D : bool_decide (Forall (fun r1 : string * string =>
                Forall (fun r2 : string * string => r1.1 = r2.1 -> r1.2 = r2.2)
                  section_table) section_table) = true)
    by (vm_compute; reflexivity).
  apply bool_decide_eq_true in D.
  rewrite Forall_forall in D. specialize (D _ I1).
  rewrite Forall_forall in D. exact (D _ I2 E1).
Qed.

Lemma table_id_inj (s1 s2 : string) (r1 r2 : string * string) :
  r1 ∈ section_table -> r2 ∈ section_table ->
  (table_key s1 r1).1.1 = (table_key s2 r2).1.1 -> s1 = s2 /\ r1.1 = r2.1.
Proof.
  intros I1 I2. unfold table_key. cbn [fst snd].
  pose proof section_table_hyphen_free as F.
  rewrite List.Forall_forall in F.
  apply id_inj; apply F; apply list_elem_of_In; assumption.
Qed.

(** The chunks one record gives: at most one for each row of the table,
    in the order of the table. *)
Lemma run_chunkers_keys (fs : list chunker) (rows : list (string * string))
    (data : pyval) (slug : string) (name : pyval) :
  Forall2 (fun f row => shaped f (fst row) (snd row)) fs rows ->
  forall acc out,
    run_chunkers fs data slug name acc = Ok out ->
    exists added, out = acc ++ added /\
      (chunk_key <$> added) `sublist_of` (table_key slug <$> rows).
Proof.
  induction 1 as [|f row fs rows Hf _ IH]; intros acc out E.
  - injection E as <-. exists []. rewrite app_nil_r. split; [reflexivity|constructor].
  - cbn [run_chunkers] in E.
    apply bind_ok_inv in E as ([c|] & Ec & E).
    + apply IH in E as (added & -> & Hs).
      exists (c :: added). split; [rewrite <- app_assoc; reflexivity|].
      rewrite !fmap_cons.
      destruct (Hf _ _ _ _ Ec) as (Hi & Hc & Hsec).
      replace (chunk_key c) with (table_key slug row)
        by (unfold chunk_key, table_key; rewrite Hi, Hc, Hsec; reflexivity).
      apply sublist_skip, Hs.
    + apply IH in E as (added & -> & Hs).
      exists added. split; [reflexivity|].
      rewrite fmap_cons. apply sublist_cons, Hs.
Qed.

Lemma chunk_community_keys (f : file) (cs : list chunk) :
  chunk_community f = Ok cs ->
  exists slug, resolved_slug f = Some slug /\
    (chunk_key <$> cs) `sublist_of` (table_key slug <$> section_table).
Proof.
  unfold chunk_community, resolved_slug. intros E.
  apply bind_ok_inv in E as (data & -> & E).
  apply bind_ok_inv in E as (slug & -> & E).
  destruct slug as [| | | |slug| |]; try discriminate E.
  apply bind_ok_inv in E as (name & _ & E).
  exists slug. split; [reflexivity|].
  apply (run_chunkers_keys _ _ _ _ _ chunkers_shaped) in E as (added & -> & Hs).
  exact Hs.
Qed.

(** ** The corpus *)

Lemma chunk_files_spec (files : list file) (acc : list chunk) :
  chunk_files files acc =
  (rest ← mapM chunk_community (List.filter eligible files); Ok (acc ++ concat rest)).
Proof.
  revert acc. induction files as [|f files IH]; intros acc.
  - cbn [chunk_files List.filter mapM]. rewrite bind_ok.
    cbn [concat]. rewrite app_nil_r. reflexivity.
  - cbn [chunk_files List.filter]. unfold eligible at 1.
    destruct (Str.startswith "_" (stem (file_name f))); cbn [negb].
    + apply IH.
    + cbn [mapM]. rewrite !bind_assoc. apply bind_ext; intros cs.
      rewrite IH, !bind_assoc. apply bind_ext; intros rest.
      rewrite bind_ok. cbn [concat]. rewrite app_assoc. reflexivity.
Qed.

Lemma chunk_all_refines (dir : list file) : chunk_all dir = chunk_all_spec dir.
Proof. unfold chunk_all, chunk_all_spec, corpus_files. apply chunk_files_spec. Qed.

Lemma mapM_ok_inv {A B} (f : A -> result B) (l : list A) (ys : list B) :
  mapM f l = Ok ys -> Forall2 (fun x y => f x = Ok y) l ys.
Proof.
  revert ys. induction l as [|x l IH]; intros ys E.
  - injection E as <-. constructor.
  - cbn [mapM] in E.
    apply bind_ok_inv in E as (y & Ey & E).
    apply bind_ok_inv in E as (ys' & Eys & E).
    injection E as <-. constructor; auto.
Qed.

Lemma elem_of_concat {A} (x : A) (ls : list (list A)) :
  x ∈ concat ls -> exists l, l ∈ ls /\ x ∈ l.
Proof.
  induction ls as [|l ls IH]; cbn [concat]; intros H.
  - inversion H.
  - apply elem_of_app in H as [H|H].
    + exists l. split; [left|exact H].
    + destruct (IH H) as (l' & ? & ?). exists l'. split; [right|]; assumption.
Qed.

Lemma corpus_keys (files : list file) (css : list (list chunk)) :
  Forall2 (fun f cs => chunk_community f = Ok cs) files css ->
  Forall (fun c => exists row, row ∈ section_table /\
                     chunk_key c = table_key (community c) row) (concat css).
Proof.
  induction 1 as [|f cs files css Hf _ IH]; [constructor|].
  cbn [concat]. apply Forall_app. split; [|exact IH].
  apply chunk_community_keys in Hf as (slug & _ & Hs).
  apply Forall_forall. intros c Hc.
  assert (Hk : chunk_key c ∈ table_key slug <$> section_table).
  { eapply elem_of_sublist; [|exact Hs]. apply list_elem_of_fmap_2, Hc. }
  apply list_elem_of_fmap in Hk as (row & Hk & Hrow).
  exists row. split; [exact Hrow|].
  rewrite Hk. unfold table_key. f_equal.
  unfold chunk_key, table_key in Hk. injection Hk as _ -> _. reflexivity.
Qed.

Lemma corpus_ids_NoDup (files : list file) (css : list (list chunk)) :
  Forall2 (fun f cs => chunk_community f = Ok cs) files css ->
  NoDup (omap resolved_slug files) ->
  NoDup (id <$> concat css).
Proof.
  induction 1 as [|f cs files css Hf Hrest IH]; intros ND; [constructor|].
  cbn [concat]. rewrite fmap_app.
  pose proof (corpus_keys _ _ Hrest) as Hkeys.
  apply chunk_community_keys in Hf as (slug & Hslug & Hs).
  cbn [omap list_omap] in ND. rewrite Hslug in ND.
  apply NoDup_cons in ND as [Hnew ND].
  apply NoDup_app. split; [|split; [|exact (IH ND)]].
  - apply (fmap_sublist (fun k => k.1.1)) in Hs.
    rewrite <- !list_fmap_compose in Hs.
    eapply sublist_NoDup; [|exact Hs].
    apply NoDup_fmap_2_strong; [|apply (NoDup_fmap_1 fst), section_table_NoDup].
    intros r1 r2 I1 I2 E. cbn [compose] in E.
    destruct (table_id_inj _ _ _ _ I1 I2 E) as [_ E1].
    destruct r1 as [a1 b1], r2 as [a2 b2]. cbn [fst] in E1. subst a2.
    f_equal. exact (section_table_functional _ _ I1 I2 eq_refl).
  - intros i Hi Hi'. apply Hnew.
    apply list_elem_of_fmap in Hi as (c & -> & Hc).
    apply list_elem_of_fmap in Hi' as (c' & Ei & Hc').
    assert (Hk : chunk_key c ∈ table_key slug <$> section_table).
    { eapply elem_of_sublist; [|exact Hs]. apply list_elem_of_fmap_2, Hc. }
    apply list_elem_of_fmap in Hk as (row & Hk & Hrow).
    rewrite Forall_forall in Hkeys.
    destruct (Hkeys _ Hc') as (row' & Hrow' & Hk').
    assert (E : (table_key slug row).1.1 = (table_key (community c') row').1.1).
    { rewrite <- Hk, <- Hk'. exact Ei. }
    destruct (table_id_inj _ _ _ _ Hrow Hrow' E) as [-> _].
    apply elem_of_concat in Hc' as (cs' & Hcs' & Hc').
    apply list_elem_of_lookup in Hcs' as (n & Hn).
    destruct (Forall2_lookup_r _ _ _ _ _ Hrest Hn) as (g & Hg & Hgc).
    apply list_elem_of_omap. exists g. split; [eapply list_elem_of_lookup_2, Hg|].
    apply chunk_community_keys in Hgc as (slug' & Hslug' & Hs').
    rewrite Hslug'. f_equal.
    assert (Hk2 : chunk_key c' ∈ table_key slug' <$> section_table).
    { eapply elem_of_sublist; [|exact Hs']. apply list_elem_of_fmap_2, Hc'. }
    apply list_elem_of_fmap in Hk2 as (row2 & Hk2 & _).
    unfold chunk_key, table_key in Hk2. injection Hk2 as _ -> _. reflexivity.
Qed.

Lemma section_labels_NoDup : NoDup (snd <$> section_table).
Proof.
  assert (D : bool_decide (NoDup (snd <$> section_table)) = true)
    by (vm_compute; reflexivity).
  exact (proj1 (bool_decide_eq_true _) D).
Qed.

(** The chunks of one record: no two for the same section, no two with
    the same id, and all for the slug of the record. *)
Lemma chunk_community_distinct (f : file) (part : list chunk) :
  chunk_community f = Ok part ->
  NoDup (section <$> part) /\ NoDup (id <$> part) /\
  Forall (fun c => resolved_slug f = Some (community c)) part.
Proof.
  intros E. apply chunk_community_keys in E as (slug & Hslug & Hs).
  split; [|split].
  - apply (fmap_sublist snd) in Hs. rewrite <- !list_fmap_compose in Hs.
    eapply sublist_NoDup; [|exact Hs]. exact section_labels_NoDup.
  - apply (fmap_sublist (fun k => k.1.1)) in Hs.
    rewrite <- !list_fmap_compose in Hs.
    eapply sublist_NoDup; [|exact Hs].
    apply NoDup_fmap_2_strong; [|apply (NoDup_fmap_1 fst), section_table_NoDup].
    intros r1 r2 I1 I2 E. cbn [compose] in E.
    destruct (table_id_inj _ _ _ _ I1 I2 E) as [_ E1].
    destruct r1 as [a1 b1], r2 as [a2 b2]. cbn [fst] in E1. subst a2.
    f_equal. exact (section_table_functional _ _ I1 I2 eq_refl).
  - apply Forall_forall. intros c Hc. rewrite Hslug. f_equal.
    assert (Hk : chunk_key c ∈ table_key slug <$> section_table).
    { eapply elem_of_sublist; [|exact Hs]. apply list_elem_of_fmap_2, Hc. }
    apply list_elem_of_fmap in Hk as (row & Hk & _).
    unfold chunk_key, table_key in Hk. injection Hk as _ -> _. reflexivity.
Qed.

Lemma corpus_parts (files : list file) (css : list (list chunk)) :
  Forall2 (fun f cs => chunk_community f = Ok cs) files css ->
  Forall2 (fun f part =>
             chunk_community f = Ok part /\
             NoDup (section <$> part) /\ NoDup (id <$> part) /\
             Forall (fun c => resolved_slug f = Some (community c)) part)
          files css.
Proof.
  induction 1 as [|f cs files css Hf _ IH]; constructor; [|exact IH].
  split; [exact Hf|]. exact (chunk_community_distinct _ _ Hf).
Qed.

(** C3 (amended).  Every chunk of a corpus run has the id
    [{slug}-{suffix}] for its community slug and one of the nine rows
    (suffix, section) of [section_table]: the suffix is the section
    label except for [311] (section [311-service-requests]) and
    [business] (section [business-development]).  The run is the
    concatenation of the chunks of the processed files; the chunks of
    one file carry the slug of that file, no two of them have the same
    section, and no two the same id.  When the slugs the processed files
    resolve to are pairwise distinct, the ids of all the chunks of the
    run are pairwise distinct. *)
Theorem C3_chunk_ids (dir : list file) (cs : list chunk) :
  chunk_all dir = Ok cs ->
  Forall (fun c => exists row, row ∈ section_table /\
                     chunk_key c = table_key (community c) row) cs /\
  (exists parts,
     cs = concat parts /\
     Forall2 (fun f part =>
                chunk_community f = Ok part /\
                NoDup (section <$> part) /\ NoDup (id <$> part) /\
                Forall (fun c => resolved_slug f = Some (community c)) part)
             (corpus_files dir) parts) /\
  (NoDup (omap resolved_slug (corpus_files dir)) -> NoDup (id <$> cs)).
Proof.
  rewrite chunk_all_refines. unfold chunk_all_spec. intros E.
  apply bind_ok_inv in E as (css & E & [= <-]).
  apply mapM_ok_inv in E.
  split; [exact (corpus_keys _ _ E)|]. split.
  - exists css. split; [reflexivity|exact (corpus_parts _ _ E)].
  - exact (corpus_ids_NoDup _ _ E).
Qed.

(** A directory of two records, one with 311 data and its slug from the
    file name, one with a declared slug. *)
Lemma C3_witness :
  exists cs,
    chunk_all
      [ File "beltline.json"
          (Ok (PDict [("service_requests_311", PDict [("total", PInt 12)])]));
        File "acadia.json" (Ok (PDict [("slug", PStr "acadia")])) ] = Ok cs /\
    id <$> cs = ["acadia-overview"; "beltline-overview"; "beltline-311"] /\
    NoDup (id <$> cs).
Proof.
  eexists. split; [vm_compute; reflexivity|].
  split; [vm_compute; reflexivity|].
  apply (proj2 (proj2 (C3_chunk_ids
    [ File "beltline.json"
        (Ok (PDict [("service_requests_311", PDict [("total", PInt 12)])]));
      File "acadia.json" (Ok (PDict [("slug", PStr "acadia")])) ]
    _ ltac:(vm_compute; reflexivity)))).
  vm_compute. apply (bool_decide_unpack _). vm_compute. exact I.
Defined.

(** C3 as stated fails twice: the id of the 311 chunk is not the slug,
    a hyphen and the section label; and two files that declare the same
    slug give two chunks with the same id. *)
Lemma C3_counterexample :
  chunk_311 (PDict [("service_requests_311", PDict [("total", PInt 12)])])
      "beltline" (PStr "BELTLINE") =
    Ok (Some (Chunk "beltline-311" "beltline" "311-service-requests"
                "https://calgarypulse.ca/communities/beltline#311"
                "BELTLINE 311 service requests. Total requests (24 months): 12. "
                viz_311)) /\
  "beltline-311" <> "beltline" +:+ "-" +:+ "311-service-requests" /\
  exists cs,
    chunk_all [ File "east.json" (Ok (PDict [("slug", PStr "x")]));
                File "west.json" (Ok (PDict [("slug", PStr "x")])) ] = Ok cs /\
    id <$> cs = ["x-overview"; "x-overview"].
Proof.
  split; [vm_compute; reflexivity|].
  split; [discriminate|].
  eexists. split; vm_compute; reflexivity.
Qed.

(** ** The order and the selection of the files *)

Lemma compare_trans_le (s1 s2 s3 : string) :
  String.compare s1 s2 <> Gt -> String.compare s2 s3 <> Gt ->
  String.compare s1 s3 <> Gt.
Proof.
  revert s2 s3. induction s1 as [|a s1 IH]; intros [|b s2] [|c s3];
    cbn [String.compare]; try congruence.
  unfold Ascii.compare.
  destruct (N.compare_spec (N_of_ascii a) (N_of_ascii b)) as [E1|L1|G1];
    destruct (N.compare_spec (N_of_ascii b) (N_of_ascii c)) as [E2|L2|G2];
    destruct (N.compare_spec (N_of_ascii a) (N_of_ascii c)) as [E3|L3|G3];
    try congruence; try lia; try (intros; discriminate).
  apply IH.
Qed.

Lemma leb_compare (s1 s2 : string) :
  Is_true (String.leb s1 s2) <-> String.compare s1 s2 <> Gt.
Proof.
  unfold String.leb. destruct (String.compare s1 s2); cbn; split; intros H;
    try exact I; try discriminate; try (destruct H); congruence.
Qed.

#[local] Instance name_le_trans : Transitive name_le.
Proof.
  intros f g h. unfold name_le. rewrite !leb_compare. apply compare_trans_le.
Qed.

#[local] Instance name_le_total : Total name_le.
Proof.
  intros f g. unfold name_le.
  destruct (String.leb_total (file_name f) (file_name g)) as [H|H];
    rewrite H; [left|right]; exact I.
Qed.

Lemma filter_StronglySorted {A} (R : relation A) (p : A -> bool) (l : list A) :
  StronglySorted R l -> StronglySorted R (List.filter p l).
Proof.
  induction 1 as [|x l Hl IH Hx]; cbn [List.filter]; [constructor|].
  destruct (p x); [|exact IH].
  constructor; [exact IH|].
  rewrite List.Forall_forall in *. intros y Hy.
  apply List.filter_In in Hy as [Hy _]. auto.
Qed.

Lemma filter_Permutation {A} (p : A -> bool) (l k : list A) :
  l ≡ₚ k -> List.filter p l ≡ₚ List.filter p k.
Proof.
  induction 1 as [|x l k _ IH|x y l|l k m _ IH1 _ IH2]; cbn [List.filter].
  - reflexivity.
  - destruct (p x); [constructor|]; exact IH.
  - destruct (p x), (p y); try reflexivity. constructor.
  - etransitivity; eassumption.
Qed.

Lemma filter_filter {A} (p q : A -> bool) (l : list A) :
  List.filter p (List.filter q l) = List.filter (fun x => q x && p x) l.
Proof.
  induction l as [|x l IH]; cbn [List.filter]; [reflexivity|].
  destruct (q x); cbn [List.filter andb]; rewrite IH; reflexivity.
Qed.

(** The stem of a name starts with an underscore exactly when the name
    does. *)
Lemma startswith_stem (n : string) :
  Str.startswith "_" (stem n) = Str.startswith "_" n.
Proof.
  unfold stem. destruct (rfind_dot n) as [i|]; [|reflexivity].
  destruct ((0 <? i)%nat && (i <? String.length n - 1)%nat) eqn:E; [|reflexivity].
  destruct i as [|i]; [discriminate E|].
  destruct n as [|c n]; [reflexivity|].
  cbn [Str.take]. unfold Str.startswith. cbn [String.prefix].
  destruct (ascii_dec "_" c); [|reflexivity].
  destruct (Str.take i n), n; reflexivity.
Qed.

Lemma eligible_spec (f : file) :
  Str.endswith ".json" (file_name f) && eligible f = eligible_name f.
Proof. unfold eligible, eligible_name. rewrite startswith_stem. reflexivity. Qed.

Lemma corpus_files_Permutation (dir : list file) :
  corpus_files dir ≡ₚ List.filter eligible_name dir.
Proof.
  unfold corpus_files.
  rewrite (filter_Permutation _ _ _ (merge_sort_Permutation name_le (glob_json dir))).
  unfold glob_json. rewrite filter_filter.
  erewrite List.filter_ext; [reflexivity|]. intros f. apply eligible_spec.
Qed.

Lemma bind_ret {A} (r : result A) : (x ← r; Ok x) = r.
Proof. destruct r; reflexivity. Qed.

(** C7.  The corpus chunker applies the community chunker to each
    eligible file ([*.json], name not starting with an underscore) and
    concatenates the outputs; the eligible files are taken once each, in
    lexicographic order of their names; a directory with only
    [_template.json] and [beltline.json] gives the chunks of
    [beltline.json] alone. *)
Theorem C7_chunk_all (dir : list file) :
  chunk_all dir = (chunks ← mapM chunk_community (corpus_files dir);
                   Ok (concat chunks)) /\
  corpus_files dir ≡ₚ List.filter eligible_name dir /\
  StronglySorted name_le (corpus_files dir) /\
  (forall t b : result pyval,
     chunk_all [File "_template.json" t; File "beltline.json" b] =
       chunk_community (File "beltline.json" b) /\
     chunk_all [File "beltline.json" b; File "_template.json" t] =
       chunk_community (File "beltline.json" b)).
Proof.
  split; [apply chunk_all_refines|].
  split; [apply corpus_files_Permutation|].
  split.
  - unfold corpus_files. apply filter_StronglySorted.
    apply StronglySorted_merge_sort; typeclasses eauto.
  - assert (G : forall f, mapM chunk_community [f] ≫= (fun chunks => Ok (concat chunks))
                          = chunk_community f).
    { intros f. cbn [mapM]. rewrite bind_assoc.
      rewrite <- (bind_ret (chunk_community f)) at 2.
      apply bind_ext; intros cs. rewrite !bind_ok. cbn [concat].
      rewrite app_nil_r. reflexivity. }
    intros t b. rewrite !chunk_all_refines. unfold chunk_all_spec.
    split; (etransitivity; [|apply G]); reflexivity.
Qed.

(** ** The defaults of the slug and of the name *)

Lemma default_absent (k : string) (d : list (string * pyval)) (dflt : pyval) :
  absent k (PDict d) -> get_or (PDict d) k dflt = Ok dflt.
Proof. cbn [absent]. intros H. rewrite get_or_dict, H. reflexivity. Qed.




(** ** The district benchmarks of the housing chunk *)

Lemma rev_onto_app (s t acc : string) :
  Str.rev_onto (s +:+ t) acc = Str.rev_onto t (Str.rev_onto s acc).
Proof.
  revert acc. induction s as [|c s IH]; intros acc; [reflexivity|].
  rewrite append_cons. cbn [Str.rev_onto]. apply IH.
Qed.

Lemma rev_onto_acc (s acc : string) :
  Str.rev_onto s acc = Str.rev_onto s "" +:+ acc.
Proof.
  revert acc. induction s as [|c s IH]; intros acc; [reflexivity|].
  cbn [Str.rev_onto]. rewrite IH, (IH (String c "")), append_assoc.
  reflexivity.
Qed.

Lemma prefix_app (p s : string) : String.prefix p (p +:+ s) = true.
Proof.
  induction p as [|c p IH]; [destruct s; reflexivity|].
  rewrite append_cons. cbn [String.prefix].
  destruct (ascii_dec c c); [exact IH|congruence].
Qed.

Lemma endswith_app (s p : string) : Str.endswith p (s +:+ p) = true.
Proof.
  unfold Str.endswith, Str.rev.
  rewrite rev_onto_app, (rev_onto_acc p (Str.rev_onto s "")). apply prefix_app.
Qed.

(** One step of the walk leaves the text as it is or appends a labelled
    price and the separator. *)
Lemma benchmark_clause_inv (b : pyval) (ptype text out : string) :
  benchmark_clause b ptype text = Ok out ->
  exists price, get b ptype = Ok price /\
    ((truthy price = false /\ out = text) \/
     (truthy price = true /\ exists p, format_currency price = Ok p /\
        out = text +:+ type_label ptype +:+ ": " +:+ p +:+ ", ")).
Proof.
  unfold benchmark_clause. intros E.
  apply bind_ok_inv in E as (price & Hp & E). exists price. split; [exact Hp|].
  destruct (truthy price); [right|left].
  - cbv zeta in E. apply bind_ok_inv in E as (p & Hf & [= <-]).
    split; [reflexivity|]. exists p. split; [exact Hf|reflexivity].
  - injection E as <-. split; reflexivity.
Qed.

Lemma benchmark_walk_untrimmed (b : list (string * pyval)) (types : list string) :
  forall text out,
    for_each types (benchmark_clause (PDict b)) text = Ok out ->
    Str.endswith ", " text = true \/
      (exists ptype price, ptype ∈ types /\ lookup ptype b = Some price /\
                           truthy price = true) ->
    Str.endswith ", " out = true.
Proof.
  induction types as [|t types IH]; intros text out E H.
  - injection E as <-. destruct H as [H|(? & ? & H & _)]; [exact H|inversion H].
  - cbn [for_each] in E. apply bind_ok_inv in E as (text' & Hc & E).
    apply (IH _ _ E).
    apply benchmark_clause_inv in Hc as (price & Hg & Hc).
    unfold get in Hg. rewrite get_or_dict in Hg. injection Hg as Hg.
    assert (Happ : truthy price = true -> Str.endswith ", " text' = true).
    { intros Ht. destruct Hc as [[Hf _]|(_ & p & _ & ->)]; [congruence|].
      rewrite <- !append_assoc. apply endswith_app. }
    destruct H as [H|(ptype & pr & Hin & Hl & Ht)].
    + left. destruct Hc as [[_ ->]|(Ht & _)]; [exact H|exact (Happ Ht)].
    + apply elem_of_cons in Hin as [->|Hin].
      * left. apply Happ. rewrite <- Hg, Hl. exact Ht.
      * right. exists ptype, pr. auto.
Qed.

Lemma get_or_some (d : list (string * pyval)) (k : string) (dflt v : pyval) :
  lookup k d = Some v -> get_or (PDict d) k dflt = Ok v.
Proof. intros H. rewrite get_or_dict, H. reflexivity. Qed.

(** C4 (the code against the claim).  When the district benchmarks carry
    a date and a price for one of the four property types, the text of
    the housing chunk ends with the separator of the walk: the comma and
    the space after the last price are not trimmed. *)
Theorem C4_housing_benchmarks_untrimmed
    (data housing b : list (string * pyval)) (slug : string) (name : pyval)
    (c : chunk) (date : pyval) (ptype : string) (price : pyval) :
  chunk_housing (PDict data) slug name = Ok (Some c) ->
  lookup "housing" data = Some (PDict housing) ->
  lookup "district_benchmarks" housing = Some (PDict b) ->
  lookup "date" b = Some date -> truthy date = true ->
  ptype ∈ benchmark_types ->
  lookup ptype b = Some price -> truthy price = true ->
  Str.endswith ", " (text c) = true.
Proof.
  intros E Hh Hb Hd Htd Hin Hp Htp.
  unfold chunk_housing in E.
  rewrite (get_or_some _ _ _ _ Hh), bind_ok in E.
  destruct (negb (truthy (PDict housing))); [discriminate E|].
  do 9 (apply bind_ok_inv in E as (? & _ & E); cbv beta zeta in E).
  apply bind_ok_inv in E as (out & Hw & [= <-]). cbn [text].
  unfold housing_benchmarks, get in Hw.
  rewrite (get_or_some _ _ _ _ Hb), bind_ok in Hw.
  rewrite (get_or_some _ _ _ _ Hd), bind_ok in Hw.
  rewrite Htd, get_or_dict, bind_ok in Hw. cbv zeta in Hw.
  apply (benchmark_walk_untrimmed _ _ _ _ Hw).
  right. exists ptype, price. auto.
Qed.

(** A housing subtree with a property count and one benchmark price. *)
Lemma C4_witness :
  exists c,
    chunk_housing
      (PDict [("housing", PDict [("property_count", PInt 1234);
                ("district_benchmarks",
                 PDict [("date", PStr "2024-01"); ("detached", PInt 700000)])])])
      "beltline" (PStr "Beltline") = Ok (Some c) /\
    text c = "Beltline housing data. Average assessed value: N/A. Total properties: 1,234. District () benchmark prices as of 2024-01: Detached: $700,000, " /\
    Str.endswith ", " (text c) = true.
Proof.
  eexists. split; [vm_compute; reflexivity|].
  split; [vm_compute; reflexivity|].
  apply (C4_housing_benchmarks_untrimmed
           [("housing", PDict [("property_count", PInt 1234);
              ("district_benchmarks",
               PDict [("date", PStr "2024-01"); ("detached", PInt 700000)])])]
           [("property_count", PInt 1234);
            ("district_benchmarks",
             PDict [("date", PStr "2024-01"); ("detached", PInt 700000)])]
           [("date", PStr "2024-01"); ("detached", PInt 700000)]
           "beltline" (PStr "Beltline") _ (PStr "2024-01") "detached" (PInt 700000));
    try (vm_compute; reflexivity).
  apply list_elem_of_here.
Defined.

(** ** Trimming, and the answer adapter *)

Lemma rev_app (s t : string) : Str.rev (s +:+ t) = Str.rev t +:+ Str.rev s.
Proof. unfold Str.rev. rewrite rev_onto_app. apply rev_onto_acc. Qed.

Lemma rev_cons (c : ascii) (s : string) :
  Str.rev (String c s) = Str.rev s +:+ String c "".
Proof. exact (rev_app (String c "") s). Qed.

Lemma rev_involutive (s : string) : Str.rev (Str.rev s) = s.
Proof.
  induction s as [|c s IH]; [reflexivity|].
  rewrite rev_cons, rev_app, IH. reflexivity.
Qed.

Lemma all_space_app (s t : string) :
  all_space (s +:+ t) = all_space s && all_space t.
Proof.
  induction s as [|c s IH]; [reflexivity|].
  rewrite append_cons. unfold all_space in *. cbn [list_ascii_of_string forallb].
  rewrite IH, andb_assoc. reflexivity.
Qed.

Lemma all_space_rev (s : string) : all_space (Str.rev s) = all_space s.
Proof.
  induction s as [|c s IH]; [reflexivity|].
  rewrite rev_cons, all_space_app, IH.
  unfold all_space. cbn [list_ascii_of_string forallb].
  rewrite andb_true_r. apply andb_comm.
Qed.

(** [drop_while] removes a run of matching characters and stops at the
    first character that does not match. *)
Lemma drop_while_spec (s : string) :
  (exists l, s = l +:+ Str.drop_while Str.is_space s /\ all_space l = true) /\
  starts_space (Str.drop_while Str.is_space s) = false.
Proof.
  induction s as [|c s [(l & Hl & Hs) Hd]]; cbn [Str.drop_while].
  - split; [exists ""; split; reflexivity|reflexivity].
  - destruct (Str.is_space c) eqn:Ec.
    + split; [|exact Hd].
      exists (String c l). rewrite append_cons, <- Hl. split; [reflexivity|].
      unfold all_space in *. cbn [list_ascii_of_string forallb].
      rewrite Ec, Hs. reflexivity.
    + split; [exists ""; split; reflexivity|exact Ec].
Qed.

Lemma starts_space_app (t r : string) :
  starts_space (t +:+ r) = false -> starts_space t = false.
Proof. destruct t; [reflexivity|exact (fun H => H)]. Qed.

Lemma strip_trimmed (s : string) : trimmed_of s (Str.strip s).
Proof.
  unfold Str.strip, Str.rstrip_by, Str.lstrip_by.
  destruct (drop_while_spec s) as [(l & Hl & Hls) Hstart].
  set (t0 := Str.drop_while Str.is_space s) in *.
  destruct (drop_while_spec (Str.rev t0)) as [(r & Hr & Hrs) Hend].
  set (u := Str.drop_while Str.is_space (Str.rev t0)) in *.
  assert (Ht0 : t0 = Str.rev u +:+ Str.rev r).
  { rewrite <- rev_app, <- Hr, rev_involutive. reflexivity. }
  split; [|split].
  - exists l, (Str.rev r). split; [rewrite <- Ht0; exact Hl|].
    split; [exact Hls|]. rewrite all_space_rev. exact Hrs.
  - rewrite Ht0 in Hstart. exact (starts_space_app _ _ Hstart).
  - unfold ends_space. rewrite rev_involutive. exact Hend.
Qed.

(** C5 (amended).  The answer adapter turns four outcomes of the
    generation process into answer strings: exit status zero gives the
    standard output trimmed of surrounding whitespace; another status
    gives ["Error: "] followed by the trimmed standard error; a missing
    binary and a timeout give their fixed messages.  Any other
    exception of the process call is raised to the caller. *)
Theorem C5_ask_claude (run : string -> run_outcome) (prompt : string) :
  (forall rc out err, run prompt = Completed rc out err ->
     (rc = 0 -> exists t, ask_claude run prompt = Ok t /\ trimmed_of out t) /\
     (rc <> 0 -> exists t, ask_claude run prompt = Ok ("Error: " +:+ t) /\
                           trimmed_of err t)) /\
  (run prompt = Raised FileNotFoundError ->
     ask_claude run prompt =
       Ok "Error: 'claude' command not found. Install Claude Code CLI.") /\
  (run prompt = Raised TimeoutExpired ->
     ask_claude run prompt = Ok "Error: Claude timed out after 60 seconds.") /\
  (forall e, run prompt = Raised e ->
     e <> FileNotFoundError -> e <> TimeoutExpired ->
     ask_claude run prompt = Raise e).
Proof.
  unfold ask_claude. repeat split.
  - intros ->. rewrite H. exists (Str.strip out).
    split; [reflexivity|apply strip_trimmed].
  - intros Hrc. rewrite H. apply Z.eqb_neq in Hrc. rewrite Hrc.
    exists (Str.strip err). split; [reflexivity|apply strip_trimmed].
  - intros ->. reflexivity.
  - intros ->. reflexivity.
  - intros e -> H1 H2. destruct e; congruence.
Qed.

(** A process that fails with a padded message on its standard error. *)
Lemma C5_witness :
  (exists t,
     ask_claude (fun _ => Completed 1 "" "  no credit  ") "How safe is Beltline?" =
       Ok ("Error: " +:+ t) /\
     trimmed_of "  no credit  " t) /\
  ask_claude (fun _ => Raised TimeoutExpired) "How safe is Beltline?" =
    Ok "Error: Claude timed out after 60 seconds.".
Proof.
  split.
  - destruct (C5_ask_claude (fun _ => Completed 1 "" "  no credit  ")
                "How safe is Beltline?") as (H & _).
    destruct (H 1 "" "  no credit  " eq_refl) as (_ & H1).
    apply H1. discriminate.
  - destruct (C5_ask_claude (fun _ => Raised TimeoutExpired)
                "How safe is Beltline?") as (_ & _ & H2 & _).
    exact (H2 eq_refl).
Defined.

(** C5 as stated fails: a process call that raises another exception,
    such as [PermissionError] for a binary that may not be executed,
    raises past the adapter; and the standard error is shown trimmed. *)
Lemma C5_counterexample :
  ask_claude (fun _ => Raised PermissionError) "How safe is Beltline?" =
    Raise PermissionError /\
  ask_claude (fun _ => Completed 1 "" "  no credit  ") "How safe is Beltline?" =
    Ok "Error: no credit".
Proof. split; vm_compute; reflexivity. Qed.

(** ** The collection *)

Lemma coll_get_ids_spec (c k : string) (store : gmap string entry) :
  k ∈ coll_get_ids c store <->
  exists e, store !! k = Some e /\ meta_community e = c.
Proof.
  unfold coll_get_ids. rewrite list_elem_of_fmap. split.
  - intros ([k' e] & -> & H). apply elem_of_map_to_list in H.
    apply map_lookup_filter_Some in H as [H1 H2]. exists e. split; assumption.
  - intros (e & H1 & H2). exists (k, e). split; [reflexivity|].
    apply elem_of_map_to_list, map_lookup_filter_Some. split; assumption.
Qed.

Lemma coll_delete_Some (ids : list string) (store : gmap string entry)
    (k : string) (e : entry) :
  coll_delete ids store !! k = Some e <-> (k ∉ ids) /\ store !! k = Some e.
Proof.
  unfold coll_delete. induction ids as [|i ids IH]; cbn [foldr].
  - split.
    + intros H. split; [apply not_elem_of_nil|exact H].
    + intros [_ H]. exact H.
  - rewrite lookup_delete_Some, IH, not_elem_of_cons. split.
    + intros (Hi & Hn & H). repeat split; [congruence|exact Hn|exact H].
    + intros ((Hi & Hn) & H). repeat split; [congruence|exact Hn|exact H].
Qed.

Lemma remove_community_Some (store : gmap string entry) (c k : string) (e : entry) :
  remove_community store c !! k = Some e <->
  store !! k = Some e /\ meta_community e <> c.
Proof.
  unfold remove_community.
  assert (G : coll_delete (coll_get_ids c store) store !! k = Some e <->
              store !! k = Some e /\ meta_community e <> c).
  { rewrite coll_delete_Some, coll_get_ids_spec. split.
    - intros [Hn H]. split; [exact H|]. intros Hc. apply Hn. eauto.
    - intros [H Hc]. split; [|exact H]. intros (e' & H' & Hc'). congruence. }
  destruct (coll_get_ids c store) as [|i ids] eqn:E; [|exact G].
  rewrite <- G. unfold coll_delete. cbn [foldr]. reflexivity.
Qed.

Lemma remove_communities_Some (cs : list string) (store : gmap string entry)
    (k : string) (e : entry) :
  foldl remove_community store cs !! k = Some e <->
  store !! k = Some e /\ meta_community e ∉ cs.
Proof.
  revert store. induction cs as [|c cs IH]; intros store; cbn [foldl].
  - split.
    + intros H. split; [exact H|apply not_elem_of_nil].
    + intros [H _]. exact H.
  - rewrite IH, remove_community_Some, not_elem_of_cons. split.
    + intros ((H & Hc) & Hn). repeat split; assumption.
    + intros (H & Hc & Hn). repeat split; assumption.
Qed.

Lemma coll_write_fresh (rows : list (string * entry)) (store : gmap string entry)
    (k : string) :
  k ∉ rows.*1 -> coll_write rows store !! k = store !! k.
Proof.
  unfold coll_write. revert store.
  induction rows as [|[i e] rows IH]; intros store Hk; cbn [foldl]; [reflexivity|].
  rewrite fmap_cons in Hk. apply not_elem_of_cons in Hk as [Hi Hk].
  rewrite (IH _ Hk). cbn [fst snd] in *. apply lookup_insert_ne.
  intros ->. apply Hi. reflexivity.
Qed.

Lemma coll_write_row (rows : list (string * entry)) (store : gmap string entry)
    (k : string) (e : entry) :
  NoDup rows.*1 -> (k, e) ∈ rows -> coll_write rows store !! k = Some e.
Proof.
  revert store. induction rows as [|[i e'] rows IH]; intros store ND Hin.
  - inversion Hin.
  - rewrite fmap_cons in ND. apply NoDup_cons in ND as [Hi ND].
    apply elem_of_cons in Hin as [[= -> ->]|Hin].
    + change (coll_write ((i, e') :: rows) store)
        with (coll_write rows (<[i := e']> store)).
      rewrite (coll_write_fresh _ _ _ Hi). apply lookup_insert_eq.
    + exact (IH _ ND Hin).
Qed.

Lemma chunk_rows_keys (chunks : list chunk) :
  (map (fun c => (id c, entry_of c)) chunks).*1 = id <$> chunks.
Proof. rewrite <- list_fmap_compose. reflexivity. Qed.

(** The three outcomes of a call: an empty list and a list that repeats
    an id are refused by the upsert, after the deletions of [replace];
    any other list is written. *)
Lemma index_chunks_empty (store : gmap string entry) (replace : bool) :
  index_chunks store [] replace = (store, Raise ValueError).
Proof. destruct replace; reflexivity. Qed.

Lemma index_chunks_written (store : gmap string entry) (chunks : list chunk)
    (replace : bool) :
  chunks <> [] -> NoDup (id <$> chunks) ->
  index_chunks store chunks replace =
    (coll_write (map (fun c => (id c, entry_of c)) chunks)
       (if replace
        then foldl remove_community store (remove_dups (map community chunks))
        else store),
     Ok (length chunks)).
Proof.
  intros Hne ND. unfold index_chunks, coll_upsert.
  rewrite chunk_rows_keys, (bool_decide_eq_true_2 _ ND), length_map.
  destruct chunks; [congruence|reflexivity].
Qed.

Lemma index_chunks_refused (store : gmap string entry) (chunks : list chunk)
    (replace : bool) :
  chunks <> [] -> ~ NoDup (id <$> chunks) ->
  index_chunks store chunks replace =
    (if replace
     then foldl remove_community store (remove_dups (map community chunks))
     else store,
     Raise DuplicateIDError).
Proof.
  intros Hne ND. unfold index_chunks, coll_upsert.
  rewrite chunk_rows_keys, (bool_decide_eq_false_2 _ ND).
  destruct chunks; [congruence|reflexivity].
Qed.

(** The store that [replace] and the writes leave: the rows of the
    chunks, and the entries of the communities the chunks do not name. *)
Lemma index_chunks_replace_lookup (store : gmap string entry) (chunks : list chunk)
    (k : string) (e : entry) :
  NoDup (id <$> chunks) ->
  (forall ch e', ch ∈ chunks -> store !! id ch = Some e' ->
                 meta_community e' ∈ community <$> chunks) ->
  coll_write (map (fun c => (id c, entry_of c)) chunks)
    (foldl remove_community store (remove_dups (map community chunks))) !! k
    = Some e <->
  (exists ch, ch ∈ chunks /\ k = id ch /\ e = entry_of ch) \/
  (store !! k = Some e /\ meta_community e ∉ community <$> chunks).
Proof.
  intros ND Hclash.
  set (rows := map (fun c => (id c, entry_of c)) chunks).
  assert (Hkeys : rows.*1 = id <$> chunks) by apply chunk_rows_keys.
  assert (ND' : NoDup rows.*1) by (rewrite Hkeys; exact ND).
  destruct (decide (k ∈ id <$> chunks)) as [Hk|Hk].
  - apply list_elem_of_fmap in Hk as (ch & -> & Hch).
    assert (Hrow : (id ch, entry_of ch) ∈ rows).
    { unfold rows. apply (list_elem_of_fmap_2 (fun c => (id c, entry_of c))), Hch. }
    rewrite (coll_write_row _ _ _ _ ND' Hrow). split.
    + intros [= <-]. left. exists ch. auto.
    + intros [(ch' & Hch' & Hid & ->)|[Hs Hc]].
      * assert (Hrow' : (id ch, entry_of ch') ∈ rows).
        { rewrite Hid. unfold rows.
          apply (list_elem_of_fmap_2 (fun c => (id c, entry_of c))), Hch'. }
        pose proof (coll_write_row _ store _ _ ND' Hrow) as E1.
        pose proof (coll_write_row _ store _ _ ND' Hrow') as E2.
        congruence.
      * destruct Hc. exact (Hclash _ _ Hch Hs).
  - rewrite coll_write_fresh by (rewrite Hkeys; exact Hk).
    rewrite remove_communities_Some, elem_of_remove_dups. split.
    + intros H. right. exact H.
    + intros [(ch & Hch & -> & _)|H]; [|exact H].
      destruct Hk. apply list_elem_of_fmap_2, Hch.
Qed.

Lemma one_community (chunks : list chunk) (c : string) :
  chunks <> [] -> Forall (fun ch => community ch = c) chunks ->
  forall x, x ∈ community <$> chunks <-> x = c.
Proof.
  intros Hne Hc x. rewrite list_elem_of_fmap. rewrite Forall_forall in Hc. split.
  - intros (ch & -> & Hch). exact (Hc _ Hch).
  - intros ->. destruct chunks as [|ch rest]; [congruence|].
    exists ch. split; [symmetry; apply Hc|]; left.
Qed.

(** C6 (amended).  Indexing with [replace] a non-empty list of chunks of
    one community.  When the ids of the chunks are pairwise distinct and
    none of them is held by an entry of another community, the call
    returns the number of chunks and leaves under that community exactly
    the rows of the new chunks, and the entries of the other communities
    as they were.  When the list repeats an id, the call raises
    [DuplicateIDError] after the entries of the community have been
    deleted: the community is left with no entry. *)
Theorem C6_reindex_replace (store : gmap string entry) (chunks : list chunk)
    (c : string) :
  chunks <> [] ->
  Forall (fun ch => community ch = c) chunks ->
  (NoDup (id <$> chunks) ->
   (forall ch e', ch ∈ chunks -> store !! id ch = Some e' ->
                  meta_community e' = c) ->
   exists store',
     index_chunks store chunks true = (store', Ok (length chunks)) /\
     forall k e, store' !! k = Some e <->
       (exists ch, ch ∈ chunks /\ k = id ch /\ e = entry_of ch) \/
       (store !! k = Some e /\ meta_community e <> c)) /\
  (~ NoDup (id <$> chunks) ->
   exists store',
     index_chunks store chunks true = (store', Raise DuplicateIDError) /\
     forall k e, store' !! k = Some e <->
                 store !! k = Some e /\ meta_community e <> c).
Proof.
  intros Hne Hc.
  pose proof (one_community _ _ Hne Hc) as Hin.
  split.
  - intros ND Hclash. eexists.
    split; [exact (index_chunks_written store chunks true Hne ND)|].
    intros k e. rewrite index_chunks_replace_lookup; [|exact ND|].
    + rewrite Hin. reflexivity.
    + intros ch e' Hch Hs. apply Hin. exact (Hclash _ _ Hch Hs).
  - intros ND. eexists.
    split; [exact (index_chunks_refused store chunks true Hne ND)|].
    intros k e. rewrite remove_communities_Some, elem_of_remove_dups.
    change (map community chunks) with (community <$> chunks).
    rewrite Hin. reflexivity.
Qed.

(** The new overview of [beltline] indexed over a store that holds an
    older overview, a stale transit chunk and a chunk of [acadia]. *)
Lemma C6_witness :
  exists store',
    index_chunks old_store [new_overview] true = (store', Ok 1%nat) /\
    store' !! "beltline-overview" = Some (entry_of new_overview) /\
    store' !! "beltline-transit" = None /\
    store' !! "acadia-overview" = Some acadia_overview.
Proof.
  destruct (C6_reindex_replace old_store [new_overview] "beltline") as [H _].
  - discriminate.
  - repeat constructor.
  - destruct H as (store' & Hi & H).
    + apply NoDup_singleton.
    + intros ch e' Hch Hs. apply list_elem_of_singleton in Hch as ->.
      vm_compute in Hs. injection Hs as <-. reflexivity.
    + exists store'. split; [exact Hi|]. split; [|split].
      * apply H. left. exists new_overview. repeat split. apply list_elem_of_here.
      * destruct (store' !! "beltline-transit") as [e|] eqn:E; [|reflexivity].
        apply H in E as [(ch & Hch & Hid & _)|[Hs Hn]].
        -- apply list_elem_of_singleton in Hch as ->. discriminate Hid.
        -- vm_compute in Hs. injection Hs as <-. destruct Hn. reflexivity.
      * apply H. right. split; [vm_compute; reflexivity|discriminate].
Defined.

(** C6 as stated fails on the chunks of a directory where two files
    declare the same slug: the two overview chunks have the same id, the
    earlier entries of the community are deleted, the upsert refuses the
    batch, and the store is left with no chunk of the community. *)
Lemma C6_counterexample :
  exists cs store',
    chunk_all [ File "east.json"
                  (Ok (PDict [("slug", PStr "beltline"); ("sector", PStr "E")]));
                File "west.json"
                  (Ok (PDict [("slug", PStr "beltline"); ("sector", PStr "W")])) ]
      = Ok cs /\
    community <$> cs = ["beltline"; "beltline"] /\
    id <$> cs = ["beltline-overview"; "beltline-overview"] /\
    index_chunks old_store cs true = (store', Raise DuplicateIDError) /\
    old_store !! "beltline-transit" <> None /\
    store' !! "beltline-overview" = None /\
    store' !! "beltline-transit" = None.
Proof.
  eexists. eexists. split; [vm_compute; reflexivity|].
  split; [vm_compute; reflexivity|]. split; [vm_compute; reflexivity|].
  split; [rewrite index_chunks_refused; [reflexivity|discriminate|]|].
  - intros H. apply NoDup_cons in H as [H _]. apply H. cbn. left.
  - split; [discriminate|]. split; vm_compute; reflexivity.
Qed.

(** ** Numbers in the text *)

Lemma div_half_even_nearest (a b : N) :
  b <> 0%N ->
  2 * Z.abs (Z.of_N (div_half_even a b) * Z.of_N b - Z.of_N a) <= Z.of_N b.
Proof.
  intros Hb. unfold div_half_even.
  pose proof (N.div_mod a b Hb) as Hdm.
  pose proof (N.mod_lt a b Hb) as Hlt.
  set (q := (a / b)%N) in *. set (r := (a mod b)%N) in *.
  destruct (N.compare_spec (2 * r) b) as [E|L|G];
    [destruct (N.even q)|..]; nia.
Qed.

Lemma nearest_exact (n : N) (x : Q) : (inject_Z (Z.of_N n) == x)%Q -> nearest n x.
Proof.
  intros E. unfold nearest. rewrite E.
  assert (Z0 : (x - x == 0)%Q) by ring. rewrite Z0. discriminate.
Qed.

Lemma nearest_quotient (n a b : N) (x : Q) :
  b <> 0%N ->
  2 * Z.abs (Z.of_N n * Z.of_N b - Z.of_N a) <= Z.of_N b ->
  (x == inject_Z (Z.of_N a) / inject_Z (Z.of_N b))%Q ->
  nearest n x.
Proof.
  intros Hb H E. unfold nearest. rewrite E.
  assert (Hpos : (0 < inject_Z (Z.of_N b))%Q).
  { change 0%Q with (inject_Z 0). rewrite <- Zlt_Qlt. lia. }
  apply Qabs_diff_Qle_condition. split.
  - apply Qle_shift_div_l; [exact Hpos|].
    unfold Qle, Qminus, Qplus, Qmult, Qopp, inject_Z. cbn. lia.
  - apply Qle_shift_div_r; [exact Hpos|].
    unfold Qle, Qminus, Qplus, Qmult, Qopp, inject_Z. cbn. lia.
Qed.

Lemma div_half_even_tie (a b : N) :
  b <> 0%N ->
  2 * Z.abs (Z.of_N (div_half_even a b) * Z.of_N b - Z.of_N a) = Z.of_N b ->
  N.even (div_half_even a b) = true.
Proof.
  intros Hb. unfold div_half_even.
  pose proof (N.div_mod a b Hb) as Hdm.
  pose proof (N.mod_lt a b Hb) as Hlt.
  set (q := (a / b)%N) in *. set (r := (a mod b)%N) in *.
  destruct (N.compare_spec (2 * r) b) as [E|L|G].
  - destruct (N.even q) eqn:Ev; intros _; [exact Ev|].
    rewrite N.add_1_r, N.even_succ, <- N.negb_even, Ev. reflexivity.
  - intros H. exfalso. nia.
  - intros H. exfalso. nia.
Qed.

Lemma div_half_even_ge (a b : N) : b <> 0%N -> (a / b <= div_half_even a b)%N.
Proof.
  intros _. unfold div_half_even.
  destruct (2 * (a mod b) ?= b)%N; [destruct (N.even (a / b))|..]; lia.
Qed.

(** The distance from an integer to a quotient, as a fraction. *)
Lemma tie_quotient (n a b : N) (x : Q) :
  b <> 0%N ->
  (x == inject_Z (Z.of_N a) / inject_Z (Z.of_N b))%Q ->
  (Qabs (inject_Z (Z.of_N n) - x) == 1 # 2)%Q ->
  2 * Z.abs (Z.of_N n * Z.of_N b - Z.of_N a) = Z.of_N b.
Proof.
  intros Hb E H. rewrite E in H. clear E.
  destruct b as [|p]; [congruence|].
  change (Z.of_N (N.pos p)) with (Z.pos p) in *.
  generalize dependent (Z.of_N n). generalize (Z.of_N a). intros za zn.
  unfold Qeq, Qabs, Qminus, Qplus, Qopp, Qdiv, Qmult, Qinv, inject_Z.
  cbn [Qnum Qden]. lia.
Qed.

Lemma nearest_even_exact (n : N) (x : Q) :
  (inject_Z (Z.of_N n) == x)%Q -> nearest_even n x.
Proof.
  intros E. split; [exact (nearest_exact n x E)|].
  rewrite E. assert (Z0 : (x - x == 0)%Q) by ring. rewrite Z0. discriminate.
Qed.

Lemma nearest_even_quotient (a b : N) (x : Q) :
  b <> 0%N ->
  (x == inject_Z (Z.of_N a) / inject_Z (Z.of_N b))%Q ->
  nearest_even (div_half_even a b) x.
Proof.
  intros Hb E. split.
  - exact (nearest_quotient _ a b x Hb (div_half_even_nearest a b Hb) E).
  - intros H. apply (div_half_even_tie a b Hb).
    exact (tie_quotient _ a b x Hb E H).
Qed.

(** The digits of the [f] presentation are those of the integer nearest
    to the value times [10^prec], the even one of the two at a tie. *)
Lemma scaled_nearest_even (prec : nat) (m : N) (e : Z) :
  nearest_even (scaled prec m e) (mag m e * inject_Z (10 ^ Z.of_nat prec)).
Proof.
  unfold scaled, mag. destruct (Z.leb_spec 0 e) as [He|He].
  - apply nearest_even_exact.
    rewrite !N2Z.inj_mul, !N2Z.inj_pow, Z2N.id, nat_N_Z by exact He.
    change (Z.of_N 10) with 10. change (Z.of_N 2) with 2.
    rewrite !inject_Z_mult, (Zpower_Qpower 2 e He).
    change (inject_Z 2) with 2%Q.
    generalize (2 ^ e)%Q (inject_Z (10 ^ Z.of_nat prec)). intros p t. ring.
  - apply nearest_even_quotient.
    + apply N.pow_nonzero. discriminate.
    + rewrite !N2Z.inj_mul, !N2Z.inj_pow, Z2N.id, nat_N_Z by lia.
      change (Z.of_N 10) with 10. change (Z.of_N 2) with 2.
      rewrite !inject_Z_mult, (Zpower_Qpower 2 (- e)) by lia.
      change (inject_Z 2) with 2%Q.
      rewrite Qpower_opp.
      assert (Hp : ~ (2 ^ e == 0)%Q) by (apply Qpower_not_0; discriminate).
      revert Hp.
      generalize (2 ^ e)%Q (inject_Z (10 ^ Z.of_nat prec)). intros p t Hp.
      field. exact Hp.
Qed.

Lemma nearest_even_eq (n : N) (x y : Q) :
  (x == y)%Q -> nearest_even n x -> nearest_even n y.
Proof.
  intros E [H1 H2]. unfold nearest_even, nearest in *.
  rewrite <- E. split; assumption.
Qed.

Lemma scaled_nearest_even_unit (m : N) (e : Z) :
  nearest_even (scaled 0 m e) (mag m e).
Proof.
  apply (nearest_even_eq _ (mag m e * inject_Z (10 ^ Z.of_nat 0))).
  - change (inject_Z (10 ^ Z.of_nat 0)) with 1%Q. ring.
  - apply scaled_nearest_even.
Qed.

Lemma scaled_zero (prec : nat) (e : Z) : scaled prec 0 e = 0%N.
Proof.
  unfold scaled. rewrite N.mul_0_l. destruct (0 <=? e); [reflexivity|].
  unfold div_half_even.
  assert (Hb : (2 ^ Z.to_N (- e) <> 0)%N) by (apply N.pow_nonzero; discriminate).
  rewrite N.Div0.div_0_l, N.Div0.mod_0_l.
  destruct (2 ^ Z.to_N (- e))%N; [congruence|reflexivity].
Qed.

(** An integer of more than 53 bits: the quotient that [float] keeps has
    its 53 bits, and with its exponent it is not below the leading bit. *)
Lemma float_of_int_leading (m : N) :
  (53 < N.size m)%N ->
  (2 ^ N.log2 m <= div_half_even m (2 ^ (N.size m - 53)) * 2 ^ (N.size m - 53))%N /\
  (div_half_even m (2 ^ (N.size m - 53)) <> 0)%N.
Proof.
  intros H.
  assert (Hm : m <> 0%N) by (intros ->; cbn in H; lia).
  rewrite N.size_log2 in * by exact Hm.
  set (L := N.log2 m) in *.
  set (sh := (N.succ L - 53)%N).
  assert (Hb : (2 ^ sh <> 0)%N) by (apply N.pow_nonzero; discriminate).
  assert (HL : (2 ^ L = 2 ^ 52 * 2 ^ sh)%N).
  { rewrite <- N.pow_add_r. f_equal. unfold sh. lia. }
  assert (Hq : (2 ^ 52 <= m / 2 ^ sh)%N).
  { rewrite <- (N.div_mul (2 ^ 52) (2 ^ sh) Hb), <- HL.
    apply N.Div0.div_le_mono, N.log2_spec. lia. }
  pose proof (div_half_even_ge m (2 ^ sh) Hb) as Hge.
  assert (Hq' : (2 ^ 52 <= div_half_even m (2 ^ sh))%N) by lia.
  split.
  - rewrite HL. apply N.mul_le_mono_r. exact Hq'.
  - intros E. rewrite E in Hq'. vm_compute in Hq'. congruence.
Qed.

Lemma float_of_int_overflow (z : Z) :
  2 ^ 1024 <= Z.abs z -> float_of_int z = Raise OverflowError.
Proof.
  intros H. unfold float_of_int.
  assert (Hm : (2 ^ 1024 <= Z.abs_N z)%N).
  { apply N2Z.inj_le. rewrite N2Z.inj_abs_N, N2Z.inj_pow. exact H. }
  set (m := Z.abs_N z) in *.
  assert (HL : (1024 <= N.log2 m)%N).
  { rewrite <- (N.log2_pow2 1024) by lia. apply N.log2_le_mono. exact Hm. }
  assert (Hm0 : m <> 0%N).
  { intros E. rewrite E in HL. cbn in HL. lia. }
  assert (Hs : (53 < N.size m)%N) by (rewrite N.size_log2 by exact Hm0; lia).
  destruct (N.leb_spec (N.size m) 53) as [Hle|_]; [lia|].
  destruct (float_of_int_leading m Hs) as [Hlead _].
  replace (2 ^ 1024 <=? div_half_even m (2 ^ (N.size m - 53)) * 2 ^ (N.size m - 53))%N
    with true; [reflexivity|].
  symmetry. apply N.leb_le.
  apply (N.le_trans _ (2 ^ N.log2 m)); [|exact Hlead].
  apply N.pow_le_mono_r; [discriminate|exact HL].
Qed.

(** The float of a non-zero integer is not a zero. *)
Lemma float_of_int_sign (z : Z) (x : pyfloat) :
  float_of_int z = Ok x -> ge0 (PFloat x) = Ok (0 <=? z).
Proof.
  unfold float_of_int.
  destruct (N.leb_spec (N.size (Z.abs_N z)) 53) as [Hle|Hgt].
  - intros [= <-]. unfold ge0, float_gt0, float_is_zero. f_equal.
    destruct (Z.ltb_spec z 0), (Z.leb_spec 0 z), (N.eqb_spec (Z.abs_N z) 0);
      try reflexivity; lia.
  - destruct (float_of_int_leading _ Hgt) as [_ Hq].
    destruct (_ <=? _)%N; [discriminate|]. intros [= <-].
    unfold ge0, float_gt0, float_is_zero. f_equal.
    destruct (N.eqb_spec (div_half_even (Z.abs_N z) (2 ^ (N.size (Z.abs_N z) - 53))) 0)
      as [E|_]; [destruct (Hq E)|].
    destruct (Z.ltb_spec z 0), (Z.leb_spec 0 z); try reflexivity; lia.
Qed.

Lemma scaled_int (prec : nat) (m : N) :
  scaled prec m 0 = (m * 10 ^ N.of_nat prec)%N.
Proof. unfold scaled. cbn [Z.leb Z.compare Z.to_N]. apply N.mul_1_r. Qed.

Lemma digits_nonempty (n : N) : (0 < String.length (digits n))%nat.
Proof.
  unfold digits, NilZero.string_of_uint.
  destruct (N.to_uint n); cbn [NilEmpty.string_of_uint String.length]; lia.
Qed.

Lemma take_length (s : string) : Str.take (String.length s) s = s.
Proof.
  induction s as [|c s IH]; [reflexivity|].
  cbn [String.length Str.take]. rewrite IH. reflexivity.
Qed.

Lemma fixed_digits_0 (n : N) : fixed_digits true 0 n = group_thousands (digits n).
Proof.
  unfold fixed_digits. pose proof (digits_nonempty n) as H.
  replace (1 - String.length (digits n))%nat with 0%nat by lia.
  cbn [Str.repeat]. change ("" +:+ digits n) with (digits n).
  rewrite Nat.sub_0_r, take_length. reflexivity.
Qed.

Lemma size_le_53 (m : N) : (m < 2 ^ 53)%N -> (N.size m <=? 53)%N = true.
Proof.
  intros H. apply N.leb_le. destruct (N.eq_dec m 0%N) as [->|Hm]; [discriminate|].
  rewrite N.size_log2 by exact Hm.
  apply N.le_succ_l, N.log2_lt_pow2; [lia|exact H].
Qed.

Lemma float_of_int_exact (z : Z) :
  Z.abs z < 2 ^ 53 -> float_of_int z = Ok (FFinite (z <? 0) (Z.abs_N z) 0).
Proof.
  intros H. unfold float_of_int. rewrite size_le_53; [reflexivity|].
  apply N2Z.inj_lt. rewrite N2Z.inj_abs_N. exact H.
Qed.

(** C9 (amended).  [format_currency] maps [None] to ["N/A"]; an integer
    of magnitude below [2^53] to the dollar sign and its digits in
    groups of three; a finite float to the dollar sign, its sign and the
    grouped digits of the integer nearest to its magnitude, the even one
    of the two when the magnitude lies half way between them.  Any
    integer is printed as the float that [float] makes of it, and an
    integer of magnitude [2^1024] or more raises [OverflowError]; the
    infinities are printed [$inf] and [$-inf], and a value that is not
    a number [$nan]. *)
Theorem C9_format_currency :
  format_currency PNone = Ok "N/A" /\
  (forall z, Z.abs z < 2 ^ 53 ->
     format_currency (PInt z) = Ok ("$" +:+ int_comma z)) /\
  (forall neg m e,
     format_currency (PFloat (FFinite neg m e)) =
       Ok ("$" +:+ (if neg then "-" else "") +:+
           group_thousands (digits (scaled 0 m e))) /\
     nearest_even (scaled 0 m e) (mag m e)) /\
  (forall z,
     format_currency (PInt z) =
       (x ← float_of_int z; format_currency (PFloat x))) /\
  (forall z, 2 ^ 1024 <= Z.abs z ->
     format_currency (PInt z) = Raise OverflowError) /\
  format_currency (PFloat (FInf false)) = Ok "$inf" /\
  format_currency (PFloat (FInf true)) = Ok "$-inf" /\
  format_currency (PFloat FNan) = Ok "$nan" /\
  format_currency (PInt 1234567) = Ok "$1,234,567" /\
  format_currency (PInt 9007199254740993) = Ok "$9,007,199,254,740,992".
Proof.
  split; [reflexivity|].
  split; [|split; [|split; [|split; [|repeat split; vm_compute; reflexivity]]]].
  - intros z Hz. unfold format_currency, fmt_fixed. cbn [is_none].
    rewrite (float_of_int_exact z Hz), !bind_ok.
    unfold float_fixed, int_comma. rewrite scaled_int, fixed_digits_0.
    cbn [N.of_nat N.pow]. rewrite N.mul_1_r.
    destruct (z <? 0); reflexivity.
  - intros neg m e. split; [|apply scaled_nearest_even_unit].
    unfold format_currency, fmt_fixed. cbn [is_none].
    rewrite bind_ok. unfold float_fixed. rewrite fixed_digits_0.
    destruct neg; reflexivity.
  - intros z. unfold format_currency, fmt_fixed. cbn [is_none].
    destruct (float_of_int z) as [x|err]; reflexivity.
  - intros z Hz. unfold format_currency, fmt_fixed. cbn [is_none].
    rewrite (float_of_int_overflow z Hz). reflexivity.
Qed.

(** The assessed value 1,234,567 as an integer; the values 2.5, 3.5 and
    1,234,567.5, half way between two integers, which go to the even
    one; and the integer [2^1024]. *)
Lemma C9_witness :
  format_currency (PInt 1234567) = Ok "$1,234,567" /\
  (format_currency (PFloat (FFinite false 5 (-1))) = Ok "$2" /\
   N.even (scaled 0 5 (-1)) = true) /\
  format_currency (PFloat (FFinite false 7 (-1))) = Ok "$4" /\
  format_currency (PFloat (FFinite false 2469135 (-1))) = Ok "$1,234,568" /\
  format_currency (PInt (2 ^ 1024)) = Raise OverflowError.
Proof.
  destruct C9_format_currency as (_ & Hi & Hf & _ & Ho & _).
  split; [|split; [|split; [|split]]].
  - rewrite (Hi 1234567); [vm_compute; reflexivity|]. vm_compute. reflexivity.
  - destruct (Hf false 5%N (-1)) as [Ht [_ He]]. split.
    + rewrite Ht. vm_compute. reflexivity.
    + apply He. vm_compute. reflexivity.
  - rewrite (proj1 (Hf false 7%N (-1))). vm_compute. reflexivity.
  - rewrite (proj1 (Hf false 2469135%N (-1))). vm_compute. reflexivity.
  - apply (Ho (2 ^ 1024)). vm_compute. discriminate.
Defined.

(** C9 as stated fails on an integer that is not a double: [2^53 + 1]
    is printed as the float nearest to it; and an infinite value has no
    digits. *)
Lemma C9_counterexample :
  format_currency (PInt 9007199254740993) = Ok "$9,007,199,254,740,992" /\
  format_currency (PFloat (FInf false)) = Ok "$inf".
Proof. split; vm_compute; reflexivity. Qed.

Lemma fixed_digits_zero : fixed_digits false 1 0 = "0.0".
Proof. reflexivity. Qed.

(** C8 (amended).  [format_pct] maps [None] to ["N/A"]; a finite float
    other than the negative zero to its sign ([+] when it is not
    negative), the digits of the integer number of tenths nearest to
    its magnitude (the even one of the two when the magnitude lies half
    way between them) with the point before the last digit, and [%]; an
    integer of magnitude below [2^53] likewise, with its exact tenths.
    Any integer is printed as the float that [float] makes of it, and an
    integer of magnitude [2^1024] or more raises [OverflowError]; the
    negative zero is printed [-0.0%], the infinities [+inf%] and
    [-inf%], and a value that is not a number [nan%]. *)
Theorem C8_format_pct :
  format_pct PNone = Ok "N/A" /\
  (forall neg m e, (neg = true -> m <> 0%N) ->
     format_pct (PFloat (FFinite neg m e)) =
       Ok (((if neg then "-" else "+") +:+ fixed_digits false 1 (scaled 1 m e))
           +:+ "%") /\
     nearest_even (scaled 1 m e) (mag m e * 10)) /\
  (forall z, Z.abs z < 2 ^ 53 ->
     format_pct (PInt z) =
       Ok (((if z <? 0 then "-" else "+") +:+
            fixed_digits false 1 (Z.abs_N z * 10)) +:+ "%")) /\
  (forall z,
     format_pct (PInt z) = (x ← float_of_int z; format_pct (PFloat x))) /\
  (forall z, 2 ^ 1024 <= Z.abs z -> format_pct (PInt z) = Raise OverflowError) /\
  (forall e, format_pct (PFloat (FFinite true 0 e)) = Ok "-0.0%") /\
  format_pct (PFloat (FInf false)) = Ok "+inf%" /\
  format_pct (PFloat (FInf true)) = Ok "-inf%" /\
  format_pct (PFloat FNan) = Ok "nan%" /\
  format_pct (PFloat double_5_2) = Ok "+5.2%" /\
  format_pct (PFloat (double_3_1 true)) = Ok "-3.1%".
Proof.
  split; [reflexivity|].
  split; [|split; [|split; [|split; [|split;
    [|repeat split; vm_compute; reflexivity]]]]].
  - intros neg m e Hz. split; [|exact (scaled_nearest_even 1 m e)].
    unfold format_pct, ge0, float_gt0, float_is_zero. cbn [is_none].
    rewrite bind_ok. destruct neg.
    + destruct (N.eqb_spec m 0) as [E|_]; [destruct (Hz eq_refl E)|].
      cbn [negb andb orb]. unfold fmt_fixed. rewrite !bind_ok. reflexivity.
    + cbn [negb andb]. rewrite orb_negb_l.
      unfold fmt_fixed. rewrite !bind_ok. reflexivity.
  - intros z Hz. unfold format_pct, ge0. cbn [is_none]. rewrite bind_ok.
    unfold fmt_fixed. rewrite (float_of_int_exact z Hz), !bind_ok.
    unfold float_fixed. rewrite scaled_int. change (10 ^ N.of_nat 1)%N with 10%N.
    rewrite Z.leb_antisym. destruct (z <? 0); reflexivity.
  - intros z. destruct (float_of_int z) as [x|err] eqn:E.
    + rewrite bind_ok. unfold format_pct. cbn [is_none].
      rewrite (float_of_int_sign z x E). unfold ge0. rewrite !bind_ok.
      unfold fmt_fixed. rewrite E, !bind_ok.
      destruct (0 <=? z); reflexivity.
    + unfold format_pct, ge0, fmt_fixed. cbn [is_none]. rewrite bind_ok, E.
      destruct (0 <=? z); reflexivity.
  - intros z Hz. unfold format_pct, ge0, fmt_fixed. cbn [is_none].
    rewrite bind_ok, (float_of_int_overflow z Hz).
    destruct (0 <=? z); reflexivity.
  - intros e. unfold format_pct, ge0, float_gt0, float_is_zero. cbn [is_none].
    rewrite bind_ok. cbn [negb andb orb N.eqb]. unfold fmt_fixed.
    rewrite !bind_ok. unfold float_fixed. rewrite scaled_zero, fixed_digits_zero.
    reflexivity.
Qed.

(** The double [5.2] and the integer [-12]; the values 0.25 and 0.75,
    half way between two tenths, which go to the even one; and the
    integer [-2^1024]. *)
Lemma C8_witness :
  format_pct (PFloat (FFinite false 5854679515581645 (-50))) = Ok "+5.2%" /\
  format_pct (PInt (-12)) = Ok "-12.0%" /\
  (format_pct (PFloat (FFinite false 1 (-2))) = Ok "+0.2%" /\
   N.even (scaled 1 1 (-2)) = true) /\
  format_pct (PFloat (FFinite true 3 (-2))) = Ok "-0.8%" /\
  format_pct (PInt (- 2 ^ 1024)) = Raise OverflowError.
Proof.
  destruct C8_format_pct as (_ & Hf & Hi & _ & Ho & _).
  split; [|split; [|split; [|split]]].
  - rewrite (proj1 (Hf false 5854679515581645%N (-50) ltac:(discriminate))).
    vm_compute. reflexivity.
  - rewrite (Hi (-12)); vm_compute; reflexivity.
  - destruct (Hf false 1%N (-2) ltac:(discriminate)) as [Ht [_ He]]. split.
    + rewrite Ht. vm_compute. reflexivity.
    + apply He. vm_compute. reflexivity.
  - rewrite (proj1 (Hf true 3%N (-2) ltac:(discriminate))).
    vm_compute. reflexivity.
  - apply (Ho (- 2 ^ 1024)). vm_compute. discriminate.
Defined.

(** C8 as stated fails on the negative zero, which is not negative and
    is printed with its minus sign, and on a value that is not a number
    ([nan]), which has no digits. *)
Lemma C8_counterexample :
  ge0 (PFloat (FFinite true 0 0)) = Ok true /\
  format_pct (PFloat (FFinite true 0 0)) = Ok "-0.0%" /\
  format_pct (PFloat FNan) = Ok "nan%".
Proof. repeat split; vm_compute; reflexivity. Qed.

(** * Further properties of the chunker *)

Lemma run_chunkers_cons (f : chunker) (fs : list chunker) (data : pyval)
    (slug : string) (name : pyval) (acc : list chunk) :
  run_chunkers (f :: fs) data slug name acc =
    (c ← f data slug name;
     run_chunkers fs data slug name
       (match c with Some c => acc ++ [c] | None => acc end)).
Proof. reflexivity. Qed.

Lemma run_chunkers_extends (fs : list chunker) (data : pyval) (slug : string)
    (name : pyval) :
  forall acc out,
    run_chunkers fs data slug name acc = Ok out -> exists added, out = acc ++ added.
Proof.
  induction fs as [|f fs IH]; intros acc out E.
  - injection E as <-. exists []. rewrite app_nil_r. reflexivity.
  - rewrite run_chunkers_cons in E. apply bind_ok_inv in E as (c & _ & E).
    apply IH in E as (added & ->). destruct c as [c|].
    + exists (c :: added). rewrite <- app_assoc. reflexivity.
    + exists added. reflexivity.
Qed.

(** X1.  What a record gives when it can be chunked: its overview chunk
    first, then at most eight more, no two of them for the same
    section.  The community chunker never returns an empty list. *)
Theorem chunk_community_overview_first (f : file) (cs : list chunk) :
  chunk_community f = Ok cs ->
  (exists c rest, cs = c :: rest /\ section c = "overview") /\
  (length cs <= 9)%nat /\
  NoDup (section <$> cs).
Proof.
  intros E. pose proof (chunk_community_keys _ _ E) as (slug & _ & Hs).
  split; [|split].
  - unfold chunk_community in E.
    apply bind_ok_inv in E as (data & _ & E).
    apply bind_ok_inv in E as (sl & _ & E).
    destruct sl as [| | | |sl| |]; try discriminate E.
    apply bind_ok_inv in E as (name & _ & E).
    unfold chunkers in E. rewrite run_chunkers_cons in E.
    apply bind_ok_inv in E as (c & Hc & E).
    destruct c as [c|]; [|destruct (chunk_hero_never_absent _ _ _ Hc)].
    apply run_chunkers_extends in E as (added & ->).
    exists c, added. split; [reflexivity|].
    exact (proj2 (proj2 (chunk_hero_shaped _ _ _ _ Hc))).
  - apply sublist_length in Hs. rewrite !length_fmap in Hs. exact Hs.
  - apply (fmap_sublist snd) in Hs. rewrite <- !list_fmap_compose in Hs.
    eapply sublist_NoDup; [|exact Hs]. exact section_labels_NoDup.
Qed.

Lemma chunk_community_overview_first_witness :
  exists cs,
    chunk_community (File "beltline.json" (Ok (PDict []))) = Ok cs /\
    (exists c rest, cs = c :: rest /\ section c = "overview") /\
    (length cs <= 9)%nat /\ NoDup (section <$> cs).
Proof.
  destruct (chunk_community (File "beltline.json" (Ok (PDict [])))) as [cs|e] eqn:E;
    [|vm_compute in E; discriminate E].
  exists cs. split; [reflexivity|].
  exact (chunk_community_overview_first _ _ E).
Defined.

(** ** Failures, and the order of the directory listing *)

Lemma mapM_app {A B} (f : A -> result B) (l k : list A) :
  mapM f (l ++ k) = (ys ← mapM f l; zs ← mapM f k; Ok (ys ++ zs)).
Proof.
  induction l as [|x l IH]; cbn [mapM app].
  - rewrite bind_ok. symmetry. apply bind_ret.
  - rewrite IH, !bind_assoc. apply bind_ext; intros y.
    rewrite !bind_assoc. apply bind_ext; intros ys.
    rewrite ?bind_ok, ?bind_assoc. apply bind_ext; intros zs.
    rewrite !bind_ok. reflexivity.
Qed.

Lemma mapM_all_ok {A B} (f : A -> result B) (l : list A) :
  Forall (fun x => is_ok (f x) = true) l -> exists ys, mapM f l = Ok ys.
Proof.
  induction 1 as [|x l Hx _ (ys & IH)]; [exists []; reflexivity|].
  destruct (f x) as [y|e] eqn:E; [|discriminate Hx].
  exists (y :: ys). cbn [mapM]. rewrite E, bind_ok, IH, bind_ok. reflexivity.
Qed.

(** X2.  The first file whose chunking fails ends the corpus run with its
    exception: no chunk of an earlier or a later file is returned. *)
Theorem chunk_all_first_failure (dir pre post : list file) (f : file) (e : exn) :
  corpus_files dir = pre ++ f :: post ->
  Forall (fun g => is_ok (chunk_community g) = true) pre ->
  chunk_community f = Raise e ->
  chunk_all dir = Raise e.
Proof.
  intros Hsplit Hpre Hf.
  rewrite chunk_all_refines. unfold chunk_all_spec.
  rewrite Hsplit, mapM_app.
  destruct (mapM_all_ok _ _ Hpre) as (ys & ->).
  rewrite bind_ok. cbn [mapM]. rewrite Hf. reflexivity.
Qed.

Lemma chunk_all_first_failure_witness :
  chunk_all [ File "acadia.json" (Ok (PDict []));
              File "beltline.json" (Raise JSONDecodeError);
              File "crescent.json" (Raise PermissionError) ] =
    Raise JSONDecodeError.
Proof.
  apply (chunk_all_first_failure _
           [File "acadia.json" (Ok (PDict []))]
           [File "crescent.json" (Raise PermissionError)]
           (File "beltline.json" (Raise JSONDecodeError))).
  - vm_compute. reflexivity.
  - repeat constructor.
  - reflexivity.
Defined.

Lemma fmap_NoDup_inj {A B} (f : A -> B) (l : list A) (x y : A) :
  NoDup (f <$> l) -> x ∈ l -> y ∈ l -> f x = f y -> x = y.
Proof.
  induction l as [|a l IH]; intros ND Hx Hy E; [inversion Hx|].
  rewrite fmap_cons in ND. apply NoDup_cons in ND as [Ha ND].
  apply elem_of_cons in Hx as [->|Hx]; apply elem_of_cons in Hy as [->|Hy].
  - reflexivity.
  - destruct Ha. rewrite E. apply list_elem_of_fmap_2, Hy.
  - destruct Ha. rewrite <- E. apply list_elem_of_fmap_2, Hx.
  - exact (IH ND Hx Hy E).
Qed.

Lemma corpus_files_subset (dir : list file) (f : file) :
  f ∈ corpus_files dir -> f ∈ dir.
Proof.
  intros H. rewrite corpus_files_Permutation in H.
  apply list_elem_of_In, List.filter_In in H as [H _].
  apply list_elem_of_In, H.
Qed.

Lemma corpus_files_sorted (dir : list file) :
  StronglySorted name_le (corpus_files dir).
Proof.
  unfold corpus_files. apply filter_StronglySorted.
  apply StronglySorted_merge_sort; [exact name_le_trans|exact name_le_total].
Qed.

(** X3.  The corpus run depends on the directory only through its eligible
    files: when the names in the directory are pairwise distinct, the
    order in which the file system lists them and the files that are
    not eligible do not change the result. *)
Theorem chunk_all_listing_order (dir dir' : list file) :
  NoDup (file_name <$> dir) ->
  List.filter eligible_name dir ≡ₚ List.filter eligible_name dir' ->
  chunk_all dir = chunk_all dir'.
Proof.
  intros ND HP. rewrite !chunk_all_refines. unfold chunk_all_spec.
  assert (HP' : corpus_files dir ≡ₚ corpus_files dir').
  { rewrite !corpus_files_Permutation. exact HP. }
  assert (E : corpus_files dir = corpus_files dir'); [|rewrite E; reflexivity].
  apply (StronglySorted_unique_strong name_le).
  - intros x1 x2 H1 H2 L1 L2.
    rewrite <- HP' in H2.
    apply (fmap_NoDup_inj file_name dir);
      [exact ND|apply corpus_files_subset, H1|apply corpus_files_subset, H2|].
    unfold name_le in L1, L2.
    apply String.leb_antisym; apply Is_true_true; assumption.
  - apply corpus_files_sorted.
  - apply corpus_files_sorted.
  - exact HP'.
Qed.

Lemma chunk_all_listing_order_witness :
  chunk_all [ File "beltline.json" (Ok (PDict []));
              File "_template.json" (Raise JSONDecodeError);
              File "acadia.json" (Ok (PDict [])) ] =
  chunk_all [ File "acadia.json" (Ok (PDict []));
              File "notes.txt" (Raise PermissionError);
              File "beltline.json" (Ok (PDict [])) ].
Proof.
  apply chunk_all_listing_order.
  - apply (bool_decide_unpack _). vm_compute. exact I.
  - vm_compute. apply perm_swap.
Defined.

Lemma rfind_dot_json (s : string) :
  rfind_dot (s +:+ ".json") = Some (String.length s).
Proof.
  induction s as [|c s IH]; [reflexivity|].
  rewrite append_cons. cbn [rfind_dot String.length]. rewrite IH. reflexivity.
Qed.

Lemma take_app (s t : string) : Str.take (String.length s) (s +:+ t) = s.
Proof.
  induction s as [|c s IH]; [destruct t; reflexivity|].
  rewrite append_cons. cbn [String.length Str.take]. rewrite IH. reflexivity.
Qed.

Lemma length_app (s t : string) :
  String.length (s +:+ t) = (String.length s + String.length t)%nat.
Proof.
  induction s as [|c s IH]; [reflexivity|].
  rewrite append_cons. cbn [String.length]. rewrite IH. reflexivity.
Qed.

(** X4.  The stem of [<s>.json] is [s], whatever dots [s] holds: a record
    without a [slug] key in [beltline.json] is the community [beltline]. *)
Theorem stem_json (s : string) (d : list (string * pyval)) :
  s <> "" ->
  stem (s +:+ ".json") = s /\
  (absent "slug" (PDict d) ->
   resolved_slug (File (s +:+ ".json") (Ok (PDict d))) = Some s).
Proof.
  intros Hs.
  assert (E : stem (s +:+ ".json") = s).
  { unfold stem. rewrite rfind_dot_json, length_app.
    destruct s as [|c s]; [congruence|]. cbn [String.length].
    replace (0 <? S (String.length s))%nat with true
      by (symmetry; apply Nat.ltb_lt; lia).
    replace (S (String.length s) <? S (String.length s) + 5 - 1)%nat with true
      by (symmetry; apply Nat.ltb_lt; lia).
    cbn [andb]. exact (take_app (String c s) ".json"). }
  split; [exact E|].
  intros Ha. unfold resolved_slug. cbn [file_load file_name].
  rewrite (default_absent _ _ _ Ha), E. reflexivity.
Qed.

Lemma stem_json_witness :
  stem ("mount.royal" +:+ ".json") = "mount.royal" /\
  resolved_slug (File ("mount.royal" +:+ ".json") (Ok (PDict []))) =
    Some "mount.royal".
Proof.
  destruct (stem_json "mount.royal" [] ltac:(discriminate)) as [H1 H2].
  split; [exact H1|apply H2; reflexivity].
Defined.

(** ** Sections that are left out, and sections that cannot be built *)

(** X5.  A [schools] subtree whose count is missing or zero gives no chunk,
    whatever schools it lists. *)
Theorem chunk_schools_none_counted (d s : list (string * pyval)) (slug : string)
    (name : pyval) :
  lookup "schools" d = Some (PDict s) ->
  eq0 (default (PInt 0) (lookup "count" s)) = true ->
  chunk_schools (PDict d) slug name = Ok None.
Proof.
  intros Hs Hc. unfold chunk_schools.
  rewrite (get_or_some _ _ _ _ Hs), bind_ok.
  destruct (negb (truthy (PDict s))); [reflexivity|].
  rewrite (get_or_dict s "count"), bind_ok, Hc. reflexivity.
Qed.

Lemma chunk_schools_none_counted_witness :
  chunk_schools
    (PDict [("schools",
             PDict [("count", PInt 0);
                    ("list", PList [PDict [("name", PStr "Connaught School")]])])])
    "beltline" (PStr "Beltline") = Ok None.
Proof.
  apply (chunk_schools_none_counted _
           [("count", PInt 0);
            ("list", PList [PDict [("name", PStr "Connaught School")]])]);
    reflexivity.
Defined.

Lemma truthy_dict_cons (kv : string * pyval) (d : list (string * pyval)) :
  truthy (PDict (kv :: d)) = true.
Proof. reflexivity. Qed.

(** X6.  A 311 subtree without [total] cannot be chunked: the default
    ["N/A"] does not take the thousands separator, and the chunker
    raises [ValueError]. *)
Theorem chunk_311_needs_total (d sr : list (string * pyval)) (slug : string)
    (name : pyval) :
  lookup "service_requests_311" d = Some (PDict sr) ->
  sr <> [] ->
  lookup "total" sr = None ->
  chunk_311 (PDict d) slug name = Raise ValueError.
Proof.
  intros Hsr Hne Ht. unfold chunk_311.
  rewrite (get_or_some _ _ _ _ Hsr), bind_ok.
  destruct sr as [|kv sr]; [congruence|].
  rewrite truthy_dict_cons. cbn [negb]. cbv zeta.
  rewrite (get_or_dict (kv :: sr) "total"), Ht, bind_ok. reflexivity.
Qed.

Lemma chunk_311_needs_total_witness :
  chunk_311
    (PDict [("service_requests_311",
             PDict [("top_categories", PList [])])])
    "beltline" (PStr "Beltline") = Raise ValueError.
Proof.
  apply (chunk_311_needs_total _ [("top_categories", PList [])]);
    [reflexivity|discriminate|reflexivity].
Defined.

(** X7.  A housing subtree without [property_count] cannot be chunked
    either: the chunker raises, and [ValueError] when the assessed
    value and the comparison to the city are absent too. *)
Theorem chunk_housing_needs_count (d h : list (string * pyval)) (slug : string)
    (name : pyval) :
  lookup "housing" d = Some (PDict h) ->
  h <> [] ->
  lookup "property_count" h = None ->
  (exists e, chunk_housing (PDict d) slug name = Raise e) /\
  (lookup "assessed_value" h = None -> lookup "value_vs_city" h = None ->
   chunk_housing (PDict d) slug name = Raise ValueError).
Proof.
  intros Hh Hne Hc. unfold chunk_housing.
  rewrite (get_or_some _ _ _ _ Hh), bind_ok.
  destruct h as [|kv h]; [congruence|].
  rewrite truthy_dict_cons. cbn [negb]. cbv zeta. unfold get.
  rewrite (get_or_dict (kv :: h) "assessed_value"), bind_ok.
  rewrite (get_or_dict (kv :: h) "value_vs_city").
  rewrite (get_or_dict (kv :: h) "property_count"), Hc.
  split.
  - destruct (format_currency _) as [a|e]; [|exists e; reflexivity].
    rewrite !bind_ok.
    destruct (negb (is_none _)).
    + destruct (format_pct _) as [v|e]; [|exists e; reflexivity].
      rewrite !bind_ok. exists ValueError. reflexivity.
    + rewrite !bind_ok. exists ValueError. reflexivity.
  - intros -> ->. reflexivity.
Qed.

Lemma chunk_housing_needs_count_witness :
  chunk_housing (PDict [("housing", PDict [("district", PStr "City Centre")])])
    "beltline" (PStr "Beltline") = Raise ValueError.
Proof.
  apply (chunk_housing_needs_count
           [("housing", PDict [("district", PStr "City Centre")])]
           [("district", PStr "City Centre")]); try reflexivity.
  discriminate.
Defined.

(** ** The separator of the 311 categories *)

Lemma drop_while_head (p : ascii -> bool) (s : string) :
  match Str.drop_while p s with
  | String c _ => p c = false
  | EmptyString => True
  end.
Proof.
  induction s as [|c s IH]; cbn [Str.drop_while]; [exact I|].
  destruct (p c) eqn:E; [exact IH|exact E].
Qed.

Lemma rstrip_ends_in (chars s : string) : ends_in chars (Str.rstrip chars s) = false.
Proof.
  unfold ends_in, Str.rstrip, Str.rstrip_by. rewrite rev_involutive.
  pose proof (drop_while_head (Str.mem_char chars) (Str.rev s)) as H.
  destruct (Str.drop_while _ _); [reflexivity|exact H].
Qed.

(** X8.  The text of a 311 chunk ends with a full stop and a space; when
    categories are listed, the comma and the space after the last one
    are trimmed before the full stop. *)
Theorem chunk_311_trimmed (d sr : list (string * pyval)) (slug : string)
    (name : pyval) (c : chunk) :
  lookup "service_requests_311" d = Some (PDict sr) ->
  chunk_311 (PDict d) slug name = Ok (Some c) ->
  exists body, text c = body +:+ ". " /\
    (truthy (default (PList []) (lookup "top_categories" sr)) = true ->
     ends_in ", " body = false).
Proof.
  intros Hsr E. unfold chunk_311 in E.
  rewrite (get_or_some _ _ _ _ Hsr), bind_ok in E.
  destruct (negb (truthy (PDict sr))); [discriminate E|]. cbv zeta in E.
  apply bind_ok_inv in E as (total & _ & E).
  apply bind_ok_inv in E as (total' & _ & E).
  rewrite (get_or_dict sr "top_categories"), bind_ok in E.
  apply bind_ok_inv in E as (t & Ht & [= <-]). cbn [text].
  destruct (truthy (default (PList []) (lookup "top_categories" sr))).
  - cbv zeta in Ht.
    apply bind_ok_inv in Ht as (cats & _ & Ht).
    apply bind_ok_inv in Ht as (walked & _ & [= <-]).
    eexists. split; [reflexivity|]. intros _. apply rstrip_ends_in.
  - injection Ht as <-.
    exists (str name +:+ " 311 service requests. " +:+
            "Total requests (24 months): " +:+ total').
    split; [|discriminate].
    rewrite <- !append_assoc. reflexivity.
Qed.

Lemma chunk_311_trimmed_witness :
  exists c,
    chunk_311
      (PDict [("service_requests_311",
               PDict [("total", PInt 1250);
                      ("top_categories",
                       PList [PDict [("category", PStr "Graffiti");
                                     ("count", PInt 40)]])])])
      "beltline" (PStr "Beltline") = Ok (Some c) /\
    text c = "Beltline 311 service requests. Total requests (24 months): 1,250. Top categories: Graffiti (40, +0.0% YoY). " /\
    exists body, text c = body +:+ ". " /\ ends_in ", " body = false.
Proof.
  eexists. split; [vm_compute; reflexivity|].
  split; [vm_compute; reflexivity|].
  destruct (chunk_311_trimmed
              [("service_requests_311",
                PDict [("total", PInt 1250);
                       ("top_categories",
                        PList [PDict [("category", PStr "Graffiti");
                                      ("count", PInt 40)]])])]
              [("total", PInt 1250);
               ("top_categories",
                PList [PDict [("category", PStr "Graffiti"); ("count", PInt 40)]])]
              "beltline" (PStr "Beltline") _ eq_refl
              ltac:(vm_compute; reflexivity)) as (body & Hb & Ht).
  exists body. split; [exact Hb|apply Ht; reflexivity].
Defined.
(** * Further properties of the indexer *)

Lemma coll_write_cons (row : string * entry) (rows : list (string * entry))
    (store : gmap string entry) :
  coll_write (row :: rows) store = coll_write rows (<[row.1 := row.2]> store).
Proof. reflexivity. Qed.

(** What the writes leave under the id of one of the rows does not
    depend on the store. *)
Lemma coll_write_indep (rows : list (string * entry)) (k : string) :
  k ∈ rows.*1 ->
  forall s s', coll_write rows s !! k = coll_write rows s' !! k.
Proof.
  induction rows as [|[i e] rows IH]; intros Hk s s'; [inversion Hk|].
  rewrite !coll_write_cons.
  destruct (decide (k ∈ rows.*1)) as [Hin|Hout]; [apply (IH Hin)|].
  rewrite !(coll_write_fresh _ _ _ Hout).
  rewrite fmap_cons in Hk. apply elem_of_cons in Hk as [->|Hk]; [|contradiction].
  cbn [fst snd]. rewrite !lookup_insert_eq. reflexivity.
Qed.

(** Deleting the entries of the communities a second time deletes
    nothing more. *)
Lemma remove_communities_twice (store : gmap string entry) (comms : list string) :
  foldl remove_community (foldl remove_community store comms) comms =
  foldl remove_community store comms.
Proof.
  apply map_eq. intros k. apply option_eq. intros e.
  rewrite !remove_communities_Some. tauto.
Qed.

(** X9.  Indexing the same chunks a second time, on the store that the
    first call left, changes nothing, with or without [replace]: the
    store and the result are those of the first call, be the result the
    count or the exception of the upsert ([ValueError] for an empty
    list, [DuplicateIDError] for a repeated id, both raised after the
    deletions of [replace]). *)
Theorem index_chunks_idempotent (store : gmap string entry) (chunks : list chunk)
    (replace : bool) :
  index_chunks (index_chunks store chunks replace).1 chunks replace =
  index_chunks store chunks replace.
Proof.
  destruct (decide (chunks = [])) as [->|Hne];
    [rewrite !index_chunks_empty; reflexivity|].
  destruct (decide (NoDup (id <$> chunks))) as [ND|ND].
  - rewrite !(index_chunks_written _ chunks replace Hne ND). cbn [fst]. f_equal.
    set (rows := map (fun c => (id c, entry_of c)) chunks).
    set (comms := remove_dups (map community chunks)).
    apply map_eq. intros k.
    destruct (decide (k ∈ rows.*1)) as [Hin|Hout];
      [apply (coll_write_indep _ _ Hin)|].
    rewrite !(coll_write_fresh _ _ _ Hout).
    destruct replace; [|apply (coll_write_fresh _ _ _ Hout)].
    apply option_eq. intros e.
    rewrite !remove_communities_Some, (coll_write_fresh _ _ _ Hout).
    rewrite remove_communities_Some. tauto.
  - rewrite !(index_chunks_refused _ chunks replace Hne ND). cbn [fst].
    destruct replace; [|reflexivity].
    rewrite remove_communities_twice. reflexivity.
Qed.

(** X10.  Without [replace] the call on a non-empty list of chunks with
    pairwise distinct ids is an upsert: it returns the number of chunks
    given, the rows of the chunks are written under their ids, and
    every other entry is kept (the chunks of an earlier version of the
    community among them). *)
Theorem index_chunks_upsert (store : gmap string entry) (chunks : list chunk) :
  chunks <> [] ->
  NoDup (id <$> chunks) ->
  exists store',
    index_chunks store chunks false = (store', Ok (length chunks)) /\
    (forall ch, ch ∈ chunks -> store' !! id ch = Some (entry_of ch)) /\
    (forall k, k ∉ id <$> chunks -> store' !! k = store !! k).
Proof.
  intros Hne ND. eexists.
  split; [exact (index_chunks_written store chunks false Hne ND)|]. split.
  - intros ch Hch. apply coll_write_row.
    + rewrite chunk_rows_keys. exact ND.
    + apply (list_elem_of_fmap_2 (fun c => (id c, entry_of c))), Hch.
  - intros k Hk. apply coll_write_fresh. rewrite chunk_rows_keys. exact Hk.
Qed.

Lemma index_chunks_upsert_witness :
  exists store',
    index_chunks old_store [new_overview] false = (store', Ok 1%nat) /\
    store' !! "beltline-overview" = Some (entry_of new_overview) /\
    store' !! "beltline-transit" = old_store !! "beltline-transit".
Proof.
  destruct (index_chunks_upsert old_store [new_overview])
    as (store' & H1 & H2 & H3).
  - discriminate.
  - apply NoDup_singleton.
  - exists store'. split; [exact H1|]. split.
    + apply (H2 new_overview). apply list_elem_of_here.
    + apply H3. intros H. apply list_elem_of_singleton in H. discriminate H.
Defined.

(** ** The indexing run *)

Lemma main_all (store : gmap string entry) (dir : list file) (reindex : bool)
    (cs : list chunk) :
  chunk_all dir = Ok cs ->
  NoDup (id <$> cs) ->
  main store dir [] reindex =
    Ok (coll_write (map (fun c => (id c, entry_of c)) cs)
          (foldl remove_community (if reindex then ∅ else store)
             (remove_dups (map community cs)))).
Proof.
  intros E ND. unfold main. rewrite E, bind_ok.
  destruct cs as [|ch cs]; [reflexivity|].
  rewrite (index_chunks_written _ (ch :: cs) true ltac:(discriminate) ND).
  reflexivity.
Qed.

Lemma corpus_chunk_keys (dir : list file) (cs : list chunk) :
  chunk_all dir = Ok cs ->
  NoDup (omap resolved_slug (corpus_files dir)) ->
  Forall (fun c => exists row, row ∈ section_table /\
                     chunk_key c = table_key (community c) row) cs /\
  NoDup (id <$> cs).
Proof.
  rewrite chunk_all_refines. unfold chunk_all_spec. intros E ND.
  apply bind_ok_inv in E as (css & E & [= <-]).
  apply mapM_ok_inv in E.
  split; [exact (corpus_keys _ _ E) | exact (corpus_ids_NoDup _ _ E ND)].
Qed.

Lemma corpus_chunks_no_clash (store : gmap string entry) (cs : list chunk) :
  keyed store ->
  Forall (fun c => exists row, row ∈ section_table /\
                     chunk_key c = table_key (community c) row) cs ->
  forall ch e', ch ∈ cs -> store !! id ch = Some e' ->
                meta_community e' ∈ community <$> cs.
Proof.
  intros Hkeyed Hkeys ch e' Hch Hs.
  rewrite Forall_forall in Hkeys.
  destruct (Hkeys _ Hch) as (row & Hrow & Hk).
  destruct (Hkeyed _ _ Hs) as (row' & Hrow' & Hid).
  assert (E : (table_key (meta_community e') row').1.1 =
              (table_key (community ch) row).1.1).
  { rewrite <- Hk. cbn [chunk_key table_key fst]. symmetry. exact Hid. }
  destruct (table_id_inj _ _ _ _ Hrow' Hrow E) as [-> _].
  apply list_elem_of_fmap_2, Hch.
Qed.

(** X11.  A run over the whole directory keeps the invariant of the store
    (the id of an entry is its community slug, a hyphen and a suffix of
    the table): after it the store holds the rows of the new chunks and
    the entries of the communities that the run did not chunk. *)
Theorem main_index_all_keyed (store : gmap string entry) (dir : list file)
    (cs : list chunk) :
  chunk_all dir = Ok cs ->
  NoDup (omap resolved_slug (corpus_files dir)) ->
  keyed store ->
  exists store',
    main store dir [] false = Ok store' /\
    keyed store' /\
    forall k e, store' !! k = Some e <->
      (exists ch, ch ∈ cs /\ k = id ch /\ e = entry_of ch) \/
      (store !! k = Some e /\ meta_community e ∉ community <$> cs).
Proof.
  intros E ND Hkeyed.
  destruct (corpus_chunk_keys dir cs E ND) as [Hkeys Hids].
  eexists.
  split; [exact (main_all store dir false cs E Hids)|].
  assert (Hlookup : forall k e,
            coll_write (map (fun c => (id c, entry_of c)) cs)
              (foldl remove_community store (remove_dups (map community cs))) !! k
              = Some e <->
            (exists ch, ch ∈ cs /\ k = id ch /\ e = entry_of ch) \/
            (store !! k = Some e /\ meta_community e ∉ community <$> cs)).
  { intros k e. apply index_chunks_replace_lookup; [exact Hids|].
    exact (corpus_chunks_no_clash _ _ Hkeyed Hkeys). }
  split; [|exact Hlookup].
  intros k e Hk. apply Hlookup in Hk as [(ch & Hch & -> & ->)|[Hs _]].
  - rewrite Forall_forall in Hkeys.
    destruct (Hkeys _ Hch) as (row & Hrow & Hk).
    exists row. split; [exact Hrow|].
    unfold chunk_key, table_key in Hk. injection Hk as Hid _. exact Hid.
  - exact (Hkeyed _ _ Hs).
Qed.

Lemma old_store_keyed : keyed old_store.
Proof.
  intros k e H. unfold old_store in H.
  apply lookup_insert_Some in H as [[<- <-]|[_ H]];
    [exists ("overview", "overview"); split; [apply list_elem_of_here|reflexivity]|].
  apply lookup_insert_Some in H as [[<- <-]|[_ H]];
    [exists ("transit", "transit"); split; [|reflexivity];
     repeat first [apply list_elem_of_here | apply list_elem_of_further]|].
  apply lookup_insert_Some in H as [[<- <-]|[_ H]];
    [exists ("overview", "overview"); split; [apply list_elem_of_here|reflexivity]|].
  rewrite lookup_empty in H. discriminate H.
Qed.

Lemma main_index_all_keyed_witness :
  exists store',
    main old_store [File "beltline.json" (Ok (PDict []))] [] false = Ok store' /\
    keyed store' /\
    store' !! "beltline-transit" = None /\
    store' !! "acadia-overview" = Some acadia_overview.
Proof.
  destruct (chunk_all [File "beltline.json" (Ok (PDict []))]) as [cs|e] eqn:E;
    [|vm_compute in E; discriminate E].
  destruct (main_index_all_keyed old_store
              [File "beltline.json" (Ok (PDict []))] cs E) as (store' & Hm & Hk & Hl).
  - vm_compute. apply NoDup_singleton.
  - exact old_store_keyed.
  - exists store'. split; [exact Hm|]. split; [exact Hk|].
    vm_compute in E. injection E as <-. split.
    + destruct (store' !! "beltline-transit") as [e|] eqn:Es; [|reflexivity].
      apply Hl in Es as [(ch & Hch & Hid & _)|[Hs Hc]].
      * apply list_elem_of_singleton in Hch as ->. discriminate Hid.
      * vm_compute in Hs. injection Hs as <-. destruct Hc. apply list_elem_of_here.
    + apply Hl. right. split; [vm_compute; reflexivity|].
      intros H. apply list_elem_of_singleton in H. discriminate H.
Defined.

(** X12.  With [--reindex] the run over the whole directory leaves in the
    store the rows of the new chunks, and nothing else. *)
Theorem main_reindex_all_exact (store : gmap string entry) (dir : list file)
    (cs : list chunk) :
  chunk_all dir = Ok cs ->
  NoDup (omap resolved_slug (corpus_files dir)) ->
  exists store',
    main store dir [] true = Ok store' /\
    forall k e, store' !! k = Some e <->
                exists ch, ch ∈ cs /\ k = id ch /\ e = entry_of ch.
Proof.
  intros E ND.
  destruct (corpus_chunk_keys dir cs E ND) as [_ Hids].
  eexists.
  split; [exact (main_all store dir true cs E Hids)|].
  intros k e. rewrite index_chunks_replace_lookup; [|exact Hids|].
  - split; [|intros H; left; exact H].
    intros [H|[H _]]; [exact H|]. rewrite lookup_empty in H. discriminate H.
  - intros ch e' _ H. rewrite lookup_empty in H. discriminate H.
Qed.

Lemma main_reindex_all_exact_witness :
  exists store',
    main old_store [File "beltline.json" (Ok (PDict []))] [] true = Ok store' /\
    store' !! "acadia-overview" = None.
Proof.
  destruct (chunk_all [File "beltline.json" (Ok (PDict []))]) as [cs|e] eqn:E;
    [|vm_compute in E; discriminate E].
  destruct (main_reindex_all_exact old_store
              [File "beltline.json" (Ok (PDict []))] cs E) as (store' & Hm & Hl).
  - vm_compute. apply NoDup_singleton.
  - exists store'. split; [exact Hm|].
    vm_compute in E. injection E as <-.
    destruct (store' !! "acadia-overview") as [e|] eqn:Es; [|reflexivity].
    apply Hl in Es as (ch & Hch & Hid & _).
    apply list_elem_of_singleton in Hch as ->. discriminate Hid.
Defined.

(** X13.  The loop over the listed communities chunks the files that exist,
    in the order listed, and skips a slug without a file; a file whose
    name starts with an underscore is chunked when it is listed. *)
Theorem chunk_listed_found (dir : list file) (slugs : list string) :
  chunk_listed dir slugs [] =
    (css ← mapM chunk_community (omap (find_file dir) slugs); Ok (concat css)).
Proof.
  assert (G : forall acc,
             chunk_listed dir slugs acc =
               (css ← mapM chunk_community (omap (find_file dir) slugs);
                Ok (acc ++ concat css))); [|exact (G [])].
  induction slugs as [|slug slugs IH]; intros acc.
  - cbn [chunk_listed omap list_omap mapM]. rewrite bind_ok.
    cbn [concat]. rewrite app_nil_r. reflexivity.
  - cbn [chunk_listed omap list_omap].
    destruct (find_file dir slug) as [f|]; [|apply IH].
    cbn [mapM]. rewrite !bind_assoc. apply bind_ext; intros cs.
    rewrite IH, !bind_assoc. apply bind_ext; intros css.
    rewrite bind_ok. cbn [concat]. rewrite app_assoc. reflexivity.
Qed.

(** * The question pipeline *)

Lemma fromkeys_from (keys : list string) :
  forall d, NoDup d ->
    let r := foldl (fun d k => if bool_decide (k ∈ d) then d else d ++ [k]) d keys in
    NoDup r /\ (forall x, x ∈ r <-> x ∈ d \/ x ∈ keys) /\
    exists added, r = d ++ added /\ added `sublist_of` keys.
Proof.
  induction keys as [|k keys IH]; intros d ND; cbn [foldl].
  - split; [exact ND|]. split.
    + intros x. split; [auto|]. intros [H|H]; [exact H|inversion H].
    + exists []. rewrite app_nil_r. split; [reflexivity|constructor].
  - destruct (bool_decide_reflect (k ∈ d)) as [Hin|Hout].
    + destruct (IH d ND) as (H1 & H2 & added & H3 & H4).
      split; [exact H1|]. split.
      * intros x. rewrite H2, elem_of_cons. split; [tauto|].
        intros [H|[->|H]]; auto.
      * exists added. split; [exact H3|]. apply sublist_cons, H4.
    + assert (ND' : NoDup (d ++ [k])).
      { apply NoDup_app. split; [exact ND|]. split; [|apply NoDup_singleton].
        intros x Hx Hk. apply list_elem_of_singleton in Hk as ->. contradiction. }
      destruct (IH _ ND') as (H1 & H2 & added & H3 & H4).
      split; [exact H1|]. split.
      * intros x. rewrite H2, elem_of_app, list_elem_of_singleton, elem_of_cons.
        tauto.
      * exists (k :: added). rewrite H3, <- app_assoc.
        split; [reflexivity|]. apply sublist_skip, H4.
Qed.

Lemma fromkeys_cons (k : string) (keys : list string) :
  fromkeys (k :: keys) =
    foldl (fun d k => if bool_decide (k ∈ d) then d else d ++ [k]) [k] keys.
Proof.
  unfold fromkeys. cbn [foldl].
  rewrite bool_decide_eq_false_2 by apply not_elem_of_nil. reflexivity.
Qed.

(** X14.  The reply of [ask]: the answer is the adapter's string for the
    prompt; the sources are the urls of the retrieved chunks, each once,
    in the order of the chunks and starting with the url of the first;
    [chunks_used] counts the chunks, not the sources. *)
Theorem ask_sources (run : string -> run_outcome) (system q : string)
    (hits : list hit) (r : reply) :
  ask run system q hits = Ok r ->
  ask_claude run (build_prompt system q hits) = Ok (answer r) /\
  question r = q /\
  chunks_used r = length hits /\
  NoDup (sources r) /\
  (forall u, u ∈ sources r <-> u ∈ hit_url <$> hits) /\
  sources r `sublist_of` (hit_url <$> hits) /\
  (length (sources r) <= chunks_used r)%nat /\
  (forall h rest, hits = h :: rest -> exists tail, sources r = hit_url h :: tail).
Proof.
  unfold ask. intros E. cbv zeta in E.
  apply bind_ok_inv in E as (a & Ha & [= <-]). cbn [answer question chunks_used sources].
  destruct (fromkeys_from (map hit_url hits) [] NoDup_nil_2)
    as (H1 & H2 & added & H3 & H4).
  fold (fromkeys (map hit_url hits)) in H1, H2, H3.
  change ([] ++ added) with added in H3.
  repeat split; try assumption; try reflexivity.
  - intros H. apply H2 in H as [H|H]; [inversion H|exact H].
  - intros H. apply H2. right. exact H.
  - rewrite H3. exact H4.
  - rewrite H3. apply sublist_length in H4. rewrite length_map in H4. exact H4.
  - intros h rest ->. cbn [map]. rewrite fromkeys_cons.
    destruct (fromkeys_from (map hit_url rest) [hit_url h] (NoDup_singleton _))
      as (_ & _ & tail & -> & _).
    exists tail. reflexivity.
Qed.

Lemma ask_sources_witness :
  exists r,
    ask (fun _ => Completed 0 " Beltline is central. " "") "" "Where is Beltline?"
      [ Hit "Overview" "beltline" "overview" "https://calgarypulse.ca/communities/beltline"
            [] (FFinite false 1 (-2));
        Hit "Transit" "beltline" "transit" "https://calgarypulse.ca/communities/beltline#transit"
            [] (FFinite false 1 (-1));
        Hit "Overview" "beltline" "overview" "https://calgarypulse.ca/communities/beltline"
            [] (FFinite false 3 (-2)) ] = Ok r /\
    answer r = "Beltline is central." /\
    sources r = [ "https://calgarypulse.ca/communities/beltline";
                  "https://calgarypulse.ca/communities/beltline#transit" ] /\
    chunks_used r = 3%nat /\ NoDup (sources r).
Proof.
  eexists. split; [vm_compute; reflexivity|].
  split; [vm_compute; reflexivity|]. split; [vm_compute; reflexivity|].
  split; [reflexivity|].
  exact (proj1 (proj2 (proj2 (proj2
    (ask_sources (fun _ => Completed 0 " Beltline is central. " "") ""
       "Where is Beltline?"
       [ Hit "Overview" "beltline" "overview" "https://calgarypulse.ca/communities/beltline"
             [] (FFinite false 1 (-2));
         Hit "Transit" "beltline" "transit" "https://calgarypulse.ca/communities/beltline#transit"
             [] (FFinite false 1 (-1));
         Hit "Overview" "beltline" "overview" "https://calgarypulse.ca/communities/beltline"
             [] (FFinite false 3 (-2)) ] _ ltac:(vm_compute; reflexivity)))))).
Defined.

(** ** The prompt *)

Lemma context_entry_appends (i : Z) (chunk : hit) (context : string) :
  context_entry i chunk context = context +:+ context_block i chunk.
Proof.
  unfold context_block, context_entry. cbv zeta.
  destruct (hit_viz chunk); rewrite ?append_assoc; reflexivity.
Qed.

Lemma context_from_appends (chunks : list hit) :
  forall i context,
    context_from i chunks context = context +:+ context_blocks i chunks.
Proof.
  induction chunks as [|c chunks IH]; intros i context;
    cbn [context_from context_blocks].
  - rewrite append_nil_r. reflexivity.
  - rewrite IH, context_entry_appends, append_assoc. reflexivity.
Qed.

(** X15.  The prompt is the system text, the header of the retrieved data,
    one block for each chunk in the order retrieved, numbered from 1,
    the question and the fixed instruction; the blocks of a list that
    continues another are numbered on from its length. *)
Theorem build_prompt_blocks (system q : string) (chunks more : list hit) :
  build_prompt system q chunks =
    system +:+ nl +:+ nl +:+
    ("RETRIEVED DATA:" +:+ nl +:+ nl +:+ context_blocks 1 chunks) +:+
    nl +:+ nl +:+ "QUESTION: " +:+ q +:+ nl +:+ nl +:+ instruction /\
  context_blocks 1 (chunks ++ more) =
    context_blocks 1 chunks +:+
    context_blocks (1 + Z.of_nat (length chunks)) more.
Proof.
  split.
  - unfold build_prompt. cbv zeta. rewrite context_from_appends.
    rewrite ?append_assoc. reflexivity.
  - generalize 1. induction chunks as [|c chunks IH]; intros i.
    + cbn [app context_blocks length Z.of_nat]. rewrite Z.add_0_r. reflexivity.
    + cbn [app context_blocks length]. rewrite IH, append_assoc.
      do 3 f_equal. lia.
Qed.

(** * Further properties of the section chunkers *)

(** X16.  A crime subtree without [count] cannot be chunked: as for the
    311 total, the default ["N/A"] does not take the thousands
    separator. *)
Theorem chunk_safety_needs_count (d s cr : list (string * pyval)) (slug : string)
    (name : pyval) :
  lookup "safety" d = Some (PDict s) ->
  lookup "crime" s = Some (PDict cr) ->
  cr <> [] ->
  lookup "count" cr = None ->
  chunk_safety (PDict d) slug name = Raise ValueError.
Proof.
  intros Hs Hcr Hne Hc. unfold chunk_safety.
  rewrite (get_or_some _ _ _ _ Hs), bind_ok.
  assert (Ht : truthy (PDict s) = true) by (destruct s; [discriminate Hcr|reflexivity]).
  rewrite Ht. cbn [negb].
  rewrite (get_or_some _ _ _ _ Hcr), bind_ok.
  rewrite (get_or_dict s "disorder"), bind_ok.
  rewrite (get_or_dict s "breakdown"), bind_ok. cbv zeta.
  rewrite (get_or_dict s "percentile"), bind_ok.
  rewrite (get_or_dict s "percentile_label"), bind_ok.
  destruct cr as [|kv cr]; [congruence|].
  rewrite truthy_dict_cons.
  rewrite (get_or_dict (kv :: cr) "count"), Hc, bind_ok. reflexivity.
Qed.

Lemma chunk_safety_needs_count_witness :
  chunk_safety
    (PDict [("safety", PDict [("percentile", PInt 40);
                              ("crime", PDict [("per_1000", PInt 12)])])])
    "beltline" (PStr "Beltline") = Raise ValueError.
Proof.
  apply (chunk_safety_needs_count _
           [("percentile", PInt 40); ("crime", PDict [("per_1000", PInt 12)])]
           [("per_1000", PInt 12)]); try reflexivity.
  discriminate.
Defined.

(** ** The walk over the district benchmarks *)

Lemma benchmark_clause_part (b : pyval) (ptype text : string) :
  benchmark_clause b ptype text =
    (part ← benchmark_part b ptype; Ok (text +:+ part)).
Proof.
  unfold benchmark_clause, benchmark_part.
  destruct (get b ptype) as [price|e]; [|reflexivity].
  rewrite !bind_ok. destruct (truthy price).
  - cbv zeta. rewrite bind_assoc. apply bind_ext; intros p. rewrite bind_ok.
    reflexivity.
  - rewrite bind_ok, append_nil_r. reflexivity.
Qed.

Lemma benchmark_walk_parts (b : pyval) (types : list string) :
  forall text,
    for_each types (benchmark_clause b) text =
      (parts ← mapM (benchmark_part b) types;
       Ok (text +:+ String.concat "" parts)).
Proof.
  induction types as [|t types IH]; intros text; cbn [for_each mapM].
  - rewrite bind_ok. cbn [String.concat]. rewrite append_nil_r. reflexivity.
  - rewrite benchmark_clause_part, !bind_assoc. apply bind_ext; intros part.
    rewrite bind_ok, IH, !bind_assoc. apply bind_ext; intros parts.
    rewrite bind_ok, append_assoc. f_equal. f_equal.
    destruct parts; cbn [String.concat]; [rewrite append_nil_r|]; reflexivity.
Qed.

(** X17.  When the district benchmarks carry a date, the housing text
    continues with the header and, for [detached], [semi_detached],
    [row] and [apartment] in this order, the label and the price of each
    type that has one, each followed by a comma and a space. *)
Theorem housing_benchmarks_walk (h b : list (string * pyval)) (date : pyval)
    (text : string) :
  lookup "district_benchmarks" h = Some (PDict b) ->
  lookup "date" b = Some date ->
  truthy date = true ->
  housing_benchmarks (PDict h) text =
    (parts ← mapM (benchmark_part (PDict b))
               ["detached"; "semi_detached"; "row"; "apartment"];
     Ok ((text +:+ "District (" +:+ str (default (PStr "") (lookup "district" h))
            +:+ ") benchmark prices as of " +:+ str date +:+ ": ")
         +:+ String.concat "" parts)) /\
  type_label <$> benchmark_types = ["Detached"; "Semi Detached"; "Row"; "Apartment"].
Proof.
  intros Hb Hd Ht. split; [|vm_compute; reflexivity].
  unfold housing_benchmarks, get.
  rewrite (get_or_some _ _ _ _ Hb), bind_ok.
  rewrite (get_or_some _ _ _ _ Hd), bind_ok, Ht.
  rewrite (get_or_dict h "district"), bind_ok. cbv zeta.
  apply benchmark_walk_parts.
Qed.

Lemma housing_benchmarks_walk_witness :
  housing_benchmarks
    (PDict [("district", PStr "City Centre");
            ("district_benchmarks",
             PDict [("date", PStr "2024-01"); ("apartment", PInt 330000);
                    ("detached", PInt 700000)])]) "" =
  Ok "District (City Centre) benchmark prices as of 2024-01: Detached: $700,000, Apartment: $330,000, ".
Proof.
  rewrite (proj1 (housing_benchmarks_walk
             [("district", PStr "City Centre");
              ("district_benchmarks",
               PDict [("date", PStr "2024-01"); ("apartment", PInt 330000);
                      ("detached", PInt 700000)])]
             [("date", PStr "2024-01"); ("apartment", PInt 330000);
              ("detached", PInt 700000)]
             (PStr "2024-01") "" eq_refl eq_refl eq_refl)).
  vm_compute. reflexivity.
Defined.

(** ** Names that are listed *)

Lemma join_names_take (n : nat) (l : list pyval) :
  join_names n (PList (take n l)) = join_names n (PList l).
Proof. unfold join_names, slice_to. rewrite take_take, Nat.min_id. reflexivity. Qed.

Lemma truthy_take (n : nat) (l : list pyval) :
  truthy (PList (take (S n) l)) = truthy (PList l).
Proof. destruct l; reflexivity. Qed.

(** X18.  The amenities text names the first three parks only: the parks
    after the third do not change the chunk. *)
Theorem chunk_amenities_three_parks (d d' : list (string * pyval))
    (l : list pyval) (slug : string) (name : pyval) :
  (forall k, k <> "parks" -> lookup k d = lookup k d') ->
  lookup "parks" d = Some (PList l) ->
  lookup "parks" d' = Some (PList (take 3 l)) ->
  chunk_amenities (PDict d) slug name = chunk_amenities (PDict d') slug name.
Proof.
  intros Hk Hp Hp'. unfold chunk_amenities, get.
  rewrite (get_or_dict d "amenities"), (get_or_dict d' "amenities").
  rewrite (get_or_some d "parks" _ _ Hp), (get_or_some d' "parks" _ _ Hp').
  rewrite (get_or_dict d "recreation"), (get_or_dict d' "recreation").
  rewrite (get_or_dict d "landmarks"), (get_or_dict d' "landmarks").
  rewrite <- !Hk by discriminate.
  rewrite !bind_ok, truthy_take, join_names_take. reflexivity.
Qed.

Lemma chunk_amenities_three_parks_witness :
  chunk_amenities
    (PDict [("parks", PList [PDict [("name", PStr "Central Memorial Park")];
                             PDict [("name", PStr "Lougheed House")];
                             PDict [("name", PStr "Haultain Park")];
                             PDict [("name", PStr "Barb Scott Park")]])])
    "beltline" (PStr "Beltline") =
  chunk_amenities
    (PDict [("parks", PList [PDict [("name", PStr "Central Memorial Park")];
                             PDict [("name", PStr "Lougheed House")];
                             PDict [("name", PStr "Haultain Park")]])])
    "beltline" (PStr "Beltline").
Proof.
  apply (chunk_amenities_three_parks _ _
           [PDict [("name", PStr "Central Memorial Park")];
            PDict [("name", PStr "Lougheed House")];
            PDict [("name", PStr "Haultain Park")];
            PDict [("name", PStr "Barb Scott Park")]]);
    [|reflexivity|reflexivity].
  intros k Hk. cbn [lookup].
  destruct (String.eqb_spec k "parks"); [contradiction|reflexivity].
Defined.

(** X19.  A [transit] subtree whose stop count is missing or zero gives no
    chunk, whatever routes it lists. *)
Theorem chunk_transit_none_counted (d t : list (string * pyval)) (slug : string)
    (name : pyval) :
  lookup "transit" d = Some (PDict t) ->
  eq0 (default (PInt 0) (lookup "stop_count" t)) = true ->
  chunk_transit (PDict d) slug name = Ok None.
Proof.
  intros Ht Hc. unfold chunk_transit.
  rewrite (get_or_some _ _ _ _ Ht), bind_ok.
  destruct (negb (truthy (PDict t))); [reflexivity|].
  rewrite (get_or_dict t "stop_count"), bind_ok, Hc. reflexivity.
Qed.

Lemma chunk_transit_none_counted_witness :
  chunk_transit
    (PDict [("transit",
             PDict [("routes", PList [PDict [("route", PInt 3);
                                             ("destination", PStr "Sandstone")]])])])
    "beltline" (PStr "Beltline") = Ok None.
Proof.
  apply (chunk_transit_none_counted _
           [("routes", PList [PDict [("route", PInt 3);
                                     ("destination", PStr "Sandstone")]])]);
    reflexivity.
Defined.

(** X20.  A [demographics] subtree that is not empty but holds none of the
    fields the chunker reads gives a chunk all the same: its text is the
    header alone. *)
Theorem chunk_demographics_header_only (d m : list (string * pyval)) (slug : string)
    (name : pyval) :
  lookup "demographics" d = Some (PDict m) ->
  m <> [] ->
  lookup "median_age" m = None -> lookup "avg_income" m = None ->
  lookup "owner_pct" m = None -> lookup "visible_minority_pct" m = None ->
  chunk_demographics (PDict d) slug name =
    Ok (Some (Chunk (slug +:+ "-demographics") slug "demographics"
                (PULSE_BASE_URL +:+ "/" +:+ slug +:+ "#demographics")
                (str name +:+ " demographics (Census 2021). ")
                demographics_viz)).
Proof.
  intros Hm Hne H1 H2 H3 H4. unfold chunk_demographics, get.
  rewrite (get_or_some _ _ _ _ Hm), bind_ok.
  destruct m as [|kv m]; [congruence|]. rewrite truthy_dict_cons. cbn [negb].
  rewrite (get_or_dict (kv :: m) "median_age"), H1, bind_ok.
  rewrite (get_or_dict (kv :: m) "avg_income"), H2, bind_ok.
  rewrite (get_or_dict (kv :: m) "owner_pct"), H3.
  rewrite (get_or_dict (kv :: m) "visible_minority_pct"), H4.
  reflexivity.
Qed.

Lemma chunk_demographics_header_only_witness :
  exists c,
    chunk_demographics (PDict [("demographics", PDict [("population", PInt 25000)])])
      "beltline" (PStr "Beltline") = Ok (Some c) /\
    text c = "Beltline demographics (Census 2021). ".
Proof.
  eexists. split.
  - apply (chunk_demographics_header_only _ [("population", PInt 25000)]);
      try reflexivity.
    discriminate.
  - vm_compute. reflexivity.
Defined.

(** X21.  A [business_character] subtree without [total_businesses] cannot
    be chunked. *)
Theorem chunk_business_needs_total (d bc : list (string * pyval)) (slug : string)
    (name : pyval) :
  lookup "business_character" d = Some (PDict bc) ->
  bc <> [] ->
  lookup "total_businesses" bc = None ->
  chunk_business (PDict d) slug name = Raise ValueError.
Proof.
  intros Hbc Hne Ht. unfold chunk_business.
  rewrite (get_or_dict d "business_development"), bind_ok.
  rewrite (get_or_some _ _ _ _ Hbc), bind_ok.
  destruct bc as [|kv bc]; [congruence|]. rewrite truthy_dict_cons.
  cbn [negb]. rewrite andb_false_r. cbv zeta.
  rewrite (get_or_dict (kv :: bc) "character"), bind_ok.
  rewrite (get_or_dict (kv :: bc) "total_businesses"), Ht, bind_ok.
  reflexivity.
Qed.

Lemma chunk_business_needs_total_witness :
  chunk_business
    (PDict [("business_character", PDict [("character", PStr "Retail")])])
    "beltline" (PStr "Beltline") = Raise ValueError.
Proof.
  apply (chunk_business_needs_total _ [("character", PStr "Retail")]);
    [reflexivity|discriminate|reflexivity].
Defined.

(** X22.  The overview of a record that gives its sector, its district and a
    population: the text names them, with the population in groups of
    three digits. *)
Theorem chunk_hero_minimal (slug sector district : string) (name title : pyval)
    (n : Z) :
  n <> 0 ->
  chunk_hero
    (PDict [("slug", PStr slug); ("name", title); ("sector", PStr sector);
            ("creb_district", PStr district);
            ("hero", PDict [("population", PInt n)])])
    slug name =
  Ok (Some (Chunk (slug +:+ "-overview") slug "overview"
              (PULSE_BASE_URL +:+ "/" +:+ slug)
              (((str name +:+ " community overview. ") +:+
                "Located in " +:+ sector +:+ " sector, CREB district: " +:+
                district +:+ ". ") +:+
               "Population: " +:+ int_comma n +:+ ". ")
              hero_viz)).
Proof.
  intros Hn.
  set (h := [("population", PInt n)]).
  set (d := [("slug", PStr slug); ("name", title); ("sector", PStr sector);
             ("creb_district", PStr district); ("hero", PDict h)]).
  assert (Hh : lookup "hero" d = Some (PDict h)) by reflexivity.
  assert (Hs : lookup "sector" d = Some (PStr sector)) by reflexivity.
  assert (Hc : lookup "creb_district" d = Some (PStr district)) by reflexivity.
  assert (Hp : lookup "population" h = Some (PInt n)) by reflexivity.
  assert (Ht : truthy (PInt n) = true)
    by (cbn [truthy]; apply Z.eqb_neq in Hn; rewrite Hn; reflexivity).
  unfold chunk_hero, get.
  rewrite (get_or_some _ _ _ _ Hh), bind_ok.
  rewrite (default_absent "description" d) by reflexivity. rewrite bind_ok.
  rewrite (get_or_some _ _ _ _ Hs), bind_ok.
  rewrite (get_or_some _ _ _ _ Hc), bind_ok.
  rewrite (default_absent "distance_to_downtown_km" d) by reflexivity.
  rewrite bind_ok. cbv zeta. cbn [truthy]. rewrite bind_ok.
  rewrite (get_or_some _ _ _ _ Hp), bind_ok, Ht.
  rewrite (default_absent "safety_percentile" (h)) by reflexivity.
  rewrite (default_absent "avg_value" (h)) by reflexivity.
  reflexivity.
Qed.

Lemma chunk_hero_minimal_witness :
  exists c,
    chunk_hero
      (PDict [("slug", PStr "test"); ("name", PStr "Test"); ("sector", PStr "NE");
              ("creb_district", PStr "D1");
              ("hero", PDict [("population", PInt 5000)])])
      "test" (PStr "Test") = Ok (Some c) /\
    text c = "Test community overview. Located in NE sector, CREB district: D1. Population: 5,000. " /\
    component <$> viz_list c = ["HeroCards"].
Proof.
  eexists. split.
  - apply (chunk_hero_minimal "test" "NE" "D1" (PStr "Test") (PStr "Test") 5000).
    discriminate.
  - split; vm_compute; reflexivity.
Defined.

(** * Numbers with thousands separators, and the metadata *)

Lemma without_app (c : ascii) (s t : string) :
  without c (s +:+ t) = without c s +:+ without c t.
Proof.
  induction s as [|x s IH]; [reflexivity|].
  rewrite append_cons. cbn [without]. rewrite IH.
  destruct (Ascii.eqb x c); reflexivity.
Qed.

Lemma uint_no_comma (d : Decimal.uint) :
  without "," (NilEmpty.string_of_uint d) = NilEmpty.string_of_uint d.
Proof.
  induction d; cbn [NilEmpty.string_of_uint without]; [reflexivity|..];
    rewrite IHd; reflexivity.
Qed.

Lemma digits_no_comma (n : N) : without "," (digits n) = digits n.
Proof.
  unfold digits, NilZero.string_of_uint.
  destruct (N.to_uint n) eqn:E; [reflexivity|..]; apply uint_no_comma.
Qed.

Lemma group_from_without (s : string) :
  forall k, without "," (group_from k s) = without "," s.
Proof.
  induction s as [|c s IH]; intros k; [reflexivity|].
  destruct k as [|k]; cbn [group_from without]; rewrite IH; reflexivity.
Qed.

Lemma group_from_length (s : string) :
  forall k, String.length (group_from k s) =
            (String.length s + (String.length s - k + 2) / 3)%nat.
Proof.
  induction s as [|c s IH]; intros k; [reflexivity|].
  destruct k as [|k]; cbn [group_from String.length]; rewrite IH.
  - assert (E : ((String.length s - 2 + 2) / 3 + 1 =
                 (S (String.length s) - 0 + 2) / 3)%nat).
    { destruct (String.length s) as [|[|n]]; [reflexivity..|].
      replace (S (S n) - 2 + 2)%nat with (S (S n)) by lia.
      replace (S (S (S n)) - 0 + 2)%nat with (S (S n) + 1 * 3)%nat by lia.
      rewrite Nat.div_add by discriminate. lia. }
    lia.
  - replace (S (String.length s) - S k)%nat with (String.length s - k)%nat by lia.
    lia.
Qed.

(** X23.  [format(n, ',')] of an integer, as the texts print counts: without
    its commas it is [str(n)], and it holds one comma for each full
    group of three digits after the first digit. *)
Theorem fmt_comma_grouping (z : Z) :
  fmt_comma (PInt z) = Ok (int_comma z) /\
  without "," (int_comma z) = int_str z /\
  String.length (int_comma z) =
    (String.length (int_str z) + (String.length (digits (Z.abs_N z)) - 1) / 3)%nat.
Proof.
  split; [reflexivity|]. unfold int_comma, int_str, group_thousands. split.
  - rewrite without_app, group_from_without, digits_no_comma.
    destruct (z <? 0); reflexivity.
  - rewrite !length_app, group_from_length.
    pose proof (digits_nonempty (Z.abs_N z)) as Hl.
    set (l := String.length (digits (Z.abs_N z))) in *.
    assert (E : ((l - match (l mod 3)%nat with O => 3 | S r => S r end + 2) / 3 =
                 (l - 1) / 3)%nat).
    { pose proof (Nat.div_mod_eq l 3) as Hd.
      pose proof (Nat.mod_upper_bound l 3 ltac:(discriminate)) as Hm.
      pose proof (Nat.div_mod_eq (l - 1) 3) as Hd1.
      pose proof (Nat.mod_upper_bound (l - 1) 3 ltac:(discriminate)) as Hm1.
      destruct (l mod 3)%nat as [|[|[|r]]] eqn:Er; [..|lia].
      - replace (l - 3 + 2)%nat with (l - 1)%nat by lia. reflexivity.
      - replace (l - 1 + 2)%nat with ((l - 1) / 3 * 3 + 2)%nat.
        + rewrite Nat.add_comm, Nat.div_add by discriminate. reflexivity.
        + assert (E1 : ((l - 1) mod 3 = 0)%nat).
          { assert (El : (l - 1 = 3 * (l / 3))%nat) by lia.
            rewrite El, Nat.mul_comm. apply Nat.Div0.mod_mul. }
          lia.
      - replace (l - 2 + 2)%nat with l by lia.
        assert (El : (l = 1 + (l - 1))%nat) by lia.
        assert (E1 : ((l - 1) mod 3 = 1)%nat).
        { assert (El' : (l - 1 = 1 + (l / 3) * 3)%nat) by lia.
          rewrite El', Nat.Div0.mod_add. reflexivity. }
        assert (E2 : (l / 3 = (l - 1) / 3)%nat) by lia.
        exact E2. }
    rewrite E. lia.
Qed.

Lemma ascii_only_app (s t : string) :
  ascii_only (s +:+ t) = ascii_only s && ascii_only t.
Proof.
  induction s as [|c s IH]; [reflexivity|].
  rewrite append_cons. cbn [ascii_only]. rewrite IH, andb_assoc. reflexivity.
Qed.

Lemma json_char_ascii (c : ascii) : ascii_only (json_char c) = true.
Proof.
  destruct c as [[] [] [] [] [] [] [] []]; vm_compute; reflexivity.
Qed.

Lemma concat_ascii (l : list string) :
  Forall (fun s => ascii_only s = true) l -> ascii_only (String.concat "" l) = true.
Proof.
  induction 1 as [|s l Hs Hl IH]; [reflexivity|].
  cbn [String.concat]. destruct l as [|s' l]; [exact Hs|].
  rewrite !ascii_only_app, Hs, IH. reflexivity.
Qed.

Lemma json_string_ascii (s : string) : ascii_only (json_string s) = true.
Proof.
  unfold json_string. rewrite ascii_only_app. cbn [ascii_only].
  rewrite concat_ascii; [reflexivity|].
  apply List.Forall_map, List.Forall_forall. intros c _. apply json_char_ascii.
Qed.

Lemma join_ascii (sep : string) (l : list string) :
  ascii_only sep = true ->
  Forall (fun s => ascii_only s = true) l -> ascii_only (Str.join sep l) = true.
Proof.
  intros Hsep. induction 1 as [|s l Hs Hl IH]; [reflexivity|].
  cbn [Str.join]. destruct l as [|s' l]; [exact Hs|].
  rewrite !ascii_only_app, Hs, Hsep, IH. reflexivity.
Qed.

Lemma json_list_ascii (items : list string) :
  Forall (fun s => ascii_only s = true) items -> ascii_only (json_list items) = true.
Proof.
  intros H. unfold json_list. rewrite !ascii_only_app, join_ascii by auto.
  reflexivity.
Qed.

Lemma json_object_ascii (fields : list (string * string)) :
  Forall (fun kv => ascii_only (snd kv) = true) fields ->
  ascii_only (json_object fields) = true.
Proof.
  intros H. unfold json_object. rewrite !ascii_only_app, join_ascii;
    [reflexivity|reflexivity|].
  apply List.Forall_map. eapply List.Forall_impl; [|exact H].
  intros [k v] Hv. cbn [fst snd] in *.
  rewrite !ascii_only_app, json_string_ascii, Hv. reflexivity.
Qed.

Lemma json_viz_ascii (v : viz) : ascii_only (json_viz v) = true.
Proof.
  unfold json_viz. apply json_object_ascii.
  rewrite !Forall_app. split; [|split; [|split]].
  - repeat apply Forall_cons_2; cbn [snd]; try apply json_string_ascii;
      [|apply Forall_nil_2].
    apply json_list_ascii, List.Forall_map, List.Forall_forall.
    intros s _. apply json_string_ascii.
  - destruct (series v) as [s|]; [|apply Forall_nil_2].
    apply Forall_cons_2; [|apply Forall_nil_2]. cbn [snd]. unfold json_series.
    apply json_list_ascii, List.Forall_map, List.Forall_forall.
    intros kl _. apply json_object_ascii.
    repeat apply Forall_cons_2; cbn [snd]; try apply json_string_ascii.
    apply Forall_nil_2.
  - destruct (x_axis v); [|apply Forall_nil_2].
    apply Forall_cons_2; [apply json_string_ascii|apply Forall_nil_2].
  - apply Forall_cons_2; [apply json_string_ascii|apply Forall_nil_2].
Qed.

(** X24.  The [viz] metadata that [index_chunks] writes is ASCII text,
    whatever characters the descriptors of the chunk hold:
    [json.dumps] escapes the others. *)
Theorem entry_viz_ascii (c : chunk) : ascii_only (meta_viz (entry_of c)) = true.
Proof.
  unfold entry_of. cbn [meta_viz].
  apply json_list_ascii, List.Forall_map, List.Forall_forall.
  intros v _. apply json_viz_ascii.
Qed.
